(** * A shallow embedding of the market-data ETL pipeline

    The development follows the repository file by file:

    - [etl/create_ultimate_dataset.py]      (module [Ultimate])
    - [src/etl/create_final_dataset.py]     (module [Final])
    - [etl/04_load_to_rds.py]               (module [LoadToRds])
    - [Lambda/lambda_function.py]           (module [Lambda])

    Data frames are lists of rows (records, one field per column).  Column
    values of dtype float64 are exact rationals extended with the two
    infinities and NaN; rounding and overflow of the float unit are not part of
    that model.  Statements about the digits of a float column are made on
    IEEE binary64 cells instead (module [Float64]). *)

From Stdlib Require Import QArith Qcanon Ascii.
From Stdlib Require Floats.
From stdpp Require Import base decidable option numbers list strings gmap sorting.

Local Open Scope Z_scope.

(** ** float64 cells *)

Inductive fl : Type :=
  | Num (q : Qc)
  | PInf
  | NInf
  | NaN.

#[global] Instance fl_eq_dec : EqDecision fl.
Proof. solve_decision. Defined.

Definition Qc_of (n : Z) : Qc := Q2Qc (inject_Z n).

Definition isna (x : fl) : bool :=
  match x with NaN => true | _ => false end.

Definition isinf (x : fl) : bool :=
  match x with PInf | NInf => true | _ => false end.

Definition fneg (x : fl) : fl :=
  match x with
  | Num q => Num (- q)%Qc
  | PInf => NInf
  | NInf => PInf
  | NaN => NaN
  end.

Definition fadd (x y : fl) : fl :=
  match x, y with
  | NaN, _ | _, NaN => NaN
  | Num a, Num b => Num (a + b)%Qc
  | PInf, NInf | NInf, PInf => NaN
  | PInf, _ | _, PInf => PInf
  | NInf, _ | _, NInf => NInf
  end.

Definition fsub (x y : fl) : fl := fadd x (fneg y).

(** The infinity with the sign of [c] ([Lt] negative, [Gt] positive); a zero
    factor gives NaN. *)
Definition inf_signed (c : comparison) : fl :=
  match c with Gt => PInf | Lt => NInf | Eq => NaN end.

Definition fmul (x y : fl) : fl :=
  match x, y with
  | NaN, _ | _, NaN => NaN
  | Num a, Num b => Num (a * b)%Qc
  | PInf, Num b | Num b, PInf => inf_signed (b ?= 0)%Qc
  | NInf, Num b | Num b, NInf => inf_signed (CompOpp (b ?= 0)%Qc)
  | PInf, PInf | NInf, NInf => PInf
  | PInf, NInf | NInf, PInf => NInf
  end.

(** Division as numpy does it on float64 columns: a zero divisor gives an
    infinity of the sign of the dividend, and [0/0] is NaN. *)
Definition fdiv (x y : fl) : fl :=
  match x, y with
  | NaN, _ | _, NaN => NaN
  | Num a, Num b =>
      if decide (b = 0%Qc) then inf_signed (a ?= 0)%Qc else Num (a / b)%Qc
  | Num _, (PInf | NInf) => Num 0%Qc
  | PInf, Num b => match (b ?= 0)%Qc with Lt => NInf | _ => PInf end
  | NInf, Num b => match (b ?= 0)%Qc with Lt => PInf | _ => NInf end
  | (PInf | NInf), (PInf | NInf) => NaN
  end.

(** The result of a standard deviation: [Root v] stands for the float square
    root of the variance [v], which is not a rational in general. *)
Inductive root : Type :=
  | RootNaN
  | Root (v : Qc).

#[global] Instance root_eq_dec : EqDecision root.
Proof. solve_decision. Defined.

Definition root_isna (r : root) : bool :=
  match r with RootNaN => true | Root _ => false end.

(** [np.round(x, 4)], carried symbolically. *)
Inductive rounded (A : Type) : Type :=
  | Round4 (x : A).
Arguments Round4 {A} x.

(** ** Dates

    A parsed [datetime64] date is the number of days since 1970-01-01.  The
    functions below are pandas' [dt] accessors and [strftime("%Y-%m-%d")] on
    such a date (proleptic Gregorian calendar). *)

Module Calendar.

Definition civil_from_days (z : Z) : Z * Z * Z :=
  let z := z + 719468 in
  let era := z / 146097 in
  let doe := z - era * 146097 in
  let yoe := (doe - doe / 1460 + doe / 36524 - doe / 146096) / 365 in
  let doy := doe - (365 * yoe + yoe / 4 - yoe / 100) in
  let mp := (5 * doy + 2) / 153 in
  let d := doy - (153 * mp + 2) / 5 + 1 in
  let m := if mp <? 10 then mp + 3 else mp - 9 in
  let y := yoe + era * 400 in
  (if m <=? 2 then y + 1 else y, m, d).

Definition days_from_civil (y m d : Z) : Z :=
  let y := if m <=? 2 then y - 1 else y in
  let era := y / 400 in
  let yoe := y - era * 400 in
  let doy := (153 * (if 2 <? m then m - 3 else m + 9) + 2) / 5 + d - 1 in
  let doe := yoe * 365 + yoe / 4 - yoe / 100 + doy in
  era * 146097 + doe - 719468.

Definition year (z : Z) : Z := (civil_from_days z).1.1.
Definition month (z : Z) : Z := (civil_from_days z).1.2.
Definition day (z : Z) : Z := (civil_from_days z).2.
Definition quarter (z : Z) : Z := (month z - 1) / 3 + 1.
(** Monday is 0; 1970-01-01 was a Thursday. *)
Definition dayofweek (z : Z) : Z := (z + 3) mod 7.
Definition dayofyear (z : Z) : Z := z - days_from_civil (year z) 1 1 + 1.

Definition digit (n : Z) : string :=
  String (Ascii.ascii_of_N (Z.to_N (48 + n mod 10))) EmptyString.

(** [n] written with at least [w] decimal digits, zero padded ([n >= 0]). *)
Fixpoint zero_padded (w : nat) (n : Z) : string :=
  match w with
  | O => EmptyString
  | S w' => (zero_padded w' (n / 10) +:+ digit n)%string
  end.

Definition strftime_Y_m_d (z : Z) : string :=
  (zero_padded 4 (year z) +:+ "-" +:+ zero_padded 2 (month z) +:+ "-"
     +:+ zero_padded 2 (day z))%string.

End Calendar.

(** ** Data-frame operations (the pandas calls the scripts make) *)

Section frame_ops.
Context {A : Type}.

(** [sort_values] on several columns is a stable sort; [le] compares the
    key columns lexicographically. *)
Fixpoint insert_sorted (le : A → A → bool) (x : A) (l : list A) : list A :=
  match l with
  | [] => [x]
  | y :: l' => if le x y then x :: l else y :: insert_sorted le x l'
  end.

Definition sort_values (le : A → A → bool) (l : list A) : list A :=
  foldr (insert_sorted le) [] l.

(** [pd.merge(l, r, on=key, how='inner')]: the rows of [l] in order, each
    paired with the rows of [r] that carry its key. *)
Definition merge_inner {B K : Type} `{EqDecision K}
    (kl : A → K) (kr : B → K) (l : list A) (r : list B) : list (A * B) :=
  flat_map (λ a, map (pair a) (filter (λ b, kr b = kl a) r)) l.

(** [how='left']: a row of [l] without partner is kept, with the columns of
    [r] missing. *)
Definition merge_left {B K : Type} `{EqDecision K}
    (kl : A → K) (kr : B → K) (l : list A) (r : list B)
    : list (A * option B) :=
  flat_map (λ a, match filter (λ b, kr b = kl a) r with
                 | [] => [(a, None)]
                 | ms => map (λ b, (a, Some b)) ms
                 end) l.

(** The rows of the group with key [k], in frame order. *)
Definition get_group {K : Type} `{EqDecision K}
    (key : A → K) (k : K) (l : list A) : list A :=
  filter (λ x, key x = k) l.

(** [l.groupby(key).transform(f)]: [f] is applied to each group and the
    results are put back at the positions of the group's rows. *)
Definition transform {K B : Type} `{EqDecision K}
    (key : A → K) (f : list A → list B) (dflt : B) (l : list A) : list B :=
  imap (λ i x, default dflt
                 (f (get_group key (key x) l)
                    !! length (get_group key (key x) (take i l)))) l.

(** [l.groupby(key)]: the groups in order of first appearance of their key
    (callers sort the keys where pandas does). *)
Definition groupby {K : Type} `{EqDecision K}
    (key : A → K) (l : list A) : list (K * list A) :=
  map (λ k, (k, get_group key k l)) (remove_dups (map key l)).
End frame_ops.

(** [vals[mask]]: the rows selected by a boolean mask. *)
Definition select {A : Type} (mask : list bool) (vals : list A) : list A :=
  flat_map (λ p : bool * A, if p.1 then [p.2] else []) (zip mask vals).

(** [Series.nunique()]. *)
Definition nunique {K : Type} `{EqDecision K} (l : list K) : nat :=
  length (remove_dups l).

(** *** Column arithmetic *)

Fixpoint ffill_from (prev : fl) (xs : list fl) : list fl :=
  match xs with
  | [] => []
  | x :: xs' =>
      let y := if isna x then prev else x in
      y :: ffill_from y xs'
  end.

(** [fillna(method='ffill')]. *)
Definition ffill (xs : list fl) : list fl := ffill_from NaN xs.

(** [fillna(v)]. *)
Definition fillna (v : fl) (x : fl) : fl := if isna x then v else x.

(** [shift(1)]. *)
Definition shift1 (xs : list fl) : list fl := take (length xs) (NaN :: xs).

(** [pct_change()] of one group: missing values are forward filled (the
    default [fill_method] of the pandas versions that still accept
    [fillna(method=...)]), then [filled / filled.shift(1) - 1]. *)
Definition pct_change (xs : list fl) : list fl :=
  let filled := ffill xs in
  zip_with (λ a b, fsub (fdiv a b) (Num 1%Qc)) filled (shift1 filled).

(** The observations of a rolling window: NaN is skipped and the rolling
    aggregations treat the infinities as NaN. *)
Definition observations (xs : list fl) : list Qc :=
  omap (λ x, match x with Num q => Some q | _ => None end) xs.

Definition Qcsum (qs : list Qc) : Qc := foldr Qcplus 0%Qc qs.

Definition mean (qs : list Qc) : Qc :=
  (Qcsum qs / Qc_of (Z.of_nat (length qs)))%Qc.

(** Sample variance ([ddof=1]). *)
Definition var (qs : list Qc) : Qc :=
  let m := mean qs in
  (Qcsum (map (λ q, (q - m) * (q - m)) qs)
     / Qc_of (Z.of_nat (length qs) - 1))%Qc.

(** The rows [i-w+1 .. i] of a series. *)
Definition window (w i : nat) (xs : list fl) : list fl :=
  drop (S i - w) (take (S i) xs).

(** [xs.rolling(window=w, min_periods=minp).std()]: a value is produced when
    the window holds at least [minp] observations and more than [ddof = 1]. *)
Definition rolling_std (w minp : nat) (xs : list fl) : list root :=
  imap (λ i _, let qs := observations (window w i xs) in
               if bool_decide (minp ≤ length qs)%nat
                  && bool_decide (1 < length qs)%nat
               then Root (var qs) else RootNaN) xs.

(** [pd.cut(x, bins=[0, 33, 66, 100], labels=['Low', 'Medium', 'High'])]:
    right-closed intervals, the lowest edge excluded. *)
Definition cut_depression (x : fl) : option string :=
  match x with
  | Num q =>
      if bool_decide (q ≤ 0)%Qc then None
      else if bool_decide (q ≤ Qc_of 33)%Qc then Some "Low"%string
      else if bool_decide (q ≤ Qc_of 66)%Qc then Some "Medium"%string
      else if bool_decide (q ≤ Qc_of 100)%Qc then Some "High"%string
      else None
  | _ => None
  end.

(** Lexicographic comparison of (string, date) and (date, string) keys. *)
Definition le_str_date (k1 k2 : string * Z) : bool :=
  match String.compare k1.1 k2.1 with
  | Lt => true
  | Gt => false
  | Eq => k1.2 <=? k2.2
  end.

Definition le_date_str (k1 k2 : Z * string) : bool :=
  match k1.1 ?= k2.1 with
  | Lt => true
  | Gt => false
  | Eq => String.leb k1.2 k2.2
  end.

(** ** Exceptions

    [exn] is an exception object of class [Exception] (what an
    [except Exception] clause catches) with its [str()]. *)

Inductive exn : Type :=
  | Exception (msg : string).

Definition str_exn (e : exn) : string :=
  match e with Exception msg => msg end.

Inductive result (A : Type) : Type :=
  | Ok (a : A)
  | Raise (e : exn).
Arguments Ok {A} a.
Arguments Raise {A} e.

#[global] Instance result_ret : MRet result := λ A a, Ok a.
#[global] Instance result_bind : MBind result :=
  λ A B f r, match r with Ok a => f a | Raise e => Raise e end.

(** A [for] loop that updates an accumulator and may raise. *)
Fixpoint for_each {A B : Type} (body : B → A → result B) (acc : B)
    (l : list A) : result B :=
  match l with
  | [] => Ok acc
  | x :: l' => acc' ← body acc x; for_each body acc' l'
  end.

(** ** Programs with effects

    A program runs on a state [S] and returns or raises; the state it has
    reached is kept in both cases. *)

Definition prog (S A : Type) : Type := S → result A * S.

#[global] Instance prog_ret {S : Type} : MRet (prog S) := λ A a s, (Ok a, s).
#[global] Instance prog_bind {S : Type} : MBind (prog S) :=
  λ A B f m s, match m s with
               | (Ok a, s') => f a s'
               | (Raise e, s') => (Raise e, s')
               end.

Definition raise {S A : Type} (e : exn) : prog S A := λ s, (Raise e, s).

Definition gets {S A : Type} (f : S → A) : prog S A := λ s, (Ok (f s), s).

Definition modify {S : Type} (f : S → S) : prog S unit := λ s, (Ok tt, f s).

(** A pure computation that may raise. *)
Definition lift {S A : Type} (r : result A) : prog S A := λ s, (r, s).

(** [try: body / except Exception as e: handler e]. *)
Definition try_except {S A : Type} (body : prog S A) (handler : exn → prog S A)
    : prog S A :=
  λ s, match body s with
       | (Raise e, s') => handler e s'
       | r => r
       end.

Fixpoint for_loop {S A B : Type} (body : B → A → prog S B) (acc : B)
    (l : list A) : prog S B :=
  match l with
  | [] => mret acc
  | x :: l' => acc' ← body acc x; for_loop body acc' l'
  end.

(** The next outcome planned for a call to an outside service: the call goes
    through ([None], or nothing planned) or raises.  The plan stands for the
    behaviour of the service, which the program does not control. *)
Definition next_outcome (faults : list (option exn))
    : option exn * list (option exn) :=
  match faults with
  | [] => (None, [])
  | o :: rest => (o, rest)
  end.

(** ** The input files of the two aggregation scripts *)

(** A row of [stock_data_wiki.csv].  The label columns may be missing. *)
Record stock_row : Type := {
  date : Z;
  ticker : string;
  company_name : option string;
  sector : option string;
  industry : option string;
  open : fl;
  high : fl;
  low : fl;
  close : fl;
  volume : fl
}.

(** The order of [sort_values(['ticker', 'date'])]. *)
Definition le_ticker_date (r1 r2 : stock_row) : bool :=
  le_str_date (ticker r1, date r1) (ticker r2, date r2).

(** The columns of [merged_analysis_data.csv] that both scripts select. *)
Record analysis_row : Type := {
  a_date : Z;
  sp500_close : fl;
  sp500_return : fl;
  sp500_volatility_7d : fl;
  avg_rainfall : fl;
  depression_index : fl;
  depression_word_count : fl;
  total_articles : fl;
  avg_depression_per_article : fl
}.

(** * etl/create_ultimate_dataset.py *)

Module Ultimate.

(** A stock row with the computed metric columns, under their final names. *)
Record metrics_row : Type := {
  stock : stock_row;
  Return : fl;
  price_range : fl;
  price_change : fl;
  price_change_pct : fl;
  Volatility_7 : root;
  num_stocks : nat
}.

(** [merged_time_series_data.csv]; the category column may be absent from the
    frame as a whole. *)
Record time_series_row : Type := {
  ts_date : Z;
  ts_category : option string
}.

Record time_series : Type := {
  ts_rows : list time_series_row;
  ts_has_category : bool
}.

(** The prepared analysis frame. *)
Record analysis_clean_row : Type := {
  c_date : Z;
  Close_GSPC : fl;
  c_sp500_return : fl;
  c_sp500_volatility_7d : fl;
  avg_national_rainfall : fl;
  c_depression_index : fl;
  c_depression_word_count : fl;
  c_total_articles : fl;
  c_avg_depression_per_article : fl;
  depression_index_category : option string
}.

(** The ultimate data set: the target columns and the four calendar
    columns. *)
Record ultimate_row : Type := {
  u_date : Z;
  u_ticker : string;
  u_company_name : option string;
  u_sector : option string;
  u_industry : option string;
  u_open : fl;
  u_high : fl;
  u_low : fl;
  u_close : fl;
  u_volume : fl;
  u_num_stocks : nat;
  u_Close_GSPC : fl;
  u_Return : fl;
  u_Volatility_7 : root;
  u_depression_word_count : fl;
  u_total_articles : fl;
  u_depression_index : fl;
  u_avg_national_rainfall : fl;
  u_price_range : fl;
  u_price_change_pct : fl;
  u_depression_index_category : option string;
  u_year : Z;
  u_month : Z;
  u_quarter : Z;
  u_day_of_week : Z
}.

(** [dropna(subset=['sector', 'industry', 'company_name'])]. *)
Definition has_labels (r : stock_row) : bool :=
  bool_decide (is_Some (sector r)) && bool_decide (is_Some (industry r))
  && bool_decide (is_Some (company_name r)).

Definition prepare_stock_data_with_metrics (stock_data : list stock_row)
    : list metrics_row :=
  let stock_data := filter (λ r, has_labels r = true) stock_data in
  let stock_data :=
    sort_values le_ticker_date stock_data in
  let daily_return :=
    transform ticker (λ g, pct_change (map close g)) NaN stock_data in
  let volatility_7 :=
    transform (λ p, ticker p.1) (λ g, rolling_std 7 1 (map snd g)) RootNaN
      (zip stock_data daily_return) in
  let num_stocks :=
    transform date (λ g, replicate (length g) (length g)) 0%nat stock_data in
  zip_with (λ '(r, ret) '(vol, n),
      let price_change := fsub (close r) (open r) in
      {| stock := r;
         Return := ret;
         price_range := fsub (high r) (low r);
         price_change := price_change;
         price_change_pct := fmul (fdiv price_change (open r)) (Num (Qc_of 100));
         Volatility_7 := vol;
         num_stocks := n |})
    (zip stock_data daily_return) (zip volatility_7 num_stocks).

Definition prepare_analysis_data (analysis_data : list analysis_row)
    (time_series_data : time_series) : list analysis_clean_row :=
  let joined : list (analysis_row * option string) :=
    if ts_has_category time_series_data then
      map (λ '(a, m), (a, m ≫= ts_category))
        (merge_left a_date ts_date analysis_data (ts_rows time_series_data))
    else map (λ a, (a, None)) analysis_data in
  let filled := ffill (map (λ p, depression_index p.1) joined) in
  zip_with (λ '(a, cat) dep,
      {| c_date := a_date a;
         Close_GSPC := sp500_close a;
         c_sp500_return := sp500_return a;
         c_sp500_volatility_7d := sp500_volatility_7d a;
         avg_national_rainfall := avg_rainfall a;
         c_depression_index := dep;
         c_depression_word_count := fillna (Num 0%Qc) (depression_word_count a);
         c_total_articles := fillna (Num 0%Qc) (total_articles a);
         c_avg_depression_per_article := avg_depression_per_article a;
         depression_index_category :=
           if ts_has_category time_series_data then cat
           else cut_depression dep |})
    joined filled.

Definition create_ultimate_dataset (stock_data : list metrics_row)
    (analysis_data : list analysis_clean_row) : list ultimate_row :=
  let ultimate_data :=
    merge_inner (λ m, date (stock m)) c_date stock_data analysis_data in
  let ultimate_data :=
    sort_values (λ p1 p2,
        le_date_str (date (stock p1.1), ticker (stock p1.1))
                    (date (stock p2.1), ticker (stock p2.1)))
      ultimate_data in
  map (λ '(m, a),
      let r := stock m in
      {| u_date := date r;
         u_ticker := ticker r;
         u_company_name := company_name r;
         u_sector := sector r;
         u_industry := industry r;
         u_open := open r;
         u_high := high r;
         u_low := low r;
         u_close := close r;
         u_volume := volume r;
         u_num_stocks := num_stocks m;
         u_Close_GSPC := Close_GSPC a;
         u_Return := Return m;
         u_Volatility_7 := Volatility_7 m;
         u_depression_word_count := c_depression_word_count a;
         u_total_articles := c_total_articles a;
         u_depression_index := c_depression_index a;
         u_avg_national_rainfall := avg_national_rainfall a;
         u_price_range := price_range m;
         u_price_change_pct := price_change_pct m;
         u_depression_index_category := depression_index_category a;
         u_year := Calendar.year (date r);
         u_month := Calendar.month (date r);
         u_quarter := Calendar.quarter (date r);
         u_day_of_week := Calendar.dayofweek (date r) |})
    ultimate_data.

(** *** The files the script reads and writes

    A CSV file is modelled by the frame it parses to. *)
Inductive csv : Type :=
  | StockCsv (rows : list stock_row)
  | AnalysisCsv (rows : list analysis_row)
  | TimeSeriesCsv (frame : time_series)
  | UltimateCsv (rows : list ultimate_row)
  | OtherCsv.

(** [pd.read_csv(path)]. *)
Definition read_csv (path : string) : prog (gmap string csv) csv :=
  λ fs, match fs !! path with
        | Some f => (Ok f, fs)
        | None =>
            (Raise (Exception
                      ("[Errno 2] No such file or directory: '" +:+ path +:+ "'")),
             fs)
        end.

(** Column access on a frame that lacks the column raises [KeyError]. *)
Definition stock_frame (f : csv) : result (list stock_row) :=
  match f with
  | StockCsv rows => Ok rows
  | _ => Raise (Exception "'date'")
  end.

Definition analysis_frame (f : csv) : result (list analysis_row) :=
  match f with
  | AnalysisCsv rows => Ok rows
  | _ => Raise (Exception "'date'")
  end.

Definition time_series_frame (f : csv) : result time_series :=
  match f with
  | TimeSeriesCsv frame => Ok frame
  | _ => Raise (Exception "'date'")
  end.

Definition load_all_source_data : prog (gmap string csv) (csv * csv * csv) :=
  stock_data ← read_csv "Data/exports/stock_data_wiki.csv";
  analysis_data ← read_csv "Data/exports/merged_analysis_data.csv";
  time_series_data ← read_csv "Data/final/merged_time_series_data.csv";
  mret (stock_data, analysis_data, time_series_data).

(** The data set is written whole, and its first 1000 rows as a sample. *)
Definition save_ultimate_dataset (ultimate_data : list ultimate_row)
    : prog (gmap string csv) string :=
  let output_file := "Data/final/ultimate_stock_analysis_dataset.csv"%string in
  modify (<[output_file := UltimateCsv ultimate_data]>);;
  let sample_data := take 1000 ultimate_data in
  let sample_file := "Data/final/ultimate_dataset_sample.csv"%string in
  modify (<[sample_file := UltimateCsv sample_data]>);;
  mret output_file.

(** [generate_dataset_summary] prints; its completeness figure divides the
    row count by the product of the numbers of tickers and of dates, two
    Python integers, and [ZeroDivisionError] is raised when the product is
    zero. *)
Definition generate_dataset_summary (ultimate_data : list ultimate_row)
    : result unit :=
  let total_possible_records :=
    (nunique (map u_ticker ultimate_data)
     * nunique (map u_date ultimate_data))%nat in
  if bool_decide (total_possible_records = 0%nat)
  then Raise (Exception "division by zero")
  else Ok tt.

(** [main]: an exception of any step is printed and raised again. *)
Definition main : prog (gmap string csv) unit :=
  try_except
    ('(stock_data, analysis_data, time_series_data) ← load_all_source_data;
     stock_data ← lift (stock_frame stock_data);
     let stock_processed := prepare_stock_data_with_metrics stock_data in
     analysis_data ← lift (analysis_frame analysis_data);
     time_series_data ← lift (time_series_frame time_series_data);
     let analysis_processed :=
       prepare_analysis_data analysis_data time_series_data in
     let ultimate_data :=
       create_ultimate_dataset stock_processed analysis_processed in
     output_file ← save_ultimate_dataset ultimate_data;
     lift (generate_dataset_summary ultimate_data))
    (λ e, raise e).

End Ultimate.

(** * etl/create_ultimate_dataset.py on binary64 cells

    [prepare_stock_data_with_metrics] once more, with the cells of the float
    columns as IEEE binary64 numbers and the arithmetic of the float unit:
    [/], [-] and [*] below round to nearest, as NumPy's do. *)

Module Float64.
Import PrimFloat.

Record stock_row : Type := {
  date : Z;
  ticker : string;
  company_name : option string;
  sector : option string;
  industry : option string;
  open : float;
  high : float;
  low : float;
  close : float;
  volume : float
}.

Record metrics_row : Type := {
  stock : stock_row;
  Return : float;
  price_range : float;
  price_change : float;
  price_change_pct : float;
  Volatility_7 : float;
  num_stocks : nat
}.

Definition le_ticker_date (r1 r2 : stock_row) : bool :=
  le_str_date (ticker r1, date r1) (ticker r2, date r2).

Definition has_labels (r : stock_row) : bool :=
  bool_decide (is_Some (sector r)) && bool_decide (is_Some (industry r))
  && bool_decide (is_Some (company_name r)).

Fixpoint ffill_from (prev : float) (xs : list float) : list float :=
  match xs with
  | [] => []
  | x :: xs' =>
      let y := if is_nan x then prev else x in
      y :: ffill_from y xs'
  end.

Definition ffill (xs : list float) : list float := ffill_from nan xs.

Definition shift1 (xs : list float) : list float :=
  take (length xs) (nan :: xs).

(** [pct_change()] of one group: [filled / filled.shift(1) - 1]. *)
Definition pct_change (xs : list float) : list float :=
  let filled := ffill xs in
  zip_with (λ a b, a / b - 1)%float filled (shift1 filled).

Section rolling.

(** [xs.rolling(window=w, min_periods=minp).std()] of pandas. *)
Variable rolling_std : nat → nat → list float → list float.

Definition prepare_stock_data_with_metrics (stock_data : list stock_row)
    : list metrics_row :=
  let stock_data := filter (λ r, has_labels r = true) stock_data in
  let stock_data :=
    sort_values le_ticker_date stock_data in
  let daily_return :=
    transform ticker (λ g, pct_change (map close g)) nan stock_data in
  let volatility_7 :=
    transform (λ p, ticker p.1) (λ g, rolling_std 7 1 (map snd g)) nan
      (zip stock_data daily_return) in
  let num_stocks :=
    transform date (λ g, replicate (length g) (length g)) 0%nat stock_data in
  zip_with (λ '(r, ret) '(vol, n),
      let price_change := (close r - open r)%float in
      {| stock := r;
         Return := ret;
         price_range := (high r - low r)%float;
         price_change := price_change;
         price_change_pct := (price_change / open r * 100)%float;
         Volatility_7 := vol;
         num_stocks := n |})
    (zip stock_data daily_return) (zip volatility_7 num_stocks).

End rolling.

End Float64.

(** ** Group aggregations ([agg]) on float64 columns: missing values are
    skipped. *)

Definition notna (xs : list fl) : list fl := filter (λ x, isna x = false) xs.

Definition fsum (xs : list fl) : fl := foldl fadd (Num 0%Qc) xs.

Definition agg_sum (xs : list fl) : fl := fsum (notna xs).

Definition agg_mean (xs : list fl) : fl :=
  match notna xs with
  | [] => NaN
  | vs => fdiv (fsum vs) (Num (Qc_of (Z.of_nat (length vs))))
  end.

Definition agg_std (xs : list fl) : root :=
  let vs := notna xs in
  if bool_decide (length vs < 2)%nat then RootNaN
  else if existsb isinf vs then RootNaN
  else Root (var (observations vs)).

(** The order of the non-missing floats. *)
Definition fle (x y : fl) : bool :=
  match x, y with
  | NInf, _ | _, PInf => true
  | Num a, Num b => bool_decide (a ≤ b)%Qc
  | _, _ => false
  end.

Definition fmin (x y : fl) : fl := if fle x y then x else y.
Definition fmax (x y : fl) : fl := if fle x y then y else x.

Definition agg_min (xs : list fl) : fl :=
  match notna xs with
  | [] => NaN
  | v :: vs => foldl fmin v vs
  end.

Definition agg_max (xs : list fl) : fl :=
  match notna xs with
  | [] => NaN
  | v :: vs => foldl fmax v vs
  end.

(** * src/etl/create_final_dataset.py *)

Module Final.

(** A stock row with the per-stock metrics of [prepare_stock_data]. *)
Record priced_row : Type := {
  stock : stock_row;
  daily_return : fl;
  price_range : fl;
  price_change : fl;
  price_change_pct : fl
}.

(** A row of [sector_daily] or [industry_daily]; [label] is the column
    [sector] or [industry] and [num_stocks] the column
    [num_stocks_in_sector] or [num_stocks_in_industry]. *)
Record daily_row : Type := {
  d_date : Z;
  label : string;
  d_open : fl;
  d_high : fl;
  d_low : fl;
  d_close : fl;
  d_volume : fl;
  d_daily_return : fl;
  d_price_range : fl;
  d_price_change_pct : fl;
  num_stocks : nat
}.

(** A row of [sector_final] or [industry_final]: the columns of both merged
    frames, the calendar columns and the category. *)
Record final_row : Type := {
  daily : daily_row;
  analysis : analysis_row;
  year : Z;
  month : Z;
  quarter : Z;
  day_of_week : Z;
  day_of_year : Z;
  depression_index_category : option string
}.

(** A row of the summary statistics, after [round(4)]. *)
Record stats_row : Type := {
  s_label : string;
  daily_return_mean : rounded fl;
  daily_return_std : rounded root;
  daily_return_min : rounded fl;
  daily_return_max : rounded fl;
  close_mean : rounded fl;
  close_min : rounded fl;
  close_max : rounded fl;
  volume_mean : rounded fl;
  price_change_pct_mean : rounded fl;
  price_change_pct_std : rounded root;
  depression_index_mean : rounded fl;
  num_stocks_first : nat
}.

(** [groupby(['date', label]).agg({...}).reset_index()]: one row per key, the
    keys in ascending order; rows whose label is missing belong to no
    group. *)
Definition aggregate_daily (label_of : stock_row → option string)
    (rows : list priced_row) : list daily_row :=
  let labelled := omap (λ r, (λ s, (s, r)) <$> label_of (stock r)) rows in
  let key (p : string * priced_row) := (date (stock p.2), p.1) in
  map (λ '(k, g),
      let col (f : priced_row → fl) := map (λ p, f p.2) g in
      {| d_date := k.1;
         label := k.2;
         d_open := agg_mean (col (λ r, open (stock r)));
         d_high := agg_mean (col (λ r, high (stock r)));
         d_low := agg_mean (col (λ r, low (stock r)));
         d_close := agg_mean (col (λ r, close (stock r)));
         d_volume := agg_sum (col (λ r, volume (stock r)));
         d_daily_return := agg_mean (col daily_return);
         d_price_range := agg_mean (col price_range);
         d_price_change_pct := agg_mean (col price_change_pct);
         num_stocks := length g |})
    (map (λ k, (k, get_group key k labelled))
       (sort_values le_date_str (remove_dups (map key labelled)))).

(** [dropna(subset=['sector', 'industry'])]. *)
Definition has_labels (r : stock_row) : bool :=
  bool_decide (is_Some (sector r)) && bool_decide (is_Some (industry r)).

(** The first half of [prepare_stock_data]: the rows that carry their labels,
    sorted, with the per-stock metrics. *)
Definition stock_metrics (stock_data : list stock_row) : list priced_row :=
  let stock_data := filter (λ r, has_labels r = true) stock_data in
  let stock_data :=
    sort_values le_ticker_date stock_data in
  let returns :=
    transform ticker (λ g, pct_change (map close g)) NaN stock_data in
  zip_with (λ r ret,
      let change := fsub (close r) (open r) in
      {| stock := r;
         daily_return := ret;
         price_range := fsub (high r) (low r);
         price_change := change;
         price_change_pct := fmul (fdiv change (open r)) (Num (Qc_of 100)) |})
    stock_data returns.

Definition prepare_stock_data (stock_data : list stock_row)
    : list daily_row * list daily_row :=
  let stock_data := stock_metrics stock_data in
  let sector_daily := aggregate_daily sector stock_data in
  let industry_daily := aggregate_daily industry stock_data in
  (sector_daily, industry_daily).

Definition prepare_analysis_data (analysis_data : list analysis_row)
    : list analysis_row :=
  let filled := ffill (map depression_index analysis_data) in
  zip_with (λ a dep,
      {| a_date := a_date a;
         sp500_close := sp500_close a;
         sp500_return := sp500_return a;
         sp500_volatility_7d := sp500_volatility_7d a;
         avg_rainfall := avg_rainfall a;
         depression_index := dep;
         depression_word_count := fillna (Num 0%Qc) (depression_word_count a);
         total_articles := fillna (Num 0%Qc) (total_articles a);
         avg_depression_per_article :=
           fillna (Num 0%Qc) (avg_depression_per_article a) |})
    analysis_data filled.

(** The column the loop of [create_final_datasets] computes last.  The loop
    first rebinds its variable to a sorted copy of the frame, so the column is
    added to that copy only: the two frames the function returns do not carry
    it. *)
Definition rolling_volatility_7d (df : list final_row) : list root :=
  let df :=
    sort_values (λ r1 r2, le_str_date (label (daily r1), d_date (daily r1))
                                      (label (daily r2), d_date (daily r2)))
      df in
  transform (λ r, label (daily r))
    (λ g, rolling_std 7 1 (map (λ r, d_daily_return (daily r)) g)) RootNaN df.

Definition merge_with_analysis (daily_rows : list daily_row)
    (analysis_data : list analysis_row) : list final_row :=
  map (λ '(d, a),
      {| daily := d;
         analysis := a;
         year := Calendar.year (d_date d);
         month := Calendar.month (d_date d);
         quarter := Calendar.quarter (d_date d);
         day_of_week := Calendar.dayofweek (d_date d);
         day_of_year := Calendar.dayofyear (d_date d);
         depression_index_category := cut_depression (depression_index a) |})
    (merge_inner d_date a_date daily_rows analysis_data).

Definition create_final_datasets (sector_daily industry_daily : list daily_row)
    (analysis_data : list analysis_row) : list final_row * list final_row :=
  (merge_with_analysis sector_daily analysis_data,
   merge_with_analysis industry_daily analysis_data).

(** [groupby(label).agg({...}).round(4)], columns flattened, [reset_index()].
    Shared by [calculate_sector_statistics] and
    [calculate_industry_statistics], which differ in the column names only. *)
Definition calculate_statistics (final : list final_row) : list stats_row :=
  let key (r : final_row) := label (daily r) in
  map (λ k,
      let g := get_group key k final in
      let col (f : daily_row → fl) := map (λ r, f (daily r)) g in
      {| s_label := k;
         daily_return_mean := Round4 (agg_mean (col d_daily_return));
         daily_return_std := Round4 (agg_std (col d_daily_return));
         daily_return_min := Round4 (agg_min (col d_daily_return));
         daily_return_max := Round4 (agg_max (col d_daily_return));
         close_mean := Round4 (agg_mean (col d_close));
         close_min := Round4 (agg_min (col d_close));
         close_max := Round4 (agg_max (col d_close));
         volume_mean := Round4 (agg_mean (col d_volume));
         price_change_pct_mean := Round4 (agg_mean (col d_price_change_pct));
         price_change_pct_std := Round4 (agg_std (col d_price_change_pct));
         depression_index_mean :=
           Round4 (agg_mean (map (λ r, depression_index (analysis r)) g));
         num_stocks_first :=
           default 0%nat (head (map (λ r, num_stocks (daily r)) g)) |})
    (sort_values String.leb (remove_dups (map key final))).

Definition calculate_sector_statistics := calculate_statistics.
Definition calculate_industry_statistics := calculate_statistics.

(** *** The files the script reads and writes

    A CSV file is modelled by the frame it parses to. *)
Inductive csv : Type :=
  | StockCsv (rows : list stock_row)
  | AnalysisCsv (rows : list analysis_row)
  | FinalCsv (rows : list final_row)
  | StatsCsv (rows : list stats_row)
  | OtherCsv.

(** [pd.read_csv(path)]. *)
Definition read_csv (fs : gmap string csv) (path : string) : result csv :=
  match fs !! path with
  | Some f => Ok f
  | None =>
      Raise (Exception
               ("[Errno 2] No such file or directory: '" +:+ path +:+ "'"))
  end.

(** Column access on a frame that lacks the column raises [KeyError]. *)
Definition stock_frame (f : csv) : result (list stock_row) :=
  match f with
  | StockCsv rows => Ok rows
  | _ => Raise (Exception "'date'")
  end.

Definition analysis_frame (f : csv) : result (list analysis_row) :=
  match f with
  | AnalysisCsv rows => Ok rows
  | _ => Raise (Exception "'date'")
  end.

Definition load_and_clean_data (fs : gmap string csv)
    : result (csv * csv * csv) :=
  stock_data ← read_csv fs "Data/exports/stock_data_wiki.csv";
  analysis_data ← read_csv fs "Data/exports/merged_analysis_data.csv";
  sp500_data ← read_csv fs "Data/exports/sp500.csv";
  mret (stock_data, analysis_data, sp500_data).

Definition save_final_datasets
    (sector_final industry_final : list final_row)
    (sector_stats industry_stats : list stats_row)
    (fs : gmap string csv) : gmap string csv :=
  let fs := <["Data/final/sector_daily_analysis.csv" := FinalCsv sector_final]> fs in
  let fs := <["Data/final/industry_daily_analysis.csv" := FinalCsv industry_final]> fs in
  let fs := <["Data/final/sector_summary_statistics.csv" := StatsCsv sector_stats]> fs in
  <["Data/final/industry_summary_statistics.csv" := StatsCsv industry_stats]> fs.

(** [main]: an exception of any step is printed and raised again.  The result
    is the directory a run leaves when it returns.  After the four files are
    saved the summary asks for [sector_stats.nlargest(5, 'daily_return_mean')],
    which raises [TypeError] on the statistics of an empty frame, whose
    columns have dtype [object]; the files are on disk by then. *)
Definition main (fs : gmap string csv) : result (gmap string csv) :=
  '(stock_data, analysis_data, sp500_data) ← load_and_clean_data fs;
  stock_data ← stock_frame stock_data;
  let '(sector_daily, industry_daily) := prepare_stock_data stock_data in
  analysis_data ← analysis_frame analysis_data;
  let analysis_clean := prepare_analysis_data analysis_data in
  let '(sector_final, industry_final) :=
    create_final_datasets sector_daily industry_daily analysis_clean in
  let sector_stats := calculate_sector_statistics sector_final in
  let industry_stats := calculate_industry_statistics industry_final in
  let fs := save_final_datasets sector_final industry_final
              sector_stats industry_stats fs in
  match sector_stats with
  | [] =>
      Raise (Exception
               "Column 'daily_return_mean' has dtype object, cannot use method 'nlargest' with this dtype")
  | _ :: _ => mret fs
  end.

End Final.

(** * etl/04_load_to_rds.py *)

(** ** Strings

    Column names are strings of 8-bit characters; [lower] acts on the ASCII
    letters. *)

Definition lower_ascii (c : ascii) : ascii :=
  let n := Ascii.N_of_ascii c in
  if ((65 <=? n) && (n <=? 90))%N then Ascii.ascii_of_N (n + 32) else c.

Fixpoint map_string (f : ascii → ascii) (s : string) : string :=
  match s with
  | EmptyString => EmptyString
  | String c s' => String (f c) (map_string f s')
  end.

(** [s.lower()]. *)
Definition lower (s : string) : string := map_string lower_ascii s.

(** [s.replace(old, new)] for one-character [old] and [new]. *)
Definition replace (old new : ascii) (s : string) : string :=
  map_string (λ c, if decide (c = old) then new else c) s.

Fixpoint starts_with (p s : string) : bool :=
  match p, s with
  | EmptyString, _ => true
  | String a p', String b s' => bool_decide (a = b) && starts_with p' s'
  | String _ _, EmptyString => false
  end.

(** [sub in s]. *)
Fixpoint contains (sub s : string) : bool :=
  starts_with sub s
  || match s with
     | EmptyString => false
     | String _ s' => contains sub s'
     end.

(** [s.rstrip(chars)]. *)
Fixpoint rstrip (chars : list ascii) (s : string) : string :=
  match s with
  | EmptyString => EmptyString
  | String c s' =>
      match rstrip chars s' with
      | EmptyString =>
          if bool_decide (c ∈ chars) then EmptyString
          else String c EmptyString
      | rest => String c rest
      end
  end.

Module LoadToRds.

Inductive int_dtype := int8 | int16 | int32 | int64 | uint8 | uint16 | uint32 | uint64.
Inductive float_dtype := float16 | float32 | float64.

(** The NumPy dtypes of the columns. *)
Inductive dtype : Type :=
  | IntDtype (t : int_dtype)
  | FloatDtype (t : float_dtype)
  | BoolDtype
  | DatetimeDtype
  | ObjectDtype.

#[global] Instance int_dtype_eq_dec : EqDecision int_dtype.
Proof. solve_decision. Defined.
#[global] Instance float_dtype_eq_dec : EqDecision float_dtype.
Proof. solve_decision. Defined.
#[global] Instance dtype_eq_dec : EqDecision dtype.
Proof. solve_decision. Defined.

(** [str(dtype)]. *)
Definition dtype_str (t : dtype) : string :=
  match t with
  | IntDtype int8 => "int8"
  | IntDtype int16 => "int16"
  | IntDtype int32 => "int32"
  | IntDtype int64 => "int64"
  | IntDtype uint8 => "uint8"
  | IntDtype uint16 => "uint16"
  | IntDtype uint32 => "uint32"
  | IntDtype uint64 => "uint64"
  | FloatDtype float16 => "float16"
  | FloatDtype float32 => "float32"
  | FloatDtype float64 => "float64"
  | BoolDtype => "bool"
  | DatetimeDtype => "datetime64[ns]"
  | ObjectDtype => "object"
  end.

(** A cell of an object column: a string, [None], or a float (NaN where the
    CSV field was empty). *)
Inductive obj : Type :=
  | OStr (s : string)
  | ONone
  | OFloat (x : fl).

#[global] Instance obj_eq_dec : EqDecision obj.
Proof. solve_decision. Defined.

(** A column with its values; a datetime cell is a timestamp or NaT. *)
Inductive column : Type :=
  | IntColumn (t : int_dtype) (vals : list Z)
  | FloatColumn (t : float_dtype) (vals : list fl)
  | BoolColumn (vals : list bool)
  | DatetimeColumn (vals : list (option Z))
  | ObjectColumn (vals : list obj).

Definition dtype_of (c : column) : dtype :=
  match c with
  | IntColumn t _ => IntDtype t
  | FloatColumn t _ => FloatDtype t
  | BoolColumn _ => BoolDtype
  | DatetimeColumn _ => DatetimeDtype
  | ObjectColumn _ => ObjectDtype
  end.

Definition column_length (c : column) : nat :=
  match c with
  | IntColumn _ vals => length vals
  | FloatColumn _ vals => length vals
  | BoolColumn vals => length vals
  | DatetimeColumn vals => length vals
  | ObjectColumn vals => length vals
  end.

(** [isna] of every cell. *)
Definition column_isna (c : column) : list bool :=
  match c with
  | IntColumn _ vals => map (λ _, false) vals
  | FloatColumn _ vals => map isna vals
  | BoolColumn vals => map (λ _, false) vals
  | DatetimeColumn vals => map (λ v, bool_decide (v = None)) vals
  | ObjectColumn vals =>
      map (λ v, match v with
                | ONone | OFloat NaN => true
                | _ => false
                end) vals
  end.

Definition column_select (mask : list bool) (c : column) : column :=
  match c with
  | IntColumn t vals => IntColumn t (select mask vals)
  | FloatColumn t vals => FloatColumn t (select mask vals)
  | BoolColumn vals => BoolColumn (select mask vals)
  | DatetimeColumn vals => DatetimeColumn (select mask vals)
  | ObjectColumn vals => ObjectColumn (select mask vals)
  end.

(** A frame: its columns in order, under their names, all of one length. *)
Definition dataframe : Type := list (string * column).

Definition len (df : dataframe) : nat :=
  match df with
  | [] => 0
  | (_, c) :: _ => column_length c
  end.

Definition columns (df : dataframe) : list string := map fst df.

(** [df.dropna(how='all')]: a row goes when all its cells are missing. *)
Definition dropna_all (df : dataframe) : dataframe :=
  let all_na :=
    foldr (λ c acc, zip_with andb (column_isna c.2) acc)
      (replicate (len df) true) df in
  map (λ '(name, c), (name, column_select (map negb all_na) c)) df.

(** The column-name cleaning of [clean_dataframe_for_upload]. *)
Definition normalize (col : string) : string :=
  replace "."%char "_"%char
    (replace "-"%char "_"%char (replace " "%char "_"%char (lower col))).

Section pandas.

(** [repr] of a finite float. *)
Variable repr_num : Qc → string.

(** [pd.to_datetime(column, errors='coerce')]; some dtypes are refused with
    [TypeError]. *)
Variable to_datetime : column → result column.

Definition str_float (x : fl) : string :=
  match x with
  | NaN => "nan"
  | PInf => "inf"
  | NInf => "-inf"
  | Num q => repr_num q
  end.

(** [str(cell)], as [astype(str)] applies it. *)
Definition str_obj (v : obj) : string :=
  match v with
  | OStr s => s
  | ONone => "None"
  | OFloat x => str_float x
  end.

(** [df[col] = pd.to_datetime(df[col], errors='coerce')] when the frame has
    the column. *)
Definition convert_date_column (col : string) (df : dataframe)
    : result dataframe :=
  mapM (λ '(name, c),
      if decide (name = col) then c' ← to_datetime c; mret (name, c')
      else mret (name, c)) df.

(** [replace([inf, -inf], None)] on a float64 or int64 column: a float column
    holding an infinity becomes an object column with [None] in its place. *)
Definition replace_inf (c : column) : column :=
  match c with
  | FloatColumn float64 vals =>
      if existsb isinf vals
      then ObjectColumn (map (λ x, if isinf x then ONone else OFloat x) vals)
      else c
  | _ => c
  end.

(** [astype(str).replace('nan', None)] on an object column. *)
Definition clean_text (c : column) : column :=
  match c with
  | ObjectColumn vals =>
      ObjectColumn (map (λ v, let s := str_obj v in
                              if decide (s = "nan") then ONone else OStr s) vals)
  | _ => c
  end.

(** One turn of the loop over the text columns.  [df_clean[col]] is a column
    when one column has the name [col]; when the renaming has given the name
    to several columns it is a frame, and a frame has no attribute [dtype]. *)
Definition clean_text_column (df_clean : dataframe) (col : string)
    : result dataframe :=
  if bool_decide (1 < length (filter (λ name, name = col) (columns df_clean)))%nat
  then Raise (Exception "'DataFrame' object has no attribute 'dtype'")
  else
    mret (map (λ '(name, c),
             (name, if decide (name = col) then clean_text c else c))
            df_clean).

Definition clean_dataframe_for_upload (df : dataframe) (table_name : string)
    : result dataframe :=
  let df_clean := df in
  df_clean ← for_each (λ df col, convert_date_column col df) df_clean
                ["date"; "trade_date"; "Date"];
  let df_clean := map (λ '(name, c), (name, replace_inf c)) df_clean in
  let df_clean := map (λ '(name, c), (normalize name, c)) df_clean in
  let text_columns :=
    columns (filter (λ p, dtype_of p.2 = ObjectDtype) df_clean) in
  df_clean ← for_each clean_text_column df_clean text_columns;
  mret (dropna_all df_clean).

(** The PostgreSQL type [create_table_schema] picks for a column. *)
Definition pg_type (c : column) : string :=
  let col_type := dtype_str (dtype_of c) in
  if contains "datetime" col_type then "TIMESTAMP"
  else if contains "int" col_type then "BIGINT"
  else if contains "float" col_type then "DOUBLE PRECISION"
  else if contains "bool" col_type then "BOOLEAN"
  else
    match c with
    | ObjectColumn vals =>
        (* [max()] of an empty column is NaN *)
        match map (λ v, String.length (str_obj v)) vals with
        | [] => "TEXT"
        | n :: ns =>
            let max_len := foldr Nat.max n ns in
            if bool_decide (max_len = 0)%nat then "TEXT"
            else if bool_decide (max_len ≤ 50)%nat then "VARCHAR(100)"
            else if bool_decide (max_len ≤ 255)%nat then "VARCHAR(500)"
            else "TEXT"
        end
    | _ => "TEXT"
    end.

Definition newline : string := String (Ascii.ascii_of_nat 10) EmptyString.

Definition create_index (table_name col : string) : string :=
  newline +:+ "CREATE INDEX IF NOT EXISTS idx_" +:+ table_name +:+ "_" +:+ col
    +:+ " ON " +:+ table_name +:+ "(" +:+ col +:+ ");".

Definition create_table_schema (df : dataframe) (table_name : string)
    (engine : unit) : string :=
  let schema_sql := "CREATE TABLE IF NOT EXISTS " +:+ table_name +:+ " (" +:+ newline in
  let schema_sql :=
    foldl (λ sql '(col, c),
        sql +:+ "    " +:+ col +:+ " " +:+ pg_type c +:+ "," +:+ newline)
      schema_sql df in
  let schema_sql :=
    rstrip [","%char; Ascii.ascii_of_nat 10] schema_sql +:+ newline +:+ ");" in
  let schema_sql :=
    if bool_decide ("date" ∈ columns df)
    then schema_sql +:+ create_index table_name "date" else schema_sql in
  let schema_sql :=
    if bool_decide ("sector" ∈ columns df)
    then schema_sql +:+ create_index table_name "sector" else schema_sql in
  if bool_decide ("industry" ∈ columns df)
  then schema_sql +:+ create_index table_name "industry" else schema_sql.

(** *** The database, the files and the upload *)

Definition FILE_TABLE_MAPPING : list (string * string) :=
  [("Data/final/sector_daily_analysis.csv", "sector_daily_analysis");
   ("Data/final/industry_daily_analysis.csv", "industry_daily_analysis");
   ("Data/final/sector_summary_statistics.csv", "sector_summary_statistics");
   ("Data/final/industry_summary_statistics.csv", "industry_summary_statistics");
   ("Data/final/correlation_statistics_full.csv", "correlation_statistics");
   ("Data/final/merged_time_series_data.csv", "merged_time_series_data")].

(** The world of the script: the CSV files on disk (a file parses to a frame,
    or [read_csv] raises on it), the tables of the database, and the planned
    outcomes of the calls to the database. *)
Record world : Type := {
  files : gmap string (result dataframe);
  tables : gmap string dataframe;
  faults : list (option exn)
}.

Definition set_tables (f : gmap string dataframe → gmap string dataframe)
    (w : world) : world :=
  {| files := files w; tables := f (tables w); faults := faults w |}.

(** One round trip to the database. *)
Definition db_call : prog world unit :=
  λ w, let '(o, rest) := next_outcome (faults w) in
       let w' := {| files := files w; tables := tables w; faults := rest |} in
       match o with
       | None => (Ok tt, w')
       | Some e => (Raise e, w')
       end.

(** The engine is a handle on the database of the world. *)
Definition create_db_engine : prog world unit :=
  try_except db_call (λ e, raise e).

Definition drop_table_if_exists (engine : unit) (table_name : string)
    : prog world unit :=
  try_except (db_call;; modify (set_tables (delete table_name)))
    (λ _, mret tt).

Inductive if_exists_mode := IfExistsFail | IfExistsReplace | IfExistsAppend.

Definition column_append (c1 c2 : column) : option column :=
  match c1, c2 with
  | IntColumn t v1, IntColumn _ v2 => Some (IntColumn t (v1 ++ v2))
  | FloatColumn t v1, FloatColumn _ v2 => Some (FloatColumn t (v1 ++ v2))
  | BoolColumn v1, BoolColumn v2 => Some (BoolColumn (v1 ++ v2))
  | DatetimeColumn v1, DatetimeColumn v2 => Some (DatetimeColumn (v1 ++ v2))
  | ObjectColumn v1, ObjectColumn v2 => Some (ObjectColumn (v1 ++ v2))
  | _, _ => None
  end.

(** Rows inserted into an existing table: the columns must agree. *)
Definition insert_rows (table df : dataframe) : result dataframe :=
  if decide (columns table = columns df) then
    match mapM (λ p, pair p.1.1 <$> column_append p.1.2 p.2.2) (zip table df) with
    | Some t => Ok t
    | None => Raise (Exception "column type mismatch")
    end
  else Raise (Exception "column mismatch").

(** [df.to_sql(table_name, engine, if_exists=..., index=False, ...)]. *)
Definition to_sql (df : dataframe) (table_name : string) (engine : unit)
    (if_exists : if_exists_mode) : prog world unit :=
  db_call;;
  table ← gets (λ w, tables w !! table_name);
  match table, if_exists with
  | Some _, IfExistsFail => raise (Exception "Table already exists.")
  | Some t, IfExistsAppend =>
      t' ← lift (insert_rows t df);
      modify (set_tables <[table_name := t']>)
  | _, _ => modify (set_tables <[table_name := df]>)
  end.

(** [SELECT COUNT( * ) FROM table_name]. *)
Definition select_count (engine : unit) (table_name : string)
    : prog world nat :=
  db_call;;
  table ← gets (λ w, tables w !! table_name);
  match table with
  | Some t => mret (len t)
  | None => raise (Exception "relation does not exist")
  end.

Definition upload_dataframe_to_rds (df : dataframe) (table_name : string)
    (engine : unit) (if_exists : if_exists_mode) : prog world bool :=
  try_except
    (df_clean ← lift (clean_dataframe_for_upload df table_name);
     if bool_decide (len df_clean = 0)%nat then mret false
     else
       (match if_exists with
        | IfExistsReplace => drop_table_if_exists engine table_name
        | _ => mret tt
        end);;
       to_sql df_clean table_name engine if_exists;;
       row_count ← select_count engine table_name;
       mret true)
    (λ e, mret false).

(** [pd.read_csv(file_path)]. *)
Definition read_csv (file_path : string) : prog world dataframe :=
  λ w, match files w !! file_path with
       | Some r => (r, w)
       | None => (Raise (Exception "No such file or directory"), w)
       end.

(** [os.path.exists(file_path)]. *)
Definition path_exists (file_path : string) : prog world bool :=
  gets (λ w, bool_decide (is_Some (files w !! file_path))).

(** The body of the loop of [upload_all_files] on one file, updating
    [results] and [successful_uploads]. *)
Definition upload_file (engine : unit) (acc : gmap string bool * nat)
    (entry : string * string) : prog world (gmap string bool * nat) :=
  let '(results, successful_uploads) := acc in
  let '(file_path, table_name) := entry in
  try_except
    (present ← path_exists file_path;
     if negb present
     then mret (<[table_name := false]> results, successful_uploads)
     else
       df ← read_csv file_path;
       success ← upload_dataframe_to_rds df table_name engine IfExistsReplace;
       mret (<[table_name := success]> results,
             if (success : bool) then S successful_uploads
             else successful_uploads))
    (λ e, mret (<[table_name := false]> results, successful_uploads)).

Definition upload_all_files : prog world (gmap string bool) :=
  engine ← create_db_engine;
  acc ← for_loop (upload_file engine) (∅, 0%nat) FILE_TABLE_MAPPING;
  mret acc.1.

Definition verify_uploads : prog world unit :=
  engine ← create_db_engine;
  try_except db_call (λ e, mret tt).

Definition main : prog world bool :=
  try_except
    (results ← upload_all_files;
     verify_uploads;;
     let success_count := size (filter (λ kv, kv.2 = true) results) in
     let total_count := size results in
     mret (bool_decide (success_count = total_count)))
    (λ e, mret false).
End pandas.

End LoadToRds.

(** * Lambda/lambda_function.py *)

Module Lambda.

(** A JSON document. *)
#[local] Unset Elimination Schemes.
Inductive json : Type :=
  | JNull
  | JBool (b : bool)
  | JInt (n : Z)
  | JFloat (x : fl)
  | JStr (s : string)
  | JArr (items : list json)
  | JObj (fields : list (string * json)).
#[local] Set Elimination Schemes.

(** [Dumps j] is the text [json.dumps(j)]. *)
Inductive json_text : Type :=
  | Dumps (j : json).

(** An object of the bucket store; [Body] is the UTF-8 encoding of the
    text. *)
Record s3_object : Type := {
  Body : json_text;
  ContentType : string
}.

(** The dict the handler returns. *)
Record response : Type := {
  statusCode : Z;
  body : json_text
}.

(** The world of one invocation: the date of the day, the bucket named by the
    environment (if any), what a GET of each URL yields (the parsed document,
    or the exception raised while fetching or parsing), the object store under
    (bucket, key), and the planned outcomes of the calls to the store. *)
Record world : Type := {
  today : Z;
  env_bucket_name : option string;
  http : string → result json;
  s3 : gmap (string * string) s3_object;
  faults : list (option exn)
}.

(** [os.environ.get("BUCKET_NAME", "apan5450-stock")]. *)
Definition BUCKET_NAME (w : world) : string :=
  default "apan5450-stock" (env_bucket_name w).

Definition fetch_json (url : string) : prog world json :=
  λ w, (http w url, w).

(** [s3.put_object(Bucket=..., Key=..., Body=..., ContentType=...)]. *)
Definition put_object (Bucket Key : string) (body : json_text)
    (content_type : string) : prog world unit :=
  λ w, let '(o, rest) := next_outcome (faults w) in
       match o with
       | None =>
           (Ok tt,
            {| today := today w;
               env_bucket_name := env_bucket_name w;
               http := http w;
               s3 := <[(Bucket, Key) :=
                        {| Body := body; ContentType := content_type |}]> (s3 w);
               faults := rest |})
       | Some e =>
           (Raise e,
            {| today := today w;
               env_bucket_name := env_bucket_name w;
               http := http w;
               s3 := s3 w;
               faults := rest |})
       end.

Definition weather_url : string :=
  "https://api.open-meteo.com/v1/forecast"
  +:+ "?latitude=38.9"
  +:+ "&longitude=-77.0"
  +:+ "&daily=temperature_2m_max,temperature_2m_min,precipitation_sum"
  +:+ "&timezone=America%2FNew_York".

Definition stock_url : string :=
  "https://query1.finance.yahoo.com/v8/finance/chart/^GSPC"
  +:+ "?range=1y&interval=1d".

Definition weather_key (date_str : string) : string :=
  "raw/weather/weather_" +:+ date_str +:+ ".json".

Definition sp500_key (date_str : string) : string :=
  "raw/sp500/sp500_" +:+ date_str +:+ ".json".

Definition lambda_handler (event context : json) : prog world response :=
  today ← gets today;
  let date_str := Calendar.strftime_Y_m_d today in
  bucket ← gets BUCKET_NAME;
  try_except
    (weather_json ← fetch_json weather_url;
     stock_json ← fetch_json stock_url;
     put_object bucket (weather_key date_str) (Dumps weather_json)
       "application/json";;
     put_object bucket (sp500_key date_str) (Dumps stock_json)
       "application/json";;
     mret {| statusCode := 200;
             body := Dumps (JObj
               [("message", JStr "Weather and stock data stored successfully");
                ("date", JStr date_str)]) |})
    (λ e,
     mret {| statusCode := 500;
             body := Dumps (JObj
               [("message", JStr "Error in Lambda");
                ("error", JStr (str_exn e))]) |}).

End Lambda.

(** * Properties and test frames

    The statements below use these predicates and concrete frames. *)

(** A numeric, nonzero price. *)
Definition priced (x : fl) : Prop := ∃ q, x = Num q ∧ q ≠ 0%Qc.

(** A numeric price between a millionth and a million million.  On such
    prices float64 forms the ratio of two closes, the squares of the returns
    and their sums over a window of seven without division by zero and
    without overflow, so the returns and their standard deviation are finite
    floats. *)
Definition priced_in_range (x : fl) : Prop :=
  ∃ q, x = Num q
       ∧ (Q2Qc (1 # 1000000) ≤ q)%Qc ∧ (q ≤ Qc_of 1000000000000)%Qc.

(** A volatility column is missing on fewer than 7 leading rows and numeric on
    all later rows. *)
Definition nan_on_leading_rows_only (vols : list root) : Prop :=
  ∃ n, (n < 7)%nat ∧ ∀ k v, vols !! k = Some v → (v = RootNaN ↔ (k < n)%nat).

(** A complete row of ticker AAA with an integer close. *)
Definition fixture_row (d : Z) (c : Z) (labels : string * string * string)
    (o h l v : fl) : stock_row :=
  {| date := d; ticker := "AAA";
     company_name := Some labels.1.1; sector := Some labels.1.2;
     industry := Some labels.2;
     open := o; high := h; low := l;
     close := Num (Qc_of c); volume := v |}.

Section binary64_fixture.
Import PrimFloat.

(** The same row on binary64 cells. *)
Definition fixture_row64 (d : Z) (c : float)
    (labels : string * string * string) (o h l v : float)
    : Float64.stock_row :=
  {| Float64.date := d; Float64.ticker := "AAA";
     Float64.company_name := Some labels.1.1;
     Float64.sector := Some labels.1.2;
     Float64.industry := Some labels.2;
     Float64.open := o; Float64.high := h; Float64.low := l;
     Float64.close := c; Float64.volume := v |}.

(** The binary64 number nearest to one fifth: the value of the literal
    [0.2]. *)
Definition one_fifth : float := 0x1.999999999999ap-3%float.

(** The three-row fixture with closes 10, 12, 9, and a rolling standard
    deviation to run it with. *)
Definition fixture64 : list Float64.stock_row :=
  [fixture_row64 0 10%float ("A Corp", "Tech", "Software")
     9%float 11%float 9%float 500%float;
   fixture_row64 1 12%float ("A Corp", "Tech", "Software")
     10%float 12%float 10%float 600%float;
   fixture_row64 2 9%float ("A Corp", "Tech", "Software")
     12%float 13%float 8%float 700%float].

Definition no_rolling_std (w minp : nat) (xs : list float)
    : list float :=
  map (λ _, nan) xs.

End binary64_fixture.

(** Eight days of a stock quoted at zero. *)
Definition zero_priced_stock : list stock_row :=
  map (λ d, fixture_row d 0 ("A Corp", "Tech", "Software")
              (Num 0%Qc) (Num 0%Qc) (Num 0%Qc) (Num 0%Qc))
    [0; 1; 2; 3; 4; 5; 6; 7].

(** The smaller of the two key domains of a merge. *)
Definition smaller_key_domain {A B K : Type} `{EqDecision K}
    (kl : A → K) (kr : B → K) (l : list A) (r : list B) : nat :=
  nunique (map kl l) `min` nunique (map kr r).

(** The files [create_final_dataset.py] reads and the files it writes. *)
Definition final_input_paths : list string :=
  ["Data/exports/stock_data_wiki.csv";
   "Data/exports/merged_analysis_data.csv";
   "Data/exports/sp500.csv"]%string.

Definition final_output_paths : list string :=
  ["Data/final/sector_daily_analysis.csv";
   "Data/final/industry_daily_analysis.csv";
   "Data/final/sector_summary_statistics.csv";
   "Data/final/industry_summary_statistics.csv"]%string.

(** The directory after a run of [create_final_dataset.py] on the two input
    tables: the four output tables written over [fs]. *)
Definition final_outputs (stock_data : list stock_row)
    (analysis_data : list analysis_row) (fs : gmap string Final.csv)
    : gmap string Final.csv :=
  let daily := Final.prepare_stock_data stock_data in
  let finals :=
    Final.create_final_datasets daily.1 daily.2
      (Final.prepare_analysis_data analysis_data) in
  Final.save_final_datasets finals.1 finals.2
    (Final.calculate_sector_statistics finals.1)
    (Final.calculate_industry_statistics finals.2) fs.

(** The sector statistics of a run on the two input tables. *)
Definition final_sector_stats (stock_data : list stock_row)
    (analysis_data : list analysis_row) : list Final.stats_row :=
  let daily := Final.prepare_stock_data stock_data in
  Final.calculate_sector_statistics
    (Final.create_final_datasets daily.1 daily.2
       (Final.prepare_analysis_data analysis_data)).1.

(** What the cleaning does to one character of a column name. *)
Definition normalize_char (c : ascii) : ascii :=
  let c := lower_ascii c in
  let c := if decide (c = " "%char) then "_"%char else c in
  let c := if decide (c = "-"%char) then "_"%char else c in
  if decide (c = "."%char) then "_"%char else c.

(** A string that ends with a character outside [chars]. *)
Fixpoint ends_outside (chars : list ascii) (s : string) : bool :=
  match s with
  | EmptyString => false
  | String c EmptyString => bool_decide (c ∉ chars)
  | String _ s' => ends_outside chars s'
  end.

(** The line that declares column [col] with type [ty] in a CREATE TABLE
    statement, and the statements that hold it. *)
Definition column_line (col ty : string) : string :=
  "    " +:+ col +:+ " " +:+ ty.

Definition declares (sql col ty : string) : Prop :=
  contains (column_line col ty) sql = true.

(** Two stock tables that agree on ticker AAA and differ elsewhere. *)
Definition aaa_rows : list stock_row :=
  [fixture_row 2 9 ("A Corp", "Tech", "Software")
     (Num (Qc_of 12)) (Num (Qc_of 13)) (Num (Qc_of 8)) (Num (Qc_of 700));
   fixture_row 0 10 ("A Corp", "Tech", "Software")
     (Num (Qc_of 9)) (Num (Qc_of 11)) (Num (Qc_of 9)) (Num (Qc_of 500));
   fixture_row 1 12 ("A Corp", "Tech", "Software")
     (Num (Qc_of 10)) (Num (Qc_of 12)) (Num (Qc_of 10)) (Num (Qc_of 600))].

Definition other_row (t : string) (d c : Z) : stock_row :=
  {| date := d; ticker := t;
     company_name := Some "B Corp"%string; sector := Some "Energy"%string;
     industry := Some "Oil"%string;
     open := Num (Qc_of c); high := Num (Qc_of c); low := Num (Qc_of c);
     close := Num (Qc_of c); volume := Num (Qc_of 100) |}.

Definition stock_table_1 : list stock_row :=
  other_row "AAB" 0 5 :: aaa_rows ++ [other_row "AAB" 1 7].

Definition stock_table_2 : list stock_row :=
  aaa_rows ++ [other_row "ZZZ" 1 40; other_row "A" 0 1; other_row "A" 1 3].

Definition analysis_on (d : Z) : analysis_row :=
  {| a_date := d;
     sp500_close := Num (Qc_of 4000);
     sp500_return := Num 0%Qc;
     sp500_volatility_7d := Num 0%Qc;
     avg_rainfall := Num (Qc_of 3);
     depression_index := Num (Qc_of 40);
     depression_word_count := Num (Qc_of 12);
     total_articles := Num (Qc_of 90);
     avg_depression_per_article := Num 0%Qc |}.

Definition analysis_table : list analysis_row := [analysis_on 0; analysis_on 1].

Definition no_time_series : Ultimate.time_series :=
  {| Ultimate.ts_rows := []; Ultimate.ts_has_category := false |}.

(** An analysis table that carries one date twice. *)
Definition analysis_table_twice : list analysis_row :=
  [analysis_on 0; analysis_on 0].

(** A directory of exports, the same directory with one more file, and the
    directory after a run of the aggregation script. *)
Definition exports_store : gmap string Final.csv :=
  <["Data/exports/stock_data_wiki.csv"%string := Final.StockCsv stock_table_1]>
    (<["Data/exports/merged_analysis_data.csv"%string :=
         Final.AnalysisCsv analysis_table]>
       (<["Data/exports/sp500.csv"%string := Final.OtherCsv]> ∅)).

Definition exports_store_2 : gmap string Final.csv :=
  <["Data/final/notes.csv"%string := Final.OtherCsv]> exports_store.

Definition final_store : gmap string Final.csv :=
  final_outputs stock_table_1 analysis_table exports_store.

(** The outcome planned for the [k]-th call to the outside service, counting
    from the call that comes next. *)
Definition planned (faults : list (option exn)) (k : nat) : option exn :=
  default None (faults !! k).

Fixpoint repeat_char (n : nat) (c : ascii) : string :=
  match n with
  | O => EmptyString
  | S n' => String c (repeat_char n' c)
  end.

(** A frame with an integer column, a float column and a column of long
    text. *)
Definition schema_frame : LoadToRds.dataframe :=
  [("volume"%string, LoadToRds.IntColumn LoadToRds.int64 [100; 200]);
   ("close"%string,
    LoadToRds.FloatColumn LoadToRds.float64 [Num (Qc_of 10); NaN]);
   ("notes"%string,
    LoadToRds.ObjectColumn
      [LoadToRds.OStr (repeat_char 256 "a"); LoadToRds.ONone])].

(** The call, among those an upload makes to the database, that inserts the
    rows: with [if_exists='replace'] the call that drops the table comes
    first. *)
Definition insert_call (mode : LoadToRds.if_exists_mode) : nat :=
  match mode with LoadToRds.IfExistsReplace => 1 | _ => 0 end.

(** Whether [to_sql] accepts the frame [df] on a database that holds
    [existing] under the name of the table, and the table it leaves. *)
Definition insert_accepted (mode : LoadToRds.if_exists_mode)
    (existing : option LoadToRds.dataframe) (df : LoadToRds.dataframe)
    : Prop :=
  match mode, existing with
  | LoadToRds.IfExistsFail, Some _ => False
  | LoadToRds.IfExistsAppend, Some t => ∃ t', LoadToRds.insert_rows t df = Ok t'
  | _, _ => True
  end.

Definition inserted (mode : LoadToRds.if_exists_mode)
    (existing : option LoadToRds.dataframe) (df : LoadToRds.dataframe)
    : option LoadToRds.dataframe :=
  match mode, existing with
  | LoadToRds.IfExistsAppend, Some t =>
      match LoadToRds.insert_rows t df with
      | Ok t' => Some t'
      | Raise _ => None
      end
  | _, _ => Some df
  end.

(** The upload of [df] with [mode] goes through in the world [w]: the frame
    is cleaned to a frame with rows, the insert is accepted, and neither the
    insert nor the count that follows it fails. *)
Definition upload_succeeds (repr_num : Qc → string)
    (to_datetime : LoadToRds.column → result LoadToRds.column)
    (w : LoadToRds.world) (df : LoadToRds.dataframe) (table : string)
    (mode : LoadToRds.if_exists_mode) : Prop :=
  ∃ df_clean,
    LoadToRds.clean_dataframe_for_upload repr_num to_datetime df table
    = Ok df_clean
    ∧ LoadToRds.len df_clean ≠ 0%nat
    ∧ planned (LoadToRds.faults w) (insert_call mode) = None
    ∧ planned (LoadToRds.faults w) (S (insert_call mode)) = None
    ∧ insert_accepted mode (LoadToRds.tables w !! table) df_clean.

(** The world once the engine is made. *)
Definition engine_made (w : LoadToRds.world) : LoadToRds.world :=
  {| LoadToRds.files := LoadToRds.files w;
     LoadToRds.tables := LoadToRds.tables w;
     LoadToRds.faults := drop 1 (LoadToRds.faults w) |}.

(** The loop of [upload_all_files] goes through the entries [l] from the world
    [w] to the world [w_end] and leaves [results].  For each entry in turn: a
    file that is missing or that [read_csv] refuses is recorded [False] and
    the world stays as it is; otherwise the frame is uploaded in the world
    reached so far, what that upload returns is recorded, [True] exactly when
    it goes through there, and the loop goes on from the world the upload
    leaves. *)
Fixpoint loop_recorded (repr_num : Qc → string)
    (to_datetime : LoadToRds.column → result LoadToRds.column)
    (w : LoadToRds.world) (l : list (string * string))
    (results : gmap string bool) (w_end : LoadToRds.world) : Prop :=
  match l with
  | [] => w_end = w
  | (file, table) :: l' =>
      match LoadToRds.files w !! file with
      | Some (Ok df) =>
          ∃ b w1,
            LoadToRds.upload_dataframe_to_rds repr_num to_datetime df table tt
              LoadToRds.IfExistsReplace w = (Ok b, w1)
            ∧ (b = true
               ↔ upload_succeeds repr_num to_datetime w df table
                   LoadToRds.IfExistsReplace)
            ∧ results !! table = Some b
            ∧ loop_recorded repr_num to_datetime w1 l' results w_end
      | _ =>
          results !! table = Some false
          ∧ loop_recorded repr_num to_datetime w l' results w_end
      end
  end.

(** A disk that holds two of the six files, one of them unreadable, and a
    database that refuses the second call after the engine is made. *)
Definition upload_world : LoadToRds.world :=
  {| LoadToRds.files :=
       {[ "Data/final/sector_daily_analysis.csv"%string := Ok schema_frame;
          "Data/final/industry_daily_analysis.csv"%string :=
            Raise (Exception "ParserError") ]};
     LoadToRds.tables := ∅;
     LoadToRds.faults := [None; None; Some (Exception "OperationalError")] |}.



(** The invocation of the handler on a day when both services answer. *)
Definition lambda_world (faults : list (option exn)) : Lambda.world :=
  {| Lambda.today := 18321;
     Lambda.env_bucket_name := None;
     Lambda.http := λ url,
       if decide (url = Lambda.weather_url) then Ok (Lambda.JStr "weather")
       else if decide (url = Lambda.stock_url) then Ok (Lambda.JStr "stock")
       else Raise (Exception "HTTPError");
     Lambda.s3 := ∅;
     Lambda.faults := faults |}.

(** * Facts about the data-frame operations *)

(** ** [sort_values] *)

Section sort_values_facts.
Context {A : Type} (le : A → A → bool).

Lemma insert_sorted_perm (x : A) (l : list A) : insert_sorted le x l ≡ₚ x :: l.
Proof.
  induction l as [|y l IH]; simpl; [done|].
  destruct (le x y); [done|].
  rewrite IH. apply Permutation_swap.
Qed.

Lemma sort_values_perm (l : list A) : sort_values le l ≡ₚ l.
Proof.
  unfold sort_values.
  induction l as [|x l IH]; simpl; [done|].
  by rewrite insert_sorted_perm, IH.
Qed.

Lemma length_sort_values (l : list A) : length (sort_values le l) = length l.
Proof. by rewrite sort_values_perm. Qed.

Lemma elem_of_sort_values (x : A) (l : list A) : x ∈ sort_values le l ↔ x ∈ l.
Proof. by rewrite sort_values_perm. Qed.

Hypothesis le_total : ∀ x y, le x y = true ∨ le y x = true.
Hypothesis le_trans : ∀ x y z, le x y = true → le y z = true → le x z = true.

Let R (x y : A) : Prop := le x y = true.

Lemma insert_sorted_sorted (x : A) (l : list A) :
  StronglySorted R l → StronglySorted R (insert_sorted le x l).
Proof.
  induction 1 as [|y l Hl IH Hy]; simpl.
  - repeat constructor.
  - destruct (le x y) eqn:Hxy.
    + constructor; [by constructor|].
      constructor; [done|].
      eapply Forall_impl; [exact Hy|]. intros z Hz. by eapply le_trans.
    + constructor; [done|].
      rewrite insert_sorted_perm. constructor; [|done].
      destruct (le_total x y) as [H|H]; [congruence|done].
Qed.

Lemma sort_values_sorted (l : list A) : StronglySorted R (sort_values le l).
Proof.
  unfold sort_values. induction l; simpl; [constructor|].
  by apply insert_sorted_sorted.
Qed.

Lemma insert_sorted_head (x : A) (l : list A) :
  Forall (R x) l → insert_sorted le x l = x :: l.
Proof. destruct 1 as [|y l Hy]; simpl; [done|]. by rewrite Hy. Qed.

(** A frame that is in order already is left as it is. *)
Lemma sort_values_id (l : list A) :
  StronglySorted R l → sort_values le l = l.
Proof.
  unfold sort_values. induction 1 as [|x l Hl IH Hx]; simpl; [done|].
  rewrite IH. by apply insert_sorted_head.
Qed.

(** Stability: selecting rows commutes with sorting. *)
Lemma filter_insert_sorted (P : A → Prop) `{∀ x, Decision (P x)} (x : A) (l : list A) :
  StronglySorted R l →
  filter P (insert_sorted le x l)
  = if decide (P x) then insert_sorted le x (filter P l) else filter P l.
Proof.
  induction 1 as [|y l Hl IH Hy]; simpl.
  - rewrite filter_cons, filter_nil. by destruct (decide (P x)).
  - destruct (le x y) eqn:Hxy.
    + rewrite filter_cons. destruct (decide (P x)); [|done].
      symmetry. apply insert_sorted_head.
      apply Forall_forall. intros z [_ Hz]%list_elem_of_filter.
      apply elem_of_cons in Hz as [->|Hz]; [done|].
      rewrite Forall_forall in Hy.
      eapply le_trans; [exact Hxy|]. by apply Hy.
    + rewrite !(filter_cons _ y). rewrite IH.
      destruct (decide (P y)), (decide (P x)); simpl; by rewrite ?Hxy.
Qed.

Lemma filter_sort_values (P : A → Prop) `{∀ x, Decision (P x)} (l : list A) :
  filter P (sort_values le l) = sort_values le (filter P l).
Proof.
  induction l as [|x l IH]; [done|].
  rewrite filter_cons. change (sort_values le (x :: l)) with
    (insert_sorted le x (sort_values le l)).
  rewrite filter_insert_sorted by apply sort_values_sorted.
  rewrite IH. by destruct (decide (P x)).
Qed.
End sort_values_facts.

(** ** Boolean masks *)

Section select_facts.
Context {A : Type}.

Lemma select_nil_l {B : Type} (vals : list B) : select [] vals = [].
Proof. done. Qed.

Lemma select_cons {B : Type} (b : bool) (mask : list bool) (x : B) (vals : list B) :
  select (b :: mask) (x :: vals) = if b then x :: select mask vals else select mask vals.
Proof. unfold select. simpl. by destruct b. Qed.

Lemma select_nil_r {B : Type} (mask : list bool) : select mask (@nil B) = [].
Proof. by destruct mask. Qed.

Lemma select_map {B C : Type} (f : B → C) (mask : list bool) (vals : list B) :
  select mask (map f vals) = map f (select mask vals).
Proof.
  revert vals. induction mask as [|b mask IH]; intros [|x vals]; try done.
  simpl map. rewrite !select_cons, IH. by destruct b.
Qed.

Lemma select_zip {B C : Type} (mask : list bool) (xs : list B) (ys : list C) :
  select mask (zip xs ys) = zip (select mask xs) (select mask ys).
Proof.
  revert xs ys. induction mask as [|b mask IH]; intros [|x xs] [|y ys];
    rewrite ?select_nil_l, ?select_nil_r; try done.
  - change (zip (x :: xs) []) with (@nil (B * C)).
    rewrite select_nil_r. by destruct (select _ _).
  - simpl zip. rewrite !select_cons, IH. by destruct b.
Qed.

Lemma select_zip_with {B C D : Type} (f : B → C → D) (mask : list bool)
    (xs : list B) (ys : list C) :
  select mask (zip_with f xs ys) = zip_with f (select mask xs) (select mask ys).
Proof.
  revert xs ys. induction mask as [|b mask IH]; intros [|x xs] [|y ys];
    rewrite ?select_nil_l, ?select_nil_r; try done.
  - change (zip_with f (x :: xs) []) with (@nil D).
    rewrite select_nil_r. by destruct (select _ _).
  - simpl zip_with. rewrite !select_cons, IH. by destruct b.
Qed.

Lemma filter_select (P : A → Prop) `{∀ x, Decision (P x)} (l : list A) :
  filter P l = select (map (λ x, bool_decide (P x)) l) l.
Proof.
  induction l as [|x l IH]; [done|].
  simpl map. rewrite select_cons, filter_cons, <-IH.
  by destruct (decide (P x)); [rewrite bool_decide_true|rewrite bool_decide_false].
Qed.

Lemma filter_map_select {B : Type} (f : B → A) (P : A → Prop)
    `{∀ x, Decision (P x)} (l : list B) :
  filter (λ y, P (f y)) l = select (map (λ x, bool_decide (P x)) (map f l)) l.
Proof.
  induction l as [|x l IH]; [done|].
  simpl map. rewrite select_cons, filter_cons, <-IH.
  by destruct (decide (P (f x))); [rewrite bool_decide_true|rewrite bool_decide_false].
Qed.

Lemma length_select_same {B C : Type} (mask : list bool) (xs : list B) (ys : list C) :
  length xs = length ys → length (select mask xs) = length (select mask ys).
Proof.
  revert xs ys. induction mask as [|b mask IH]; intros [|x xs] [|y ys] ?;
    simplify_eq/=; try done.
  - rewrite !select_cons. destruct b; simpl; auto.
Qed.
End select_facts.

(** ** [groupby(...).transform] *)

Section transform_facts.
Context {A K B : Type} `{EqDecision K}.
Context (key : A → K) (f : list A → list B) (dflt : B).

Lemma length_transform (l : list A) : length (transform key f dflt l) = length l.
Proof. unfold transform. by rewrite length_imap. Qed.

Lemma get_group_app (k : K) (l1 l2 : list A) :
  get_group key k (l1 ++ l2) = get_group key k l1 ++ get_group key k l2.
Proof. apply filter_app. Qed.

Lemma select_transform_from (F : K → list B) (k : K) (pre suf : list A) :
  (length (get_group key k pre) + length (get_group key k suf) ≤ length (F k))%nat →
  select (map (λ x, bool_decide (key x = k)) suf)
    (imap (λ i x, default dflt
             (F (key x) !! length (get_group key (key x) (pre ++ take i suf)))) suf)
  = take (length (get_group key k suf))
      (drop (length (get_group key k pre)) (F k)).
Proof.
  revert pre. induction suf as [|x suf IH]; intros pre Hlen; [done|].
  rewrite imap_cons. simpl map. rewrite select_cons.
  rewrite (imap_ext _ (λ i y, default dflt
    (F (key y) !! length (get_group key (key y) ((pre ++ [x]) ++ take i suf))))).
  2:{ intros i y _. simpl. by rewrite (cons_middle x), (assoc_L (++)). }
  unfold get_group in *.
  specialize (IH (pre ++ [x])). rewrite filter_app in IH.
  destruct (decide (key x = k)) as [Heq|Hne].
  - rewrite bool_decide_true by done.
    rewrite filter_cons_True in Hlen |- * by done.
    rewrite (filter_cons_True _ x []), filter_nil in IH by done.
    rewrite length_app in IH. simpl in Hlen, IH |- *.
    rewrite IH by lia.
    rewrite app_nil_r, Heq.
    destruct (lookup_lt_is_Some_2 (F k) (length (filter (λ x0, key x0 = k) pre)))
      as [v Hv]; [lia|].
    rewrite Hv. simpl.
    rewrite (drop_S _ v _ Hv). simpl. by rewrite Nat.add_1_r.
  - rewrite bool_decide_false by done.
    rewrite filter_cons_False in Hlen |- * by done.
    rewrite (filter_cons_False _ x []), filter_nil, app_nil_r in IH by done.
    by rewrite IH.
Qed.

(** The values [transform] puts on the rows of a group are the values [f]
    computes for the group. *)
Lemma select_transform (k : K) (l : list A) :
  length (f (get_group key k l)) = length (get_group key k l) →
  select (map (λ x, bool_decide (key x = k)) l) (transform key f dflt l)
  = f (get_group key k l).
Proof.
  intros Hlen. unfold transform.
  rewrite (select_transform_from (λ k', f (get_group key k' l)) k [] l).
  - simpl. rewrite drop_0, <-Hlen. apply firstn_all.
  - simpl. lia.
Qed.
End transform_facts.

(** ** The orders on the sort keys *)

Lemma string_compare_refl (s : string) : String.compare s s = Eq.
Proof.
  induction s as [|a s IH]; simpl; [done|].
  unfold Ascii.compare. by rewrite N.compare_refl.
Qed.

Lemma string_compare_eq (s1 s2 : string) : String.compare s1 s2 = Eq ↔ s1 = s2.
Proof.
  split; [apply String.compare_eq_iff|]. intros ->. apply string_compare_refl.
Qed.

Lemma string_leb_refl (s : string) : String.leb s s = true.
Proof. unfold String.leb. by rewrite string_compare_refl. Qed.

Lemma string_leb_trans (s1 s2 s3 : string) :
  String.leb s1 s2 = true → String.leb s2 s3 = true → String.leb s1 s3 = true.
Proof.
  intros H12 H23. apply Is_true_true.
  transitivity s2; by apply Is_true_true.
Qed.

Lemma string_compare_lt (s1 s2 : string) :
  String.compare s1 s2 = Lt ↔ String.leb s1 s2 = true ∧ s1 ≠ s2.
Proof.
  unfold String.leb. split.
  - intros H. rewrite H. split; [done|]. intros ->.
    by rewrite string_compare_refl in H.
  - intros [Hle Hne]. destruct (String.compare s1 s2) eqn:E; try done.
    by apply string_compare_eq in E.
Qed.

Lemma string_compare_lt_trans (s1 s2 s3 : string) :
  String.compare s1 s2 = Lt → String.compare s2 s3 = Lt → String.compare s1 s3 = Lt.
Proof.
  rewrite !string_compare_lt. intros [H12 N12] [H23 N23]. split.
  - by eapply string_leb_trans.
  - intros ->. apply N12. by apply String.leb_antisym.
Qed.

Lemma le_str_date_total (k1 k2 : string * Z) :
  le_str_date k1 k2 = true ∨ le_str_date k2 k1 = true.
Proof.
  unfold le_str_date. rewrite (String.compare_antisym k2.1 k1.1).
  destruct (String.compare k1.1 k2.1); simpl; auto.
  destruct (Z.leb_spec k1.2 k2.2); [auto|]. right. apply Z.leb_le. lia.
Qed.

Lemma le_str_date_trans (k1 k2 k3 : string * Z) :
  le_str_date k1 k2 = true → le_str_date k2 k3 = true → le_str_date k1 k3 = true.
Proof.
  unfold le_str_date.
  destruct (String.compare k1.1 k2.1) eqn:E12; [| |done];
    destruct (String.compare k2.1 k3.1) eqn:E23; try done.
  - apply string_compare_eq in E12. rewrite E12, E23.
    rewrite !Z.leb_le. lia.
  - apply string_compare_eq in E12. by rewrite E12, E23.
  - apply string_compare_eq in E23. by rewrite <-E23, E12.
  - by rewrite (string_compare_lt_trans _ _ _ E12 E23).
Qed.

Lemma le_str_date_same (t : string) (d1 d2 : Z) :
  le_str_date (t, d1) (t, d2) = (d1 <=? d2).
Proof. unfold le_str_date. simpl. by rewrite string_compare_refl. Qed.

Lemma le_date_str_total (k1 k2 : Z * string) :
  le_date_str k1 k2 = true ∨ le_date_str k2 k1 = true.
Proof.
  unfold le_date_str. rewrite (Z.compare_antisym k1.1 k2.1).
  destruct (k1.1 ?= k2.1); simpl; auto. apply String.leb_total.
Qed.

Lemma le_date_str_trans (k1 k2 k3 : Z * string) :
  le_date_str k1 k2 = true → le_date_str k2 k3 = true → le_date_str k1 k3 = true.
Proof.
  unfold le_date_str.
  destruct (k1.1 ?= k2.1) eqn:E12; [| |done];
    destruct (k2.1 ?= k3.1) eqn:E23; try done.
  - apply Z.compare_eq in E12. rewrite E12, E23. apply string_leb_trans.
  - apply Z.compare_eq in E12. by rewrite E12, E23.
  - apply Z.compare_eq in E23. by rewrite <-E23, E12.
  - assert ((k1.1 ?= k3.1) = Lt) as ->; [|done].
    rewrite Z.compare_lt_iff in *. lia.
Qed.

(** ** Column arithmetic *)

Lemma length_ffill_from (prev : fl) (xs : list fl) :
  length (ffill_from prev xs) = length xs.
Proof. revert prev. induction xs; intros; simpl; auto. Qed.

Lemma length_shift1 (xs : list fl) : length (shift1 xs) = length xs.
Proof. unfold shift1. rewrite length_take. simpl. lia. Qed.

Lemma length_pct_change (xs : list fl) : length (pct_change xs) = length xs.
Proof.
  unfold pct_change, ffill. rewrite length_zip_with, length_shift1.
  rewrite length_ffill_from. lia.
Qed.

Lemma length_rolling_std (w minp : nat) (xs : list fl) :
  length (rolling_std w minp xs) = length xs.
Proof. unfold rolling_std. by rewrite length_imap. Qed.

(** ** The per-ticker view of the stock metrics *)

Lemma le_ticker_date_total (r1 r2 : stock_row) :
  le_ticker_date r1 r2 = true ∨ le_ticker_date r2 r1 = true.
Proof. apply le_str_date_total. Qed.

Lemma le_ticker_date_trans (r1 r2 r3 : stock_row) :
  le_ticker_date r1 r2 = true → le_ticker_date r2 r3 = true →
  le_ticker_date r1 r3 = true.
Proof. apply le_str_date_trans. Qed.

Section ticker_groups.
Context (labels : stock_row → bool) (t : string) (stock_data : list stock_row).

(** The rows of ticker [t] as the metrics see them: those that carry their
    labels, in date order. *)
Let g : list stock_row :=
  sort_values le_ticker_date
    (filter (λ r, labels r = true) (get_group ticker t stock_data)).
Let l : list stock_row :=
  sort_values le_ticker_date (filter (λ r, labels r = true) stock_data).
Let mask : list bool := map (λ r, bool_decide (ticker r = t)) l.
Let returns : list fl := transform ticker (λ g, pct_change (map close g)) NaN l.

Lemma select_ticker_rows : select mask l = g.
Proof.
  unfold mask, l, g. rewrite <-filter_select.
  rewrite (filter_sort_values _ le_ticker_date_total le_ticker_date_trans).
  f_equal. unfold get_group. rewrite !list_filter_filter.
  apply list_filter_iff. intros r. tauto.
Qed.

Lemma select_ticker_returns : select mask returns = pct_change (map close g).
Proof.
  unfold mask, returns. rewrite select_transform.
  - unfold get_group. rewrite filter_select. fold mask.
    by rewrite select_ticker_rows.
  - by rewrite length_pct_change, length_map.
Qed.

Lemma select_ticker_volatility :
  select mask
    (transform (λ p : stock_row * fl, ticker p.1)
       (λ g, rolling_std 7 1 (map snd g)) RootNaN (zip l returns))
  = rolling_std 7 1 (pct_change (map close g)).
Proof.
  assert (length returns = length l) as Hlen by apply length_transform.
  assert (map (λ p : stock_row * fl, bool_decide (ticker p.1 = t)) (zip l returns)
          = mask) as Hmask.
  { unfold mask. rewrite <-(fst_zip l returns) at 2 by lia.
    by rewrite <-list_fmap_compose. }
  assert (get_group (λ p : stock_row * fl, ticker p.1) t (zip l returns)
          = zip g (pct_change (map close g))) as Hgroup.
  { unfold get_group. rewrite filter_select, Hmask, select_zip.
    by rewrite select_ticker_rows, select_ticker_returns. }
  rewrite <-Hmask, select_transform; rewrite Hgroup.
  - by rewrite snd_zip by (rewrite length_pct_change, length_map; lia).
  - rewrite length_rolling_std, length_map. done.
Qed.
End ticker_groups.

(** * etl/create_ultimate_dataset.py: the stock metrics *)

Section ultimate_metrics.
Import Ultimate.

Lemma zip_with_fst_zip {X Y Z' W : Type} (h : X → Y → W) (xs : list X)
    (ys : list Y) (zs : list Z') :
  length ys = length zs →
  zip_with (λ x (p : Y * Z'), h x p.1) xs (zip ys zs) = zip_with h xs ys.
Proof.
  revert ys zs. induction xs as [|x xs IH]; intros [|y ys] [|z zs] ?;
    simplify_eq/=; try done.
  f_equal. auto.
Qed.

Lemma map_zip_with' {X Y W V : Type} (h : W → V) (f : X → Y → W)
    (xs : list X) (ys : list Y) :
  map h (zip_with f xs ys) = zip_with (λ x y, h (f x y)) xs ys.
Proof.
  revert ys. induction xs as [|x xs IH]; intros [|y ys]; simpl; try done.
  by rewrite IH.
Qed.

Lemma zip_with_ext' {X Y W : Type} (f f' : X → Y → W) (xs : list X) (ys : list Y) :
  (∀ x y, f x y = f' x y) → zip_with f xs ys = zip_with f' xs ys.
Proof.
  intros Hf. revert ys. induction xs as [|x xs IH]; intros [|y ys]; simpl; try done.
  by rewrite IH, Hf.
Qed.

(** The frame [prepare_stock_data_with_metrics] returns, column by column. *)
Lemma prepare_stock_columns (stock_data : list stock_row) :
  let l := sort_values le_ticker_date
             (filter (λ r, has_labels r = true) stock_data) in
  let returns := transform ticker (λ g, pct_change (map close g)) NaN l in
  let volatility :=
    transform (λ p : stock_row * fl, ticker p.1)
      (λ g, rolling_std 7 1 (map snd g)) RootNaN (zip l returns) in
  map (λ m, (stock m, Return m, Volatility_7 m))
    (prepare_stock_data_with_metrics stock_data)
  = zip (zip l returns) volatility.
Proof.
  intros l returns volatility. unfold prepare_stock_data_with_metrics.
  fold l. fold returns. fold volatility.
  rewrite map_zip_with'.
  rewrite (zip_with_ext' _ (λ (p : stock_row * fl) (q : root * nat), (p, q.1)))
    by (by intros [??] [??]).
  rewrite (zip_with_fst_zip pair).
  - done.
  - unfold volatility, returns. rewrite !length_transform.
    rewrite length_zip_with, length_transform. lia.
Qed.
End ultimate_metrics.

Section ultimate_groups.
Import Ultimate.

Lemma map_filter_comm {X Y : Type} (f : X → Y) (P : Y → Prop)
    `{∀ y, Decision (P y)} (l : list X) :
  map f (filter (λ x, P (f x)) l) = filter P (map f l).
Proof.
  induction l as [|x l IH]; [done|].
  simpl map. rewrite !filter_cons. destruct (decide (P (f x))); simpl; by rewrite IH.
Qed.

(** The rows of one ticker in the prepared frame, with their return and
    volatility: they are computed from the rows of that ticker alone. *)
Lemma prepare_stock_group (stock_data : list stock_row) (t : string) :
  let g := sort_values le_ticker_date
             (filter (λ r, has_labels r = true) (get_group ticker t stock_data)) in
  let returns := pct_change (map close g) in
  map (λ m, (stock m, Return m, Volatility_7 m))
    (get_group (λ m, ticker (stock m)) t
       (prepare_stock_data_with_metrics stock_data))
  = zip (zip g returns) (rolling_std 7 1 returns).
Proof.
  intros g returns. unfold get_group.
  pose proof (map_filter_comm (λ m, (stock m, Return m, Volatility_7 m))
                (λ p, ticker p.1.1 = t)
                (prepare_stock_data_with_metrics stock_data)) as Hcomm.
  simpl in Hcomm. rewrite Hcomm. clear Hcomm.
  rewrite prepare_stock_columns.
  set (l := sort_values le_ticker_date (filter (λ r, has_labels r = true) stock_data)).
  set (rs := transform ticker (λ g, pct_change (map close g)) NaN l).
  set (vs := transform _ _ _ (zip l rs)).
  assert (length rs = length l) as Hrs by apply length_transform.
  assert (length vs = length l) as Hvs.
  { unfold vs. rewrite length_transform, length_zip_with. lia. }
  rewrite filter_select.
  assert (map (λ p : stock_row * fl * root, bool_decide (ticker p.1.1 = t))
            (zip (zip l rs) vs)
          = map (λ r, bool_decide (ticker r = t)) l) as ->.
  { rewrite <-(fst_zip l rs) at 2 by lia.
    rewrite <-(fst_zip (zip l rs) vs) at 2 by (rewrite length_zip_with; lia).
    by rewrite <-!list_fmap_compose. }
  rewrite !select_zip.
  unfold l, rs, vs.
  rewrite select_ticker_rows, select_ticker_returns, select_ticker_volatility.
  done.
Qed.
End ultimate_groups.

(** ** Returns and volatility of a group with numeric, nonzero prices *)

Lemma ffill_from_priced (prev : fl) (xs : list fl) :
  Forall priced xs → ffill_from prev xs = xs.
Proof.
  intros H. revert prev. induction H as [|x xs (q & -> & _) _ IH]; intros prev;
    simpl; [done|]. by rewrite IH.
Qed.

Lemma zip_with_take_r {X Y W : Type} (f : X → Y → W) (xs : list X) (ys : list Y) :
  zip_with f xs (take (length xs) ys) = zip_with f xs ys.
Proof.
  revert ys. induction xs as [|x xs IH]; intros [|y ys]; simpl; try done.
  by rewrite IH.
Qed.

Lemma pct_change_priced_tail (xs ys : list fl) :
  Forall priced xs → Forall priced ys →
  ∃ qs, zip_with (λ a b, fsub (fdiv a b) (Num 1%Qc)) xs ys = map Num qs.
Proof.
  intros Hxs. revert ys. induction Hxs as [|x xs (a & -> & _) _ IH];
    intros ys Hys.
  - by exists [].
  - destruct Hys as [|y ys (b & -> & Hb) Hys]; [by exists []|].
    destruct (IH ys Hys) as [qs Hqs]. simpl. rewrite Hqs.
    rewrite decide_False by done.
    by eexists (_ :: qs).
Qed.

Lemma pct_change_priced (x : fl) (xs : list fl) :
  Forall priced (x :: xs) →
  ∃ qs, pct_change (x :: xs) = NaN :: map Num qs ∧ length qs = length xs.
Proof.
  intros H. unfold pct_change, ffill, shift1.
  rewrite ffill_from_priced by done. rewrite zip_with_take_r.
  inversion H as [|? ? (a & -> & _) Hxs]; subst. simpl.
  destruct (pct_change_priced_tail xs (Num a :: xs)) as [qs Hqs]; [done..|].
  exists qs. rewrite Hqs. split; [done|].
  apply (f_equal length) in Hqs.
  rewrite length_zip_with, length_map in Hqs. simpl in Hqs. lia.
Qed.

Lemma observations_Num (qs : list Qc) : observations (map Num qs) = qs.
Proof. unfold observations. induction qs; simpl; [done|]. by f_equal. Qed.

Lemma length_observations_window (qs : list Qc) (k : nat) :
  (k ≤ length qs)%nat →
  length (observations (window 7 k (NaN :: map Num qs))) = (k `min` 7)%nat.
Proof.
  intros Hk. unfold window. rewrite firstn_cons.
  destruct (decide (k ≤ 6)%nat) as [Hle|Hgt].
  - replace (S k - 7)%nat with 0%nat by lia. rewrite drop_0.
    unfold observations. simpl. fold (observations (take k (map Num qs))).
    rewrite <-fmap_take, observations_Num, length_take. lia.
  - replace (S k - 7)%nat with (S (k - 7)) by lia. simpl.
    rewrite <-fmap_take, <-fmap_drop, observations_Num.
    rewrite length_drop, length_take. lia.
Qed.

(** With such prices the volatility is missing on the first two rows of the
    group, and on no other. *)
Lemma rolling_std_priced (qs : list Qc) (k : nat) (v : root) :
  rolling_std 7 1 (NaN :: map Num qs) !! k = Some v →
  v = RootNaN ↔ (k < 2)%nat.
Proof.
  unfold rolling_std. rewrite list_lookup_imap.
  destruct ((NaN :: map Num qs) !! k) as [x|] eqn:Hx; [|done].
  apply lookup_lt_Some in Hx. simpl in Hx. rewrite length_map in Hx.
  simpl. intros [= <-].
  rewrite length_observations_window by lia.
  destruct (decide (k < 2)%nat).
  - rewrite (bool_decide_false (1 < _)%nat) by lia.
    rewrite andb_false_r. done.
  - rewrite !bool_decide_true by lia. simpl. split; [done|lia].
Qed.

(** * src/etl/create_final_dataset.py: the per-stock metrics *)

Section final_metrics.
Import Final.

Lemma stock_metrics_columns (stock_data : list stock_row) :
  let l := sort_values le_ticker_date
             (filter (λ r, has_labels r = true) stock_data) in
  map (λ p, (stock p, daily_return p)) (stock_metrics stock_data)
  = zip l (transform ticker (λ g, pct_change (map close g)) NaN l).
Proof.
  intros l. unfold stock_metrics. fold l.
  by rewrite map_zip_with'.
Qed.

Lemma stock_metrics_group (stock_data : list stock_row) (t : string) :
  let g := sort_values le_ticker_date
             (filter (λ r, has_labels r = true) (get_group ticker t stock_data)) in
  map (λ p, (stock p, daily_return p))
    (get_group (λ p, ticker (stock p)) t (stock_metrics stock_data))
  = zip g (pct_change (map close g)).
Proof.
  intros g. unfold get_group.
  pose proof (map_filter_comm (λ p, (stock p, daily_return p))
                (λ p, ticker p.1 = t) (stock_metrics stock_data)) as Hcomm.
  simpl in Hcomm. rewrite Hcomm. clear Hcomm.
  rewrite stock_metrics_columns.
  set (l := sort_values le_ticker_date (filter (λ r, has_labels r = true) stock_data)).
  set (rs := transform ticker (λ g, pct_change (map close g)) NaN l).
  assert (length rs = length l) as Hrs by apply length_transform.
  rewrite filter_select.
  assert (map (λ p : stock_row * fl, bool_decide (ticker p.1 = t)) (zip l rs)
          = map (λ r, bool_decide (ticker r = t)) l) as ->.
  { rewrite <-(fst_zip l rs) at 2 by lia. by rewrite <-list_fmap_compose. }
  rewrite select_zip. unfold l, rs.
  by rewrite select_ticker_rows, select_ticker_returns.
Qed.
End final_metrics.

(** * The stock metrics *)

Section stock_metric_claims.
Import Ultimate.

Lemma zip_with_regroup {X Y Z' W V : Type} (G : X * Y → Z' * W → V)
    (xs : list X) (ys : list Y) (zs : list Z') (ws : list W) :
  zip_with G (zip xs ys) (zip zs ws)
  = zip_with (λ (p : X * Y * Z') w, G p.1 (p.2, w)) (zip (zip xs ys) zs) ws.
Proof.
  revert ys zs ws. induction xs as [|x xs IH]; intros [|y ys] [|z zs] [|w ws];
    simpl; try done.
  by rewrite IH.
Qed.

Lemma volatility_column_of_group (stock_data : list stock_row) (t : string) :
  let g := sort_values le_ticker_date
             (filter (λ r, has_labels r = true) (get_group ticker t stock_data)) in
  map Volatility_7
    (get_group (λ m, ticker (stock m)) t
       (prepare_stock_data_with_metrics stock_data))
  = rolling_std 7 1 (pct_change (map close g)).
Proof.
  intros g.
  pose proof (prepare_stock_group stock_data t) as H. simpl in H. fold g in H.
  apply (f_equal (map snd)) in H.
  rewrite <-list_fmap_compose in H. simpl in H.
  rewrite snd_zip in H; [done|].
  rewrite length_rolling_std, length_zip_with, length_pct_change, length_map. lia.
Qed.

Lemma priced_in_range_priced (x : fl) : priced_in_range x → priced x.
Proof.
  intros (q & -> & Hlo & _). exists q. split; [done|]. intros ->.
  apply Hlo. reflexivity.
Qed.

(** C2, as amended: for every stock table and every ticker whose close prices
    are numeric and lie between a millionth and a million million (so that
    no return divides by zero and nothing overflows in float64), the 7-day
    rolling volatility of [prepare_stock_data_with_metrics] is missing on
    fewer than 7 leading rows of the ticker's group and numeric on all later
    rows. *)
Theorem volatility_7_nan_on_leading_rows (stock_data : list stock_row) (t : string) :
  (∀ r, r ∈ stock_data → ticker r = t → priced_in_range (close r)) →
  nan_on_leading_rows_only
    (map Volatility_7
       (get_group (λ m, ticker (stock m)) t
          (prepare_stock_data_with_metrics stock_data))).
Proof.
  intros Hpriced. exists 2%nat. split; [lia|].
  rewrite volatility_column_of_group.
  set (g := sort_values _ _).
  assert (Forall priced (map close g)) as Hg.
  { apply Forall_fmap, Forall_forall. intros r Hr. simpl.
    apply elem_of_sort_values, list_elem_of_filter in Hr as [_ Hr].
    apply list_elem_of_filter in Hr as [Ht Hr].
    by apply priced_in_range_priced, Hpriced. }
  destruct (map close g) as [|x xs]; [done|].
  destruct (pct_change_priced x xs Hg) as (qs & -> & _).
  apply rolling_std_priced.
Qed.

(** C4: the per-ticker metrics are computed independently per ticker.  Two
    stock tables that agree on the rows of ticker [t] give the same rows of
    [t], with the same daily return and volatility, in the frame of
    [prepare_stock_data_with_metrics], and the same rows and daily returns in
    the per-stock frame of [prepare_stock_data]. *)
Theorem metrics_independent_per_ticker (s1 s2 : list stock_row) (t : string) :
  get_group ticker t s1 = get_group ticker t s2 →
  map (λ m, (stock m, Return m, Volatility_7 m))
    (get_group (λ m, ticker (stock m)) t (prepare_stock_data_with_metrics s1))
  = map (λ m, (stock m, Return m, Volatility_7 m))
      (get_group (λ m, ticker (stock m)) t (prepare_stock_data_with_metrics s2))
  ∧ map (λ p, (Final.stock p, Final.daily_return p))
      (get_group (λ p, ticker (Final.stock p)) t (Final.stock_metrics s1))
    = map (λ p, (Final.stock p, Final.daily_return p))
        (get_group (λ p, ticker (Final.stock p)) t (Final.stock_metrics s2)).
Proof.
  intros Hagree. split.
  - rewrite !prepare_stock_group. simpl. by rewrite Hagree.
  - rewrite !stock_metrics_group. simpl. by rewrite Hagree.
Qed.
End stock_metric_claims.

Section stock_metric_witnesses.
Import Ultimate.

Lemma Qc_of_nonzero (n : Z) : n ≠ 0 → Qc_of n ≠ 0%Qc.
Proof.
  intros Hn H. unfold Qc_of in H. apply Q2Qc_eq_iff in H.
  unfold Qeq in H. simpl in H. lia.
Qed.

Lemma volatility_7_nan_on_leading_rows_witness :
  (∀ r, r ∈ stock_table_1 → ticker r = "AAA"%string
        → priced_in_range (close r))
  ∧ nan_on_leading_rows_only
      (map Volatility_7
         (get_group (λ m, ticker (stock m)) "AAA"%string
            (prepare_stock_data_with_metrics stock_table_1))).
Proof.
  assert (∀ r, r ∈ stock_table_1 → ticker r = "AAA"%string
               → priced_in_range (close r)) as H.
  { intros r Hr Ht. unfold stock_table_1, aaa_rows in Hr. simpl in Hr.
    repeat (apply elem_of_cons in Hr as [->|Hr]); try discriminate Ht;
      try (eexists; split; [reflexivity|split; intros Hc; discriminate Hc]).
    by apply elem_of_nil in Hr. }
  split; [exact H|].
  exact (volatility_7_nan_on_leading_rows stock_table_1 "AAA" H).
Defined.

(** C2 as stated fails: on a stock whose (numeric) close is zero on eight days
    the volatility is missing on all eight rows. *)
Lemma volatility_7_zero_prices_counterexample :
  Forall (λ r, ∃ q, close r = Num q) zero_priced_stock
  ∧ ¬ nan_on_leading_rows_only
        (map Volatility_7
           (get_group (λ m, ticker (stock m)) "AAA"%string
              (prepare_stock_data_with_metrics zero_priced_stock))).
Proof.
  split.
  { unfold zero_priced_stock. simpl. repeat constructor; by eexists. }
  assert (map Volatility_7
            (get_group (λ m, ticker (stock m)) "AAA"%string
               (prepare_stock_data_with_metrics zero_priced_stock))
          = replicate 8 RootNaN) as -> by (vm_compute; reflexivity).
  intros (n & Hn & H).
  specialize (H 7%nat RootNaN eq_refl). destruct H as [H _].
  specialize (H eq_refl). lia.
Qed.

Lemma metrics_independent_per_ticker_witness :
  get_group ticker "AAA"%string stock_table_1
  = get_group ticker "AAA"%string stock_table_2
  ∧ map (λ m, (stock m, Return m, Volatility_7 m))
      (get_group (λ m, ticker (stock m)) "AAA"%string
         (prepare_stock_data_with_metrics stock_table_1))
    = map (λ m, (stock m, Return m, Volatility_7 m))
        (get_group (λ m, ticker (stock m)) "AAA"%string
           (prepare_stock_data_with_metrics stock_table_2))
  ∧ map (λ p, (Final.stock p, Final.daily_return p))
      (get_group (λ p, ticker (Final.stock p)) "AAA"%string
         (Final.stock_metrics stock_table_1))
    = map (λ p, (Final.stock p, Final.daily_return p))
        (get_group (λ p, ticker (Final.stock p)) "AAA"%string
           (Final.stock_metrics stock_table_2)).
Proof.
  assert (get_group ticker "AAA"%string stock_table_1
          = get_group ticker "AAA"%string stock_table_2) as H
    by (vm_compute; reflexivity).
  split; [exact H|].
  exact (metrics_independent_per_ticker stock_table_1 stock_table_2 "AAA" H).
Defined.
End stock_metric_witnesses.

Section fixture.
Import Ultimate.

(** The frame [prepare_stock_data_with_metrics] returns, row by row. *)
Lemma prepare_stock_rows (stock_data : list stock_row) :
  let l := sort_values le_ticker_date
             (filter (λ r, has_labels r = true) stock_data) in
  let returns := transform ticker (λ g, pct_change (map close g)) NaN l in
  let volatility :=
    transform (λ p : stock_row * fl, ticker p.1)
      (λ g, rolling_std 7 1 (map snd g)) RootNaN (zip l returns) in
  let counts :=
    transform date (λ g, replicate (length g) (length g)) 0%nat l in
  prepare_stock_data_with_metrics stock_data
  = zip_with (λ (p : stock_row * fl * root) n,
        {| stock := p.1.1;
           Return := p.1.2;
           price_range := fsub (high p.1.1) (low p.1.1);
           price_change := fsub (close p.1.1) (open p.1.1);
           price_change_pct :=
             fmul (fdiv (fsub (close p.1.1) (open p.1.1)) (open p.1.1))
               (Num (Qc_of 100));
           Volatility_7 := p.2;
           num_stocks := n |})
      (zip (zip l returns) volatility) counts.
Proof.
  intros l returns volatility counts. unfold prepare_stock_data_with_metrics.
  fold l. fold returns. fold volatility. fold counts.
  rewrite zip_with_regroup. apply zip_with_ext'. by intros [[??]?] ?.
Qed.

End fixture.

(** * The price metrics of the fixture, in binary64 *)

Section fixture_binary64.
Import PrimFloat.

Lemma fixture64_sorted (d : Z) (la1 la2 la3 : string * string * string)
    (o1 h1 l1 v1 o2 h2 l2 v2 o3 h3 l3 v3 : float) :
  let rows := [fixture_row64 d 10 la1 o1 h1 l1 v1;
               fixture_row64 (d + 1) 12 la2 o2 h2 l2 v2;
               fixture_row64 (d + 2) 9 la3 o3 h3 l3 v3] in
  sort_values Float64.le_ticker_date
    (filter (λ r, Float64.has_labels r = true) rows) = rows.
Proof.
  intros rows.
  assert (filter (λ r, Float64.has_labels r = true) rows = rows) as ->
    by reflexivity.
  apply sort_values_id.
  repeat constructor;
    cbv beta; unfold Float64.le_ticker_date, fixture_row64;
    cbn [Float64.ticker Float64.date];
    rewrite le_str_date_same; apply Z.leb_le; lia.
Qed.

(** C5, as amended: on the three-row fixture (ticker AAA, closes 10, 12, 9 on
    three consecutive dates, all labels present) the rows come out in date
    order and the daily returns are NaN, 0.19999999999999996 and -0.25: the
    second is [12 / 10 - 1] as float64 computes it, one unit in the last
    place ([2^-54]) below the float [0.2].  On every row [price_range] is
    the float64 difference [high - low] and [price_change_pct] is
    [(close - open) / open * 100] in float64, whatever the other columns
    hold. *)
Theorem fixture_daily_return
    (rolling_std : nat → nat → list float → list float) (d : Z)
    (la1 la2 la3 : string * string * string)
    (o1 h1 l1 v1 o2 h2 l2 v2 o3 h3 l3 v3 : float) :
  let r1 := fixture_row64 d 10 la1 o1 h1 l1 v1 in
  let r2 := fixture_row64 (d + 1) 12 la2 o2 h2 l2 v2 in
  let r3 := fixture_row64 (d + 2) 9 la3 o3 h3 l3 v3 in
  let out := Float64.prepare_stock_data_with_metrics rolling_std [r1; r2; r3] in
  map Float64.stock out = [r1; r2; r3]
  ∧ map Float64.Return out = [nan; 0x1.9999999999998p-3; -0.25]%float
  ∧ (one_fifth - 0x1.9999999999998p-3 = 0x1p-54)%float
  ∧ map Float64.price_range out = [h1 - l1; h2 - l2; h3 - l3]%float
  ∧ map Float64.price_change_pct out
    = [(10 - o1) / o1 * 100; (12 - o2) / o2 * 100; (9 - o3) / o3 * 100]%float.
Proof.
  intros r1 r2 r3 out. unfold out, Float64.prepare_stock_data_with_metrics.
  unfold r1, r2, r3. rewrite fixture64_sorted. fold r1. fold r2. fold r3.
  assert (transform Float64.ticker
            (λ g, Float64.pct_change (map Float64.close g)) nan [r1; r2; r3]
          = [nan; 0x1.9999999999998p-3; -0.25]%float) as ->
    by reflexivity.
  split; [reflexivity|]. split; [reflexivity|]. split; [reflexivity|].
  split; reflexivity.
Qed.

Lemma fixture_daily_return_witness :
  let out :=
    Float64.prepare_stock_data_with_metrics no_rolling_std fixture64 in
  map Float64.Return out = [nan; 0x1.9999999999998p-3; -0.25]%float
  ∧ map Float64.price_range out = [2; 2; 5]%float
  ∧ map Float64.price_change_pct out
    = [0x1.638e38e38e38ep+3; 20; -25]%float.
Proof.
  intros out.
  destruct (fixture_daily_return no_rolling_std 0
              ("A Corp", "Tech", "Software")%string
              ("A Corp", "Tech", "Software")%string
              ("A Corp", "Tech", "Software")%string
              9 11 9 500 10 12 10 600 12 13 8 700)%float
    as (_ & Hret & _ & Hrange & Hpct).
  split; [exact Hret|]. split.
  - etrans; [exact Hrange|]. vm_compute. reflexivity.
  - etrans; [exact Hpct|]. vm_compute. reflexivity.
Defined.

(** C5 as stated fails in float64: the second daily return of the fixture is
    not the float [0.2]; it is smaller. *)
Lemma fixture_return_below_one_fifth :
  ∃ x,
    map Float64.Return
      (Float64.prepare_stock_data_with_metrics no_rolling_std fixture64)
    !! 1%nat = Some x
    ∧ (x =? one_fifth)%float = false
    ∧ (x <? one_fifth)%float = true.
Proof.
  eexists. split; [vm_compute; reflexivity|].
  split; vm_compute; reflexivity.
Qed.

End fixture_binary64.

(** ** [merge] *)

Lemma nunique_mono {K : Type} `{EqDecision K} (l1 l2 : list K) :
  (∀ x, x ∈ l1 → x ∈ l2) → (nunique l1 ≤ nunique l2)%nat.
Proof.
  intros Hsub. unfold nunique. apply submseteq_length, NoDup_submseteq.
  - apply NoDup_remove_dups.
  - intros x. rewrite !elem_of_remove_dups. apply Hsub.
Qed.

Lemma nunique_NoDup {K : Type} `{EqDecision K} (l : list K) :
  NoDup l → nunique l = length l.
Proof.
  intros H. unfold nunique. apply Permutation_length, NoDup_Permutation.
  - apply NoDup_remove_dups.
  - done.
  - intros x. apply elem_of_remove_dups.
Qed.

Section merge_facts.
Context {A B K : Type} `{EqDecision K} (kl : A → K) (kr : B → K).

Lemma elem_of_merge_inner (p : A * B) (l : list A) (r : list B) :
  p ∈ merge_inner kl kr l r ↔ p.1 ∈ l ∧ p.2 ∈ r ∧ kr p.2 = kl p.1.
Proof.
  unfold merge_inner. rewrite list_elem_of_In, in_flat_map. split.
  - intros (a & Ha & Hp). apply list_elem_of_In, list_elem_of_fmap in Hp
      as (b & -> & Hb). apply list_elem_of_filter in Hb as [? ?].
    by apply list_elem_of_In in Ha.
  - destruct p as [a b]. simpl. intros (Ha & Hb & Hk). exists a.
    split; [by apply list_elem_of_In|].
    apply list_elem_of_In, list_elem_of_fmap. exists b. split; [done|].
    by apply list_elem_of_filter.
Qed.

(** Every key of the merged frame is a key of both frames. *)
Lemma merge_inner_keys (l : list A) (r : list B) (k : K) :
  k ∈ map (λ p, kl p.1) (merge_inner kl kr l r) →
  k ∈ map kl l ∧ k ∈ map kr r.
Proof.
  intros (p & -> & Hp)%list_elem_of_fmap.
  apply elem_of_merge_inner in Hp as (Ha & Hb & Hk). split.
  - apply list_elem_of_fmap. eauto.
  - rewrite <-Hk. apply list_elem_of_fmap. eauto.
Qed.

Lemma merge_inner_nunique (l : list A) (r : list B) :
  (nunique (map (λ p, kl p.1) (merge_inner kl kr l r))
   ≤ nunique (map kl l) `min` nunique (map kr r))%nat.
Proof.
  apply Nat.min_glb; apply nunique_mono; intros k Hk;
    by apply merge_inner_keys in Hk as [? ?].
Qed.

(** A key that occurs once selects at most one row. *)
Lemma filter_key_NoDup (r : list B) (k : K) :
  NoDup (map kr r) → (length (filter (λ b, kr b = k) r) ≤ 1)%nat.
Proof.
  induction r as [|b r IH]; simpl; [lia|].
  intros [Hb Hr]%NoDup_cons. rewrite filter_cons.
  destruct (decide (kr b = k)) as [<-|]; [|auto].
  assert (filter (λ b0, kr b0 = kr b) r = []) as ->; [|simpl; lia].
  apply elem_of_nil_inv. intros b' [Hb' Hin]%list_elem_of_filter.
  apply Hb. rewrite <-Hb'. apply list_elem_of_fmap. eauto.
Qed.

(** When the keys of the right frame are unique, the left rows of the merged
    frame are rows of the left frame, each at most once and in order. *)
Lemma merge_inner_sublist (l : list A) (r : list B) :
  NoDup (map kr r) → map fst (merge_inner kl kr l r) `sublist_of` l.
Proof.
  intros Hr. unfold merge_inner.
  induction l as [|a l IH]; [done|].
  cbn [flat_map]. rewrite map_app, map_map. simpl.
  pose proof (filter_key_NoDup r (kl a) Hr) as Hlen.
  destruct (filter (λ b, kr b = kl a) r) as [|b [|b' bs]]; simpl in *.
  - by apply sublist_cons.
  - by apply sublist_skip.
  - lia.
Qed.

Lemma merge_left_fst (l : list A) (r : list B) :
  NoDup (map kr r) → map fst (merge_left kl kr l r) = l.
Proof.
  intros Hr. unfold merge_left.
  induction l as [|a l IH]; [done|].
  cbn [flat_map]. rewrite map_app, IH.
  pose proof (filter_key_NoDup r (kl a) Hr) as Hlen.
  destruct (filter (λ b, kr b = kl a) r) as [|b [|b' bs]]; simpl in *; [done..|lia].
Qed.
End merge_facts.

(** * Claims on the merged frames *)

Section merged_frames.
Import Ultimate.

Lemma create_ultimate_keys (stock_data : list metrics_row)
    (analysis_data : list analysis_clean_row) :
  map (λ u, (u_date u, u_ticker u)) (create_ultimate_dataset stock_data analysis_data)
  ≡ₚ map (λ p : metrics_row * analysis_clean_row,
            (date (stock p.1), ticker (stock p.1)))
       (merge_inner (λ m, date (stock m)) c_date stock_data analysis_data).
Proof.
  unfold create_ultimate_dataset. rewrite map_map.
  rewrite (map_ext _ (λ p : metrics_row * analysis_clean_row,
                        (date (stock p.1), ticker (stock p.1))))
    by (by intros [??]).
  apply Permutation_map, sort_values_perm.
Qed.

Lemma create_ultimate_dates (stock_data : list metrics_row)
    (analysis_data : list analysis_clean_row) :
  map u_date (create_ultimate_dataset stock_data analysis_data)
  ≡ₚ map (λ p : metrics_row * analysis_clean_row, date (stock p.1))
       (merge_inner (λ m, date (stock m)) c_date stock_data analysis_data).
Proof.
  pose proof (create_ultimate_keys stock_data analysis_data) as H.
  apply (Permutation_map fst) in H. by rewrite !map_map in H.
Qed.

Lemma merge_with_analysis_dates (daily_rows : list Final.daily_row)
    (analysis_data : list analysis_row) :
  map (λ r, Final.d_date (Final.daily r))
    (Final.merge_with_analysis daily_rows analysis_data)
  = map (λ p : Final.daily_row * analysis_row, Final.d_date p.1)
      (merge_inner Final.d_date a_date daily_rows analysis_data).
Proof.
  unfold Final.merge_with_analysis. rewrite map_map.
  apply map_ext. by intros [??].
Qed.

(** With unique keys on both sides the merged frame has one row per key. *)
Lemma merge_inner_length_NoDup {A B K : Type} `{EqDecision K}
    (kl : A → K) (kr : B → K) (l : list A) (r : list B) :
  NoDup (map kl l) → NoDup (map kr r) →
  (length (merge_inner kl kr l r) ≤ smaller_key_domain kl kr l r)%nat.
Proof.
  intros Hl Hr.
  assert (NoDup (map (λ p : A * B, kl p.1) (merge_inner kl kr l r))) as Hm.
  { rewrite <-(map_map fst kl). apply (sublist_NoDup _ (map kl l)); [exact Hl|].
    apply (fmap_sublist kl). by apply merge_inner_sublist. }
  rewrite <-(length_map (λ p : A * B, kl p.1)), <-nunique_NoDup by done.
  apply merge_inner_nunique.
Qed.

(** C1, as amended: in each of the three inner joins on the date key (the
    ultimate data set, the sector frame and the industry frame) the number of
    distinct dates of the merged table never exceeds the smaller of the two
    key domains; the row count itself obeys that bound when each of the two
    tables has at most one row per date. *)
Theorem merged_dates_bounded_by_key_domains
    (stock_data : list metrics_row) (analysis_clean : list analysis_clean_row)
    (sector_daily industry_daily : list Final.daily_row)
    (analysis_data : list analysis_row) :
  let ultimate := create_ultimate_dataset stock_data analysis_clean in
  let finals :=
    Final.create_final_datasets sector_daily industry_daily analysis_data in
  let stock_date (m : metrics_row) := date (stock m) in
  let final_date (r : Final.final_row) := Final.d_date (Final.daily r) in
  ((nunique (map u_date ultimate)
    ≤ smaller_key_domain stock_date c_date stock_data analysis_clean)%nat
   ∧ (nunique (map final_date finals.1)
      ≤ smaller_key_domain Final.d_date a_date sector_daily analysis_data)%nat
   ∧ (nunique (map final_date finals.2)
      ≤ smaller_key_domain Final.d_date a_date industry_daily analysis_data)%nat)
  ∧ (NoDup (map stock_date stock_data) → NoDup (map c_date analysis_clean) →
     (length ultimate
      ≤ smaller_key_domain stock_date c_date stock_data analysis_clean)%nat)
  ∧ (NoDup (map a_date analysis_data) →
     (NoDup (map Final.d_date sector_daily) →
      (length finals.1
       ≤ smaller_key_domain Final.d_date a_date sector_daily analysis_data)%nat)
     ∧ (NoDup (map Final.d_date industry_daily) →
        (length finals.2
         ≤ smaller_key_domain Final.d_date a_date industry_daily analysis_data)%nat)).
Proof.
  intros ultimate finals stock_date final_date.
  split; [split; [|split]|split].
  - etrans; [|apply merge_inner_nunique].
    apply nunique_mono. intros x. unfold ultimate.
    by rewrite create_ultimate_dates.
  - unfold finals, final_date. simpl. rewrite merge_with_analysis_dates.
    apply merge_inner_nunique.
  - unfold finals, final_date. simpl. rewrite merge_with_analysis_dates.
    apply merge_inner_nunique.
  - intros Hl Hr.
    rewrite <-(length_map (λ u, (u_date u, u_ticker u))).
    unfold ultimate. rewrite create_ultimate_keys, length_map.
    by apply merge_inner_length_NoDup.
  - intros Hr. split; intros Hl; unfold finals; simpl;
      unfold Final.merge_with_analysis; rewrite length_map;
      by apply merge_inner_length_NoDup.
Qed.
End merged_frames.

Section merged_frame_examples.
Import Ultimate.

(** C1 as stated fails: two tickers quoted on the two days the analysis table
    covers give four merged rows, against two distinct dates. *)
Lemma inner_join_row_count_counterexample :
  let stock_data := prepare_stock_data_with_metrics stock_table_1 in
  let analysis_clean := prepare_analysis_data analysis_table no_time_series in
  ¬ (length (create_ultimate_dataset stock_data analysis_clean)
     ≤ smaller_key_domain (λ m, date (stock m)) c_date stock_data analysis_clean)%nat.
Proof.
  intros stock_data analysis_clean.
  assert (length (create_ultimate_dataset stock_data analysis_clean) = 4%nat) as ->
    by (vm_compute; reflexivity).
  assert (smaller_key_domain (λ m, date (stock m)) c_date stock_data analysis_clean
          = 2%nat) as -> by (vm_compute; reflexivity).
  lia.
Qed.

Lemma merged_dates_bounded_by_key_domains_witness :
  let stock_data := prepare_stock_data_with_metrics aaa_rows in
  let analysis_clean := prepare_analysis_data analysis_table no_time_series in
  let daily := Final.prepare_stock_data aaa_rows in
  let analysis_data := Final.prepare_analysis_data analysis_table in
  let ultimate := create_ultimate_dataset stock_data analysis_clean in
  let finals := Final.create_final_datasets daily.1 daily.2 analysis_data in
  (NoDup (map (λ m, date (stock m)) stock_data)
   ∧ NoDup (map c_date analysis_clean)
   ∧ NoDup (map a_date analysis_data)
   ∧ NoDup (map Final.d_date daily.1)
   ∧ NoDup (map Final.d_date daily.2))
  ∧ (length ultimate
     ≤ smaller_key_domain (λ m, date (stock m)) c_date stock_data analysis_clean)%nat
  ∧ (length finals.1
     ≤ smaller_key_domain Final.d_date a_date daily.1 analysis_data)%nat
  ∧ (length finals.2
     ≤ smaller_key_domain Final.d_date a_date daily.2 analysis_data)%nat.
Proof.
  intros stock_data analysis_clean daily analysis_data ultimate finals.
  assert (NoDup (map (λ m, date (stock m)) stock_data)) as H1
    by (apply (bool_decide_unpack _); vm_compute; exact I).
  assert (NoDup (map c_date analysis_clean)) as H2
    by (apply (bool_decide_unpack _); vm_compute; exact I).
  assert (NoDup (map a_date analysis_data)) as H3
    by (apply (bool_decide_unpack _); vm_compute; exact I).
  assert (NoDup (map Final.d_date daily.1)) as H4
    by (apply (bool_decide_unpack _); vm_compute; exact I).
  assert (NoDup (map Final.d_date daily.2)) as H5
    by (apply (bool_decide_unpack _); vm_compute; exact I).
  destruct (merged_dates_bounded_by_key_domains stock_data analysis_clean
              daily.1 daily.2 analysis_data) as (_ & Hu & Hf).
  destruct (Hf H3) as [Hs Hi].
  split; [done|]. split; [exact (Hu H1 H2)|]. split; [exact (Hs H4)|exact (Hi H5)].
Defined.
End merged_frame_examples.

Section ultimate_key.
Import Ultimate.

Lemma length_ffill (xs : list fl) : length (ffill xs) = length xs.
Proof. apply length_ffill_from. Qed.

Lemma map_zip_with_l {X Y W V : Type} (h : W → V) (f : X → Y → W) (g : X → V)
    (xs : list X) (ys : list Y) :
  (∀ x y, h (f x y) = g x) → length xs = length ys →
  map h (zip_with f xs ys) = map g xs.
Proof.
  intros Hf. revert ys. induction xs as [|x xs IH]; intros [|y ys] ?;
    simplify_eq/=; [done|]. rewrite Hf. f_equal. auto.
Qed.

(** The dates of the prepared analysis frame are those of the analysis table
    when the time series, if it is joined, has one row per date. *)
Lemma prepare_analysis_dates (analysis_data : list analysis_row)
    (time_series_data : time_series) :
  (ts_has_category time_series_data = true →
   NoDup (map ts_date (ts_rows time_series_data))) →
  map c_date (prepare_analysis_data analysis_data time_series_data)
  = map a_date analysis_data.
Proof.
  intros Hts. unfold prepare_analysis_data.
  set (joined := if ts_has_category time_series_data then _ else _).
  assert (map fst joined = analysis_data) as Hjoined.
  { unfold joined. destruct (ts_has_category time_series_data).
    - rewrite map_map.
      rewrite (map_ext _ (λ p : analysis_row * option time_series_row, p.1))
        by (by intros [??]).
      apply (merge_left_fst a_date ts_date). by apply Hts.
    - rewrite map_map. simpl. apply map_id. }
  rewrite (map_zip_with_l _ _ (λ p : analysis_row * option string, a_date p.1)).
  - by rewrite <-(map_map fst a_date), Hjoined.
  - by intros [??] ?.
  - by rewrite length_ffill, length_map.
Qed.

Lemma prepare_stock_keys (stock_data : list stock_row) :
  map stock (prepare_stock_data_with_metrics stock_data)
  ≡ₚ filter (λ r, has_labels r = true) stock_data.
Proof.
  transitivity (map (λ p : stock_row * fl * root, p.1.1)
                  (map (λ m, (stock m, Return m, Volatility_7 m))
                     (prepare_stock_data_with_metrics stock_data))).
  { by rewrite map_map. }
  rewrite prepare_stock_columns.
  rewrite <-(map_map fst fst), !fst_zip.
  - apply sort_values_perm.
  - rewrite length_transform. lia.
  - rewrite length_transform, !length_zip_with, !length_transform. lia.
Qed.

(** C8, as amended: when the stock table has at most one row per
    (date, ticker) pair, the analysis table at most one row per date, and the
    time series, if its category column is joined, at most one row per date,
    no two rows of the ultimate data set share date and ticker. *)
Theorem ultimate_keyed_by_date_ticker (stock_data : list stock_row)
    (analysis_data : list analysis_row) (time_series_data : time_series) :
  NoDup (map (λ r, (date r, ticker r)) stock_data) →
  NoDup (map a_date analysis_data) →
  (ts_has_category time_series_data = true →
   NoDup (map ts_date (ts_rows time_series_data))) →
  NoDup (map (λ u, (u_date u, u_ticker u))
           (create_ultimate_dataset
              (prepare_stock_data_with_metrics stock_data)
              (prepare_analysis_data analysis_data time_series_data))).
Proof.
  intros Hstock Hanalysis Hts.
  rewrite create_ultimate_keys.
  set (key (r : stock_row) := (date r, ticker r)).
  set (merged := merge_inner _ _ _ _).
  assert (map (λ p : metrics_row * analysis_clean_row,
                 (date (stock p.1), ticker (stock p.1))) merged
          = map (λ m, key (stock m)) (map fst merged)) as ->
    by (by rewrite map_map).
  apply (sublist_NoDup _
           (map (λ m, key (stock m)) (prepare_stock_data_with_metrics stock_data))).
  - rewrite <-(map_map stock key), prepare_stock_keys.
    apply (sublist_NoDup _ (map key stock_data)); [done|].
    apply (fmap_sublist key), sublist_filter.
  - apply (fmap_sublist (λ m, key (stock m))). unfold merged.
    apply merge_inner_sublist. by rewrite prepare_analysis_dates.
Qed.

(** C8 as stated fails: an analysis table that carries a date twice doubles
    the stock rows of that date. *)
Lemma ultimate_key_counterexample :
  let stock_data := [fixture_row 0 10 ("A Corp", "Tech", "Software")
                       (Num (Qc_of 9)) (Num (Qc_of 11)) (Num (Qc_of 9))
                       (Num (Qc_of 500))] in
  NoDup (map (λ r, (date r, ticker r)) stock_data)
  ∧ ¬ NoDup (map (λ u, (u_date u, u_ticker u))
               (create_ultimate_dataset
                  (prepare_stock_data_with_metrics stock_data)
                  (prepare_analysis_data analysis_table_twice no_time_series))).
Proof.
  intros stock_data. split.
  - apply (bool_decide_unpack _). vm_compute. exact I.
  - assert (map (λ u, (u_date u, u_ticker u))
              (create_ultimate_dataset
                 (prepare_stock_data_with_metrics stock_data)
                 (prepare_analysis_data analysis_table_twice no_time_series))
            = [(0, "AAA"%string); (0, "AAA"%string)]) as ->
      by (vm_compute; reflexivity).
    intros [H _]%NoDup_cons. apply H. by left.
Qed.

Lemma ultimate_keyed_by_date_ticker_witness :
  (NoDup (map (λ r, (date r, ticker r)) stock_table_1)
   ∧ NoDup (map a_date analysis_table)
   ∧ (ts_has_category no_time_series = true →
      NoDup (map ts_date (ts_rows no_time_series))))
  ∧ NoDup (map (λ u, (u_date u, u_ticker u))
             (create_ultimate_dataset
                (prepare_stock_data_with_metrics stock_table_1)
                (prepare_analysis_data analysis_table no_time_series))).
Proof.
  assert (NoDup (map (λ r, (date r, ticker r)) stock_table_1)) as H1
    by (apply (bool_decide_unpack _); vm_compute; exact I).
  assert (NoDup (map a_date analysis_table)) as H2
    by (apply (bool_decide_unpack _); vm_compute; exact I).
  assert (ts_has_category no_time_series = true →
          NoDup (map ts_date (ts_rows no_time_series))) as H3
    by (intros _; simpl; constructor).
  split; [done|].
  exact (ultimate_keyed_by_date_ticker stock_table_1 analysis_table
           no_time_series H1 H2 H3).
Defined.
End ultimate_key.

(** * src/etl/create_final_dataset.py: running the script again *)

Section final_main.
Import Final.

(** A run on a directory that holds the three input files. *)
Lemma main_on_inputs (fs : gmap string csv) (stock_data : list stock_row)
    (analysis_data : list analysis_row) (sp500 : csv) :
  fs !! "Data/exports/stock_data_wiki.csv"%string = Some (StockCsv stock_data) →
  fs !! "Data/exports/merged_analysis_data.csv"%string
  = Some (AnalysisCsv analysis_data) →
  fs !! "Data/exports/sp500.csv"%string = Some sp500 →
  main fs
  = match final_sector_stats stock_data analysis_data with
    | [] =>
        Raise (Exception
                 "Column 'daily_return_mean' has dtype object, cannot use method 'nlargest' with this dtype")
    | _ :: _ => Ok (final_outputs stock_data analysis_data fs)
    end.
Proof.
  intros Hs Ha Hsp. unfold main, load_and_clean_data, read_csv.
  rewrite Hs, Ha, Hsp. reflexivity.
Qed.

Lemma main_Ok (fs fs' : gmap string csv) :
  main fs = Ok fs' ↔
  ∃ stock_data analysis_data sp500,
    fs !! "Data/exports/stock_data_wiki.csv"%string = Some (StockCsv stock_data)
    ∧ fs !! "Data/exports/merged_analysis_data.csv"%string
      = Some (AnalysisCsv analysis_data)
    ∧ fs !! "Data/exports/sp500.csv"%string = Some sp500
    ∧ final_sector_stats stock_data analysis_data ≠ []
    ∧ fs' = final_outputs stock_data analysis_data fs.
Proof.
  split.
  - destruct (fs !! "Data/exports/stock_data_wiki.csv"%string) as [f1|] eqn:H1;
      [|unfold main, load_and_clean_data, read_csv; by rewrite H1].
    destruct (fs !! "Data/exports/merged_analysis_data.csv"%string) as [f2|]
      eqn:H2;
      [|unfold main, load_and_clean_data, read_csv; by rewrite H1, H2].
    destruct (fs !! "Data/exports/sp500.csv"%string) as [f3|] eqn:H3;
      [|unfold main, load_and_clean_data, read_csv; by rewrite H1, H2, H3].
    destruct f1 as [s| | | |];
      try (unfold main, load_and_clean_data, read_csv;
           by rewrite H1, H2, H3).
    destruct f2 as [|a| | |];
      try (unfold main, load_and_clean_data, read_csv;
           by rewrite H1, H2, H3).
    rewrite (main_on_inputs fs s a f3 H1 H2 H3).
    destruct (final_sector_stats s a) as [|st sts] eqn:Hstats; cbv beta iota;
      [intros Hr; discriminate Hr|].
    intros Hr. injection Hr as <-. exists s, a, f3.
    split; [reflexivity|]. split; [reflexivity|]. split; [reflexivity|].
    split; [|reflexivity]. intros Hnil. rewrite Hstats in Hnil. discriminate Hnil.
  - intros (s & a & sp & Hs & Ha & Hsp & Hstats & ->).
    rewrite (main_on_inputs fs s a sp Hs Ha Hsp).
    destruct (final_sector_stats s a); [by destruct Hstats|reflexivity].
Qed.

(** The statistics of the test tables have rows. *)
Lemma final_sector_stats_test :
  final_sector_stats stock_table_1 analysis_table ≠ [].
Proof.
  intros H. apply (f_equal length) in H. vm_compute in H. discriminate H.
Qed.

Lemma lookup_save_input (p : string) (sf inf : list final_row)
    (ss is_ : list stats_row) (fs : gmap string csv) :
  p ∈ final_input_paths →
  save_final_datasets sf inf ss is_ fs !! p = fs !! p.
Proof.
  intros Hp. unfold save_final_datasets, final_input_paths in *.
  repeat (apply elem_of_cons in Hp as [->|Hp]);
    [rewrite !lookup_insert; by repeat case_decide..
    |by apply elem_of_nil in Hp].
Qed.

Lemma lookup_save_output (q : string) (sf inf : list final_row)
    (ss is_ : list stats_row) (fs1 fs2 : gmap string csv) :
  q ∈ final_output_paths →
  save_final_datasets sf inf ss is_ fs1 !! q
  = save_final_datasets sf inf ss is_ fs2 !! q.
Proof.
  intros Hq. unfold save_final_datasets, final_output_paths in *.
  repeat (apply elem_of_cons in Hq as [->|Hq]);
    [rewrite !lookup_insert; by repeat case_decide..
    |by apply elem_of_nil in Hq].
Qed.

Lemma save_twice (sf inf : list final_row) (ss is_ : list stats_row)
    (fs : gmap string csv) :
  save_final_datasets sf inf ss is_ (save_final_datasets sf inf ss is_ fs)
  = save_final_datasets sf inf ss is_ fs.
Proof.
  apply map_eq. intros k. unfold save_final_datasets.
  rewrite !lookup_insert. repeat case_decide; done.
Qed.

(** C6: the aggregation stage is idempotent on unchanged inputs.  When a run
    of [main] succeeds, a second run on the files it leaves succeeds and
    leaves every file as it is; and a run on any directory that holds the
    same three input files writes the same four output tables. *)
Theorem aggregation_stage_idempotent (fs fs' fs2 : gmap string csv) :
  main fs = Ok fs' →
  main fs' = Ok fs'
  ∧ ((∀ p, p ∈ final_input_paths → fs2 !! p = fs !! p) →
     ∃ fs2', main fs2 = Ok fs2'
             ∧ ∀ q, q ∈ final_output_paths → fs2' !! q = fs' !! q).
Proof.
  intros (s & a & sp & Hs & Ha & Hsp & Hstats & ->)%main_Ok. split.
  - apply main_Ok. exists s, a, sp. unfold final_outputs.
    rewrite !lookup_save_input, save_twice
      by (unfold final_input_paths; set_solver).
    done.
  - intros Hsame. exists (final_outputs s a fs2). split.
    + apply main_Ok. exists s, a, sp.
      rewrite !Hsame by (unfold final_input_paths; set_solver). done.
    + intros q Hq. by apply lookup_save_output.
Qed.

Lemma aggregation_stage_idempotent_witness :
  (main exports_store = Ok final_store
   ∧ ∀ p, p ∈ final_input_paths → exports_store_2 !! p = exports_store !! p)
  ∧ main final_store = Ok final_store
  ∧ ∃ fs2', main exports_store_2 = Ok fs2'
            ∧ ∀ q, q ∈ final_output_paths → fs2' !! q = final_store !! q.
Proof.
  assert (∀ p, p ∈ final_input_paths → exports_store_2 !! p = exports_store !! p)
    as H2.
  { intros p Hp. unfold final_input_paths in Hp.
    repeat (apply elem_of_cons in Hp as [->|Hp]);
      [vm_compute; reflexivity..|apply elem_of_nil in Hp; destruct Hp]. }
  assert (main exports_store = Ok final_store) as H1.
  { apply main_Ok. exists stock_table_1, analysis_table, OtherCsv.
    split; [vm_compute; reflexivity|].
    split; [vm_compute; reflexivity|].
    split; [vm_compute; reflexivity|].
    split; [exact final_sector_stats_test|reflexivity]. }
  split; [exact (conj H1 H2)|].
  pose proof (aggregation_stage_idempotent exports_store final_store
                exports_store_2 H1) as H.
  destruct H as [Hagain Hsame].
  split; [exact Hagain|exact (Hsame H2)].
Defined.
End final_main.

(** * etl/04_load_to_rds.py: column names and the table schema *)

Section column_names.
Import LoadToRds.

Lemma map_string_compose (f g : ascii → ascii) (s : string) :
  map_string f (map_string g s) = map_string (λ c, f (g c)) s.
Proof. induction s as [|c s IH]; simpl; [done|]. by rewrite IH. Qed.

Lemma map_string_ext (f g : ascii → ascii) (s : string) :
  (∀ c, f c = g c) → map_string f s = map_string g s.
Proof. intros H. induction s as [|c s IH]; simpl; [done|]. by rewrite IH, H. Qed.

Lemma normalize_map_string (col : string) :
  normalize col = map_string normalize_char col.
Proof. unfold normalize, replace, lower. by rewrite !map_string_compose. Qed.

Lemma normalize_char_idempotent (c : ascii) :
  normalize_char (normalize_char c) = normalize_char c.
Proof. by destruct c as [[] [] [] [] [] [] [] []]. Qed.

(** C7: the column-name normalization (lower-casing, then space, dash and dot
    to underscore) is idempotent: normalizing a normalized name changes
    nothing. *)
Theorem normalize_idempotent (x : string) : normalize (normalize x) = normalize x.
Proof.
  rewrite !normalize_map_string, map_string_compose.
  apply map_string_ext, normalize_char_idempotent.
Qed.
End column_names.

Section table_schema.
Import LoadToRds.
Context (repr_num : Qc → string).

Lemma string_app_cons (c : ascii) (s t : string) :
  String c s +:+ t = String c (s +:+ t).
Proof. done. Qed.

Lemma string_app_nil_l (s : string) : EmptyString +:+ s = s.
Proof. done. Qed.

Lemma string_app_assoc (s1 s2 s3 : string) :
  (s1 +:+ s2) +:+ s3 = s1 +:+ (s2 +:+ s3).
Proof.
  induction s1 as [|c s1 IH]; [done|].
  by rewrite !string_app_cons, IH.
Qed.

Lemma starts_with_app (p s : string) : starts_with p (p +:+ s) = true.
Proof.
  induction p as [|c p IH]; [by destruct s|].
  rewrite string_app_cons. simpl. by rewrite bool_decide_true, IH.
Qed.

Lemma contains_app (sub a b : string) : contains sub (a +:+ (sub +:+ b)) = true.
Proof.
  induction a as [|c a IH].
  - rewrite string_app_nil_l.
    destruct (sub +:+ b) eqn:E; simpl; rewrite <-E, starts_with_app; done.
  - rewrite string_app_cons. simpl. rewrite IH. apply orb_true_r.
Qed.

Lemma rstrip_app_keep (chars : list ascii) (a x b : string) :
  ends_outside chars x = true →
  rstrip chars (a +:+ (x +:+ b)) = a +:+ (x +:+ rstrip chars b).
Proof.
  intros Hx.
  assert (rstrip chars (x +:+ b) = x +:+ rstrip chars b
          ∧ x +:+ rstrip chars b ≠ EmptyString) as [Hxb Hne].
  { clear a. induction x as [|c x IH]; [done|].
    rewrite !string_app_cons. split; [|done]. simpl.
    destruct x as [|c' x].
    - rewrite !string_app_nil_l. simpl in Hx.
      apply bool_decide_eq_true in Hx.
      destruct (rstrip chars b); [|done].
      by rewrite bool_decide_false.
    - destruct (IH Hx) as [-> Hne].
      rewrite !string_app_cons in *. done. }
  induction a as [|c a IH]; [by rewrite !string_app_nil_l|].
  rewrite !string_app_cons. simpl. rewrite IH.
  destruct (a +:+ (x +:+ rstrip chars b)) eqn:E; [|done].
  destruct a; [|done]. by rewrite string_app_nil_l in E.
Qed.

Lemma ends_outside_app (chars : list ascii) (s t : string) :
  ends_outside chars t = true → ends_outside chars (s +:+ t) = true.
Proof.
  intros Ht. induction s as [|c s IH]; [done|].
  rewrite string_app_cons. simpl.
  by destruct (s +:+ t) eqn:E.
Qed.

Lemma starts_with_app_r (p s t : string) :
  starts_with p s = true → starts_with p (s +:+ t) = true.
Proof.
  revert s. induction p as [|c p IH]; intros s.
  - intros _. by destruct (s +:+ t).
  - destruct s as [|c' s]; simpl; [done|].
    intros [Hc H]%andb_true_iff. rewrite ?string_app_cons.
    cbn [starts_with]. by rewrite Hc, IH.
Qed.

Lemma contains_app_r (sub s t : string) :
  contains sub s = true → contains sub (s +:+ t) = true.
Proof.
  induction s as [|c s IH].
  - simpl. rewrite orb_false_r. intros H.
    apply (starts_with_app_r _ _ t) in H. rewrite string_app_nil_l in H |- *.
    destruct t; simpl; by rewrite H.
  - rewrite string_app_cons. simpl.
    intros [H|H]%orb_true_iff.
    + apply (starts_with_app_r _ _ t) in H. rewrite string_app_cons in H.
      by rewrite H.
    + rewrite IH by done. apply orb_true_r.
Qed.

(** The PostgreSQL types the schema uses. *)
Lemma pg_type_cases (c : column) :
  pg_type repr_num c
  ∈ ["TIMESTAMP"; "BIGINT"; "DOUBLE PRECISION"; "BOOLEAN"; "TEXT";
     "VARCHAR(100)"; "VARCHAR(500)"]%string.
Proof.
  destruct c as [[]|[]| | |vals]; try (vm_compute; set_solver).
  unfold pg_type. simpl.
  destruct (map _ vals); [set_solver|].
  repeat case_bool_decide; set_solver.
Qed.

Lemma pg_type_ends_outside (c : column) :
  ends_outside [","%char; Ascii.ascii_of_nat 10] (pg_type repr_num c) = true.
Proof.
  pose proof (pg_type_cases c) as H.
  repeat (apply elem_of_cons in H as [->|H]); try done.
  by apply elem_of_nil in H.
Qed.

(** The column definitions of the CREATE TABLE statement, one line each. *)
Lemma create_table_lines (sql : string) (df : dataframe) :
  foldl (λ sql '(col, c),
      sql +:+ "    " +:+ col +:+ " " +:+ pg_type repr_num c +:+ "," +:+ newline)
    sql df
  = sql +:+ foldr (λ '(col, c) acc,
                     "    " +:+ col +:+ " " +:+ pg_type repr_num c +:+ ","
                       +:+ newline +:+ acc) EmptyString df.
Proof.
  revert sql. induction df as [|[col c] df IH]; intros sql; simpl.
  - induction sql as [|a sql IHs]; [done|]. by rewrite string_app_cons, <-IHs.
  - rewrite IH. rewrite !string_app_assoc. done.
Qed.

Lemma create_table_line (col : string) (c : column) (df : dataframe) :
  (col, c) ∈ df →
  ∃ a b, foldr (λ '(col, c) acc,
                  "    " +:+ col +:+ " " +:+ pg_type repr_num c +:+ ","
                    +:+ newline +:+ acc) EmptyString df
         = a +:+ (column_line col (pg_type repr_num c) +:+ b)
         ∧ b ≠ EmptyString.
Proof.
  induction df as [|[col' c'] df IH]; [by intros ?%elem_of_nil|].
  intros [[= <- <-]|Hin]%elem_of_cons; simpl.
  - exists EmptyString. eexists. rewrite string_app_nil_l. unfold column_line.
    rewrite !string_app_assoc. split; [reflexivity|done].
  - destruct (IH Hin) as (a & b & -> & Hb).
    exists ("    " +:+ col' +:+ " " +:+ pg_type repr_num c' +:+ "," +:+ newline +:+ a), b.
    by rewrite !string_app_assoc.
Qed.

(** Every column of the frame is declared in the schema with the type
    [pg_type] picks for it. *)
Lemma create_table_schema_declares (df : dataframe) (table_name col : string)
    (engine : unit) (c : column) :
  (col, c) ∈ df →
  declares (create_table_schema repr_num df table_name engine) col (pg_type repr_num c).
Proof.
  intros Hin. unfold declares, create_table_schema.
  rewrite create_table_lines.
  destruct (create_table_line col c df Hin) as (a & b & -> & _).
  set (head := "CREATE TABLE IF NOT EXISTS " +:+ table_name +:+ " (" +:+ newline).
  rewrite <-(string_app_assoc head a).
  rewrite rstrip_app_keep.
  2:{ unfold column_line. do 3 apply ends_outside_app. apply pg_type_ends_outside. }
  assert (contains (column_line col (pg_type repr_num c))
            (((head +:+ a)
              +:+ column_line col (pg_type repr_num c)
              +:+ rstrip [","%char; ascii_of_nat 10] b) +:+ newline +:+ ");")
          = true) as H.
  { rewrite (string_app_assoc (head +:+ a)).
    rewrite (string_app_assoc (column_line _ _)). apply contains_app. }
  repeat case_bool_decide;
    repeat first [exact H | apply contains_app_r].
Qed.

(** C3: [create_table_schema] declares every column of integer dtype BIGINT,
    every column of float dtype DOUBLE PRECISION, and every object column
    that holds a string longer than 255 characters TEXT. *)
Theorem create_table_schema_types (df : dataframe) (table_name col : string)
    (engine : unit) :
  (∀ t vals, (col, IntColumn t vals) ∈ df →
     pg_type repr_num (IntColumn t vals) = "BIGINT"%string
     ∧ declares (create_table_schema repr_num df table_name engine) col "BIGINT")
  ∧ (∀ t vals, (col, FloatColumn t vals) ∈ df →
       pg_type repr_num (FloatColumn t vals) = "DOUBLE PRECISION"%string
       ∧ declares (create_table_schema repr_num df table_name engine) col
           "DOUBLE PRECISION")
  ∧ (∀ vals s, (col, ObjectColumn vals) ∈ df →
       OStr s ∈ vals → (255 < String.length s)%nat →
       pg_type repr_num (ObjectColumn vals) = "TEXT"%string
       ∧ declares (create_table_schema repr_num df table_name engine) col "TEXT").
Proof.
  assert (∀ t vals, pg_type repr_num (IntColumn t vals) = "BIGINT"%string) as Hint
    by (by intros [] ?).
  assert (∀ t vals, pg_type repr_num (FloatColumn t vals)
                    = "DOUBLE PRECISION"%string) as Hfloat
    by (by intros [] ?).
  assert (∀ vals s, OStr s ∈ vals → (255 < String.length s)%nat →
                    pg_type repr_num (ObjectColumn vals) = "TEXT"%string) as Hobj.
  { intros vals s Hs Hlen. unfold pg_type. simpl.
    assert (String.length s ∈ map (λ v, String.length (str_obj repr_num v)) vals)
      as Hmem.
    { apply list_elem_of_fmap. by exists (OStr s). }
    destruct (map _ vals) as [|n ns]; [done|].
    assert (255 < foldr Nat.max n ns)%nat as Hmax.
    { clear -Hmem Hlen. apply elem_of_cons in Hmem as [<-|Hmem].
      - induction ns; simpl; lia.
      - induction ns as [|m ns IH]; [by apply elem_of_nil in Hmem|].
        apply elem_of_cons in Hmem as [<-|Hmem]; simpl; [lia|].
        specialize (IH Hmem). lia. }
    repeat case_bool_decide; try done; lia. }
  split; [|split].
  - intros t vals Hin. split; [apply Hint|].
    rewrite <-(Hint t vals). by apply create_table_schema_declares.
  - intros t vals Hin. split; [apply Hfloat|].
    rewrite <-(Hfloat t vals). by apply create_table_schema_declares.
  - intros vals s Hin Hs Hlen. split; [by eapply Hobj|].
    rewrite <-(Hobj vals s Hs Hlen). by apply create_table_schema_declares.
Qed.
End table_schema.

Lemma create_table_schema_types_witness :
  declares (LoadToRds.create_table_schema (λ _, "0"%string) schema_frame "prices" tt)
    "volume" "BIGINT"
  ∧ declares (LoadToRds.create_table_schema (λ _, "0"%string) schema_frame "prices" tt)
      "close" "DOUBLE PRECISION"
  ∧ declares (LoadToRds.create_table_schema (λ _, "0"%string) schema_frame "prices" tt)
      "notes" "TEXT".
Proof.
  split; [|split].
  - pose proof (create_table_schema_types (λ _, "0"%string) schema_frame
                  "prices" "volume" tt) as H.
    destruct H as [H _].
    apply (H LoadToRds.int64 [100; 200]). unfold schema_frame. constructor.
  - pose proof (create_table_schema_types (λ _, "0"%string) schema_frame
                  "prices" "close" tt) as H.
    destruct H as [_ [H _]].
    apply (H LoadToRds.float64 [Num (Qc_of 10); NaN]).
    unfold schema_frame. do 2 constructor.
  - pose proof (create_table_schema_types (λ _, "0"%string) schema_frame
                  "prices" "notes" tt) as H.
    destruct H as [_ [_ H]].
    apply (H [LoadToRds.OStr (repeat_char 256 "a"); LoadToRds.ONone]
             (repeat_char 256 "a")).
    + unfold schema_frame. do 3 constructor.
    + constructor.
    + vm_compute. lia.
Defined.

Section upload_guard.
Import LoadToRds.
Context (repr_num : Qc → string) (to_datetime : column → result column).

Lemma planned_nil (k : nat) : planned [] k = None.
Proof. by destruct k. Qed.

Lemma planned_drop (faults : list (option exn)) (n k : nat) :
  planned (drop n faults) k = planned faults (n + k).
Proof. unfold planned. by rewrite lookup_drop. Qed.

(** A call to the database takes the next planned outcome. *)
Lemma db_call_planned (w : world) :
  db_call w
  = (match planned (faults w) 0 with
     | None => Ok tt
     | Some e => Raise e
     end,
     {| files := files w; tables := tables w; faults := drop 1 (faults w) |}).
Proof. destruct w as [fs tb [|[e|] rest]]; reflexivity. Qed.

(** Dropping the table never raises. *)
Lemma drop_table_if_exists_planned (table_name : string) (w : world) :
  drop_table_if_exists tt table_name w
  = (Ok tt,
     {| files := files w;
        tables := match planned (faults w) 0 with
                  | None => delete table_name (tables w)
                  | Some _ => tables w
                  end;
        faults := drop 1 (faults w) |}).
Proof. destruct w as [fs tb [|[e|] rest]]; reflexivity. Qed.

Lemma to_sql_replace_planned (df : dataframe) (table_name : string) (w : world) :
  to_sql df table_name tt IfExistsReplace w
  = match planned (faults w) 0 with
    | None =>
        (Ok tt,
         {| files := files w;
            tables := <[table_name := df]> (tables w);
            faults := drop 1 (faults w) |})
    | Some e =>
        (Raise e,
         {| files := files w; tables := tables w;
            faults := drop 1 (faults w) |})
    end.
Proof.
  unfold to_sql, mbind, prog_bind. rewrite db_call_planned.
  destruct (planned (faults w) 0); [done|].
  unfold gets. cbv beta iota. cbn [tables].
  by destruct (tables w !! table_name).
Qed.

Lemma select_count_planned (table_name : string) (w : world) :
  select_count tt table_name w
  = (match planned (faults w) 0, tables w !! table_name with
     | Some e, _ => Raise e
     | None, Some t => Ok (len t)
     | None, None => Raise (Exception "relation does not exist")
     end,
     {| files := files w; tables := tables w; faults := drop 1 (faults w) |}).
Proof.
  unfold select_count, mbind, prog_bind. rewrite db_call_planned.
  destruct (planned (faults w) 0); [done|].
  unfold gets. cbv beta iota. cbn [tables].
  by destruct (tables w !! table_name).
Qed.

(** With [if_exists='replace'] and a frame that cleans to a non-empty frame,
    the upload returns by the outcomes of the second and third call to the
    database; the first call, which drops the table, may fail. *)
Lemma upload_replace_nonempty (df dfc : dataframe) (table_name : string)
    (w : world) :
  clean_dataframe_for_upload repr_num to_datetime df table_name = Ok dfc →
  len dfc ≠ 0%nat →
  ∃ w', files w' = files w
    ∧ match planned (faults w) 1, planned (faults w) 2 with
      | None, None =>
          upload_dataframe_to_rds repr_num to_datetime df table_name tt
            IfExistsReplace w = (Ok true, w')
          ∧ tables w' !! table_name = Some dfc
      | _, _ =>
          upload_dataframe_to_rds repr_num to_datetime df table_name tt
            IfExistsReplace w = (Ok false, w')
      end.
Proof.
  intros Hclean Hlen.
  unfold upload_dataframe_to_rds, try_except, mbind, prog_bind, lift.
  rewrite Hclean. cbv beta iota. rewrite (bool_decide_false _ Hlen).
  rewrite drop_table_if_exists_planned. cbv beta iota.
  rewrite to_sql_replace_planned. cbn [faults files tables].
  rewrite (planned_drop _ 1 0). cbn [Nat.add].
  destruct (planned (faults w) 1) as [e1|].
  { eexists. split; [|destruct (planned (faults w) 2); reflexivity]. done. }
  cbv beta iota. rewrite select_count_planned. cbn [faults files tables].
  rewrite lookup_insert_eq, drop_drop, (planned_drop _ 2 0). cbn [Nat.add].
  destruct (planned (faults w) 2) as [e2|].
  { eexists. split; [|reflexivity]. done. }
  eexists. split; [|split; [reflexivity|]]; [done|].
  cbn [tables]. by rewrite lookup_insert_eq.
Qed.

Lemma upload_clean_raises (df : dataframe) (table_name : string)
    (mode : if_exists_mode) (w : world) (e : exn) :
  clean_dataframe_for_upload repr_num to_datetime df table_name = Raise e →
  upload_dataframe_to_rds repr_num to_datetime df table_name tt mode w
  = (Ok false, w).
Proof.
  intros Hclean.
  unfold upload_dataframe_to_rds, try_except, mbind, prog_bind, lift.
  by rewrite Hclean.
Qed.

Lemma upload_empty (df dfc : dataframe) (table_name : string)
    (mode : if_exists_mode) (w : world) :
  clean_dataframe_for_upload repr_num to_datetime df table_name = Ok dfc →
  len dfc = 0%nat →
  upload_dataframe_to_rds repr_num to_datetime df table_name tt mode w
  = (Ok false, w).
Proof.
  intros Hclean Hlen.
  unfold upload_dataframe_to_rds, try_except, mbind, prog_bind, lift.
  rewrite Hclean. cbv beta iota. by rewrite (bool_decide_true _ Hlen).
Qed.

(** No step of the upload touches the files on disk. *)
Lemma files_bind {A B : Type} (m : prog world A) (f : A → prog world B) :
  (∀ w, files (m w).2 = files w) →
  (∀ a w, files (f a w).2 = files w) →
  ∀ w, files ((m ≫= f) w).2 = files w.
Proof.
  intros Hm Hf w. unfold mbind, prog_bind.
  specialize (Hm w). destruct (m w) as [[a|e] w1]; simpl in *; [|done].
  by rewrite Hf.
Qed.

Lemma files_try_except {A : Type} (m : prog world A)
    (h : exn → prog world A) :
  (∀ w, files (m w).2 = files w) →
  (∀ e w, files (h e w).2 = files w) →
  ∀ w, files (try_except m h w).2 = files w.
Proof.
  intros Hm Hh w. unfold try_except.
  specialize (Hm w). destruct (m w) as [[a|e] w1]; simpl in *; [done|].
  by rewrite Hh.
Qed.

Lemma files_db_call (w : world) : files (db_call w).2 = files w.
Proof. by rewrite db_call_planned. Qed.

Lemma files_to_sql (df : dataframe) (table_name : string)
    (mode : if_exists_mode) (w : world) :
  files (to_sql df table_name tt mode w).2 = files w.
Proof.
  revert w. unfold to_sql. apply files_bind; [apply files_db_call|].
  intros _. apply files_bind; [done|].
  intros [t|] w; [|done]. destruct mode; [done|done|].
  revert w. apply files_bind; [done|]. done.
Qed.

Lemma files_upload (df : dataframe) (table_name : string)
    (mode : if_exists_mode) (w : world) :
  files (upload_dataframe_to_rds repr_num to_datetime df table_name tt mode w).2
  = files w.
Proof.
  revert w. unfold upload_dataframe_to_rds.
  apply files_try_except; [|done].
  apply files_bind; [done|]. intros dfc w.
  case_bool_decide; [done|]. revert w.
  apply files_bind.
  { destruct mode; try done. intros w.
    by rewrite drop_table_if_exists_planned. }
  intros _. apply files_bind; [apply files_to_sql|].
  intros _. apply files_bind; [|done].
  intros w. by rewrite select_count_planned.
Qed.

Lemma read_csv_lookup (file : string) (w : world) :
  read_csv file w
  = match files w !! file with
    | Some r => (r, w)
    | None => (Raise (Exception "No such file or directory"), w)
    end.
Proof. reflexivity. Qed.

Lemma path_exists_lookup (file : string) (w : world) :
  path_exists file w = (Ok (bool_decide (is_Some (files w !! file))), w).
Proof. reflexivity. Qed.

(** The insert, whatever [if_exists] says. *)
Lemma to_sql_planned (df : dataframe) (table_name : string)
    (mode : if_exists_mode) (w : world) :
  to_sql df table_name tt mode w
  = match planned (faults w) 0 with
    | Some e => (Raise e, engine_made w)
    | None =>
        match mode, tables w !! table_name with
        | IfExistsFail, Some _ =>
            (Raise (Exception "Table already exists."), engine_made w)
        | IfExistsAppend, Some t =>
            match insert_rows t df with
            | Ok t' =>
                (Ok tt, set_tables <[table_name := t']> (engine_made w))
            | Raise e => (Raise e, engine_made w)
            end
        | _, _ => (Ok tt, set_tables <[table_name := df]> (engine_made w))
        end
    end.
Proof.
  unfold to_sql, mbind, prog_bind. rewrite db_call_planned.
  destruct (planned (faults w) 0); [done|].
  unfold gets. cbv beta iota. cbn [tables].
  destruct (tables w !! table_name) as [t|], mode; reflexivity.
Qed.

(** Without [if_exists='replace'] no table is dropped: the upload of a frame
    that cleans to a frame with rows returns by the insert and the count. *)
Lemma upload_keep_nonempty (df dfc : dataframe) (table_name : string)
    (mode : if_exists_mode) (w : world) :
  mode ≠ IfExistsReplace →
  clean_dataframe_for_upload repr_num to_datetime df table_name = Ok dfc →
  len dfc ≠ 0%nat →
  ∃ b w',
    upload_dataframe_to_rds repr_num to_datetime df table_name tt mode w
    = (Ok b, w')
    ∧ (b = true
       ↔ planned (faults w) 0 = None ∧ planned (faults w) 1 = None
         ∧ insert_accepted mode (tables w !! table_name) dfc)
    ∧ (b = true
       → tables w' !! table_name
         = inserted mode (tables w !! table_name) dfc).
Proof.
  intros Hmode Hclean Hlen.
  unfold upload_dataframe_to_rds, try_except, mbind, prog_bind, lift.
  rewrite Hclean. cbv beta iota. rewrite (bool_decide_false _ Hlen).
  assert ((match mode with
           | IfExistsReplace => drop_table_if_exists tt table_name
           | _ => mret tt
           end) w = (Ok tt, w)) as -> by (by destruct mode).
  cbv beta iota. rewrite to_sql_planned.
  destruct (planned (faults w) 0) as [e0|] eqn:H0.
  { eexists false, _. split; [reflexivity|]. split; [|done].
    split; [done|]. by intros (? & _). }
  unfold insert_accepted, inserted.
  destruct (tables w !! table_name) as [t|] eqn:Ht, mode; try done.
  - (* fail, the table is there *)
    eexists false, _. split; [reflexivity|]. split; [|done].
    split; [done|]. by intros (_ & _ & ?).
  - (* append to the table *)
    destruct (insert_rows t dfc) as [t'|e] eqn:Hins.
    + cbv beta iota. rewrite select_count_planned.
      cbn [faults tables set_tables engine_made].
      rewrite lookup_insert_eq, (planned_drop _ 1 0). cbn [Nat.add].
      destruct (planned (faults w) 1) as [e1|] eqn:H1.
      * eexists false, _. split; [reflexivity|]. split; [|done].
        split; [done|]. by intros (_ & ? & _).
      * eexists true, _. split; [reflexivity|]. split.
        -- split; [|done]. intros _. split; [done|]. split; [done|].
           by exists t'.
        -- intros _. cbn [tables]. by rewrite lookup_insert_eq.
    + eexists false, _. split; [reflexivity|]. split; [|done].
      split; [done|]. by intros (_ & _ & ? & ?).
  - (* fail, no table *)
    cbv beta iota. rewrite select_count_planned.
    cbn [faults tables set_tables engine_made].
    rewrite lookup_insert_eq, (planned_drop _ 1 0). cbn [Nat.add].
    destruct (planned (faults w) 1) as [e1|] eqn:H1.
    + eexists false, _. split; [reflexivity|]. split; [|done].
      split; [done|]. by intros (_ & ? & _).
    + eexists true, _. split; [reflexivity|]. split; [done|].
      intros _. cbn [tables]. by rewrite lookup_insert_eq.
  - (* append, no table *)
    cbv beta iota. rewrite select_count_planned.
    cbn [faults tables set_tables engine_made].
    rewrite lookup_insert_eq, (planned_drop _ 1 0). cbn [Nat.add].
    destruct (planned (faults w) 1) as [e1|] eqn:H1.
    + eexists false, _. split; [reflexivity|]. split; [|done].
      split; [done|]. by intros (_ & ? & _).
    + eexists true, _. split; [reflexivity|]. split; [done|].
      intros _. cbn [tables]. by rewrite lookup_insert_eq.
Qed.

(** What an upload returns, for every value of [if_exists]. *)
Lemma upload_outcome (df : dataframe) (table_name : string)
    (mode : if_exists_mode) (w : world) :
  ∃ b w',
    upload_dataframe_to_rds repr_num to_datetime df table_name tt mode w
    = (Ok b, w')
    ∧ files w' = files w
    ∧ (b = true ↔ upload_succeeds repr_num to_datetime w df table_name mode)
    ∧ (∀ dfc,
         clean_dataframe_for_upload repr_num to_datetime df table_name
         = Ok dfc →
         b = true →
         tables w' !! table_name
         = inserted mode (tables w !! table_name) dfc).
Proof.
  pose proof (files_upload df table_name mode w) as Hfiles.
  destruct (clean_dataframe_for_upload repr_num to_datetime df table_name)
    as [dfc|e] eqn:Hclean.
  - destruct (decide (len dfc = 0%nat)) as [Hlen|Hlen].
    + rewrite (upload_empty df dfc table_name mode w Hclean Hlen) in Hfiles |- *.
      exists false, w. split; [reflexivity|]. split; [exact Hfiles|].
      split; [|intros ? _ Hb; discriminate Hb]. split; [intros Hb; discriminate Hb|].
      intros (dfc' & Hc' & Hlen' & _). congruence.
    + assert (∃ b w',
        upload_dataframe_to_rds repr_num to_datetime df table_name tt mode w
        = (Ok b, w')
        ∧ (b = true
           ↔ planned (faults w) (insert_call mode) = None
             ∧ planned (faults w) (S (insert_call mode)) = None
             ∧ insert_accepted mode (tables w !! table_name) dfc)
        ∧ (b = true
           → tables w' !! table_name
             = inserted mode (tables w !! table_name) dfc))
        as (b & w' & Hup & Hiff & Htable).
      { assert (mode = IfExistsReplace ∨ mode ≠ IfExistsReplace)
          as [->|Hmode]
          by (destruct mode; [right|left|right]; done).
        2:{ assert (insert_call mode = 0%nat) as -> by (by destruct mode).
            by apply upload_keep_nonempty. }
        destruct (upload_replace_nonempty df dfc table_name w Hclean Hlen)
          as (w1 & _ & H).
        cbn [insert_call insert_accepted inserted].
        destruct (planned (faults w) 1) as [e1|].
        { exists false, w1. split; [exact H|]. split; [|intros Hb; discriminate Hb].
          split; [intros Hb; discriminate Hb|]. intros (He & _). discriminate He. }
        destruct (planned (faults w) 2) as [e2|].
        { exists false, w1. split; [exact H|]. split; [|intros Hb; discriminate Hb].
          split; [intros Hb; discriminate Hb|]. intros (_ & He & _).
          discriminate He. }
        destruct H as [H Ht]. exists true, w1. split; [exact H|].
        split; [|intros _; exact Ht]. split; [|reflexivity].
        intros _. split; [reflexivity|]. split; [reflexivity|exact I]. }
      rewrite Hup in Hfiles |- *. exists b, w'. split; [reflexivity|].
      split; [exact Hfiles|]. split.
      * rewrite Hiff. unfold upload_succeeds. rewrite Hclean. split.
        -- intros (H1 & H2 & H3). exists dfc. split; [reflexivity|].
           split; [exact Hlen|]. split; [exact H1|]. split; [exact H2|exact H3].
        -- intros (dfc' & Hc' & _ & H1 & H2 & H3).
           injection Hc' as <-. split; [exact H1|]. split; [exact H2|exact H3].
      * intros dfc' Hc' Hb. injection Hc' as <-. by apply Htable.
  - rewrite (upload_clean_raises df table_name mode w e Hclean) in Hfiles |- *.
    exists false, w. split; [reflexivity|]. split; [exact Hfiles|].
    split; [|intros ? Hc; discriminate Hc].
    split; [intros Hb; discriminate Hb|].
    intros (dfc' & Hc' & _). rewrite Hclean in Hc'. discriminate Hc'.
Qed.

(** One turn of the loop of [upload_all_files] never raises: it records the
    outcome of the file under its table and leaves the disk as it was. *)
Lemma upload_file_step (results : gmap string bool) (n : nat)
    (file table : string) (w : world) :
  ∃ b n' w',
    upload_file repr_num to_datetime tt (results, n) (file, table) w
    = (Ok (<[table := b]> results, n'), w')
    ∧ files w' = files w
    ∧ match files w !! file with
      | Some (Ok df) =>
          upload_dataframe_to_rds repr_num to_datetime df table tt
            IfExistsReplace w = (Ok b, w')
          ∧ (b = true
             ↔ upload_succeeds repr_num to_datetime w df table IfExistsReplace)
      | _ => b = false ∧ w' = w
      end.
Proof.
  unfold upload_file, try_except, mbind, prog_bind.
  rewrite path_exists_lookup. cbv beta iota.
  destruct (files w !! file) as [[df|e]|] eqn:Hfile.
  - rewrite bool_decide_true by eauto. cbn [negb]. cbv beta iota.
    rewrite read_csv_lookup, Hfile. cbv beta iota.
    destruct (upload_outcome df table IfExistsReplace w)
      as (b & w' & Hup & Hfiles & Hiff & _).
    rewrite Hup. cbv beta iota.
    eexists b, _, w'. split; [reflexivity|]. split; [exact Hfiles|].
    split; [reflexivity|exact Hiff].
  - rewrite bool_decide_true by eauto. cbn [negb]. cbv beta iota.
    rewrite read_csv_lookup, Hfile. cbv beta iota.
    eexists false, _, w. split; [reflexivity|]. split; reflexivity || (split; reflexivity).
  - rewrite bool_decide_false by (by intros [? ?]). cbn [negb].
    cbv beta iota. eexists false, _, w.
    split; [reflexivity|]. split; reflexivity || (split; reflexivity).
Qed.

(** The loop returns: every entry gets its result, in the world the loop has
    reached, and the results of the tables outside the list are kept. *)
Lemma upload_loop (l : list (string * string)) :
  NoDup l.*2 →
  ∀ (acc : gmap string bool * nat) (w : world),
    ∃ res w',
      for_loop (upload_file repr_num to_datetime tt) acc l w = (Ok res, w')
      ∧ files w' = files w
      ∧ (∀ table, table ∉ l.*2 → res.1 !! table = acc.1 !! table)
      ∧ (∀ table, table ∈ l.*2 → is_Some (res.1 !! table))
      ∧ loop_recorded repr_num to_datetime w l res.1 w'
      ∧ (∀ file table, (file, table) ∈ l → res.1 !! table = Some true →
           ∃ df, files w !! file = Some (Ok df)).
Proof.
  induction l as [|[file table] l IH]; intros Hnd acc w.
  - exists acc, w. split; [reflexivity|]. split; [reflexivity|].
    split; [reflexivity|]. split; [by intros ? ?%elem_of_nil|].
    split; [reflexivity|]. by intros ?? ?%elem_of_nil.
  - apply NoDup_cons in Hnd as [Hnotin Hnd]. destruct acc as [results n].
    destruct (upload_file_step results n file table w)
      as (b & n' & w1 & Hstep & Hfiles1 & Hrec).
    destruct (IH Hnd (<[table := b]> results, n') w1)
      as (res & w' & Hloop & Hfiles & Hout & Hdom & Hchain & Hread).
    assert (res.1 !! table = Some b) as Hb.
    { rewrite (Hout table Hnotin). cbn [fst]. by rewrite lookup_insert_eq. }
    exists res, w'. cbn [for_loop]. unfold mbind, prog_bind.
    rewrite Hstep. cbv beta iota. split; [exact Hloop|].
    split; [congruence|]. split; [|split; [|split]].
    + intros t Ht. cbn [fmap list_fmap snd] in Ht.
      apply not_elem_of_cons in Ht as [Hne Ht].
      rewrite (Hout t Ht). cbn [fst]. by rewrite lookup_insert_ne.
    + intros t Ht. cbn [fmap list_fmap snd] in Ht.
      apply elem_of_cons in Ht as [->|Ht]; [by rewrite Hb|by apply Hdom].
    + cbn [loop_recorded].
      destruct (files w !! file) as [[df|e]|].
      * destruct Hrec as [Hup Hiff]. exists b, w1.
        split; [exact Hup|]. split; [exact Hiff|]. split; [exact Hb|exact Hchain].
      * destruct Hrec as [-> ->]. split; [exact Hb|exact Hchain].
      * destruct Hrec as [-> ->]. split; [exact Hb|exact Hchain].
    + intros f t [Heq|Hmem]%elem_of_cons Htrue.
      * injection Heq as -> ->. rewrite Hb in Htrue. injection Htrue as ->.
        destruct (files w !! file) as [[df|e]|]; [by exists df| |];
          destruct Hrec as [Hfalse _]; discriminate Hfalse.
      * rewrite <-Hfiles1. by apply (Hread f t).
Qed.

(** [upload_all_files]: the engine is made, or its error is raised; then the
    loop runs over the mapping. *)
Lemma upload_all_files_loop (w : world) :
  ∃ results w',
    upload_all_files repr_num to_datetime w
    = match planned (faults w) 0 with
      | None => (Ok results, w')
      | Some e => (Raise e, engine_made w)
      end
    ∧ (∀ table, is_Some (results !! table) ↔ table ∈ FILE_TABLE_MAPPING.*2)
    ∧ loop_recorded repr_num to_datetime (engine_made w) FILE_TABLE_MAPPING
        results w'
    ∧ (∀ file table, (file, table) ∈ FILE_TABLE_MAPPING →
         results !! table = Some true →
         ∃ df, files w !! file = Some (Ok df)).
Proof.
  assert (NoDup FILE_TABLE_MAPPING.*2) as Hnd.
  { apply (bool_decide_unpack _). vm_compute. exact I. }
  destruct (upload_loop FILE_TABLE_MAPPING Hnd (∅, 0%nat) (engine_made w))
    as (res & w' & Hloop & _ & Hout & Hdom & Hchain & Hread).
  exists res.1, w'. split; [|split; [|split]].
  - unfold upload_all_files, create_db_engine, try_except, mbind, prog_bind.
    rewrite db_call_planned. fold (engine_made w).
    destruct (planned (faults w) 0); [reflexivity|].
    cbv beta iota. by rewrite Hloop.
  - intros table. split; [|apply Hdom].
    intros Hsome. destruct (decide (table ∈ FILE_TABLE_MAPPING.*2)) as [|Hnot];
      [done|].
    rewrite (Hout table Hnot) in Hsome. cbn [fst] in Hsome.
    rewrite lookup_empty in Hsome. by destruct Hsome.
  - exact Hchain.
  - exact Hread.
Qed.


End upload_guard.


Section handler.
Import Lambda.

Lemma put_object_planned (Bucket Key : string) (text : json_text)
    (content_type : string) (w : world) :
  put_object Bucket Key text content_type w
  = match planned (faults w) 0 with
    | None =>
        (Ok tt,
         {| today := today w;
            env_bucket_name := env_bucket_name w;
            http := http w;
            s3 := <[(Bucket, Key) :=
                     {| Body := text; ContentType := content_type |}]> (s3 w);
            faults := drop 1 (faults w) |})
    | Some e =>
        (Raise e,
         {| today := today w;
            env_bucket_name := env_bucket_name w;
            http := http w;
            s3 := s3 w;
            faults := drop 1 (faults w) |})
    end.
Proof. destruct w as [d b h s [|[e|] rest]]; reflexivity. Qed.

(** The two objects of a day have different keys. *)
Lemma weather_key_ne_sp500_key (date_str : string) :
  weather_key date_str ≠ sp500_key date_str.
Proof. intros H. vm_compute in H. discriminate H. Qed.

(** C10: [lambda_handler] never raises.  It answers 200 exactly when both
    documents are fetched and both writes to the bucket go through, the bucket
    then holding the weather document and the S&P 500 document under the keys
    of the day; otherwise it answers 500, the body carrying the text of the
    exception that was raised. *)
Theorem lambda_handler_never_raises (event context : json) (w : world) :
  ∃ resp w',
    lambda_handler event context w = (Ok resp, w')
    ∧ (statusCode resp = 200
       ↔ (∃ weather_json, http w weather_url = Ok weather_json)
         ∧ (∃ stock_json, http w stock_url = Ok stock_json)
         ∧ planned (faults w) 0 = None
         ∧ planned (faults w) 1 = None)
    ∧ (statusCode resp = 200 →
       ∃ weather_json stock_json,
         http w weather_url = Ok weather_json
         ∧ http w stock_url = Ok stock_json
         ∧ s3 w' !! (BUCKET_NAME w,
                     weather_key (Calendar.strftime_Y_m_d (today w)))
           = Some {| Body := Dumps weather_json;
                     ContentType := "application/json" |}
         ∧ s3 w' !! (BUCKET_NAME w,
                     sp500_key (Calendar.strftime_Y_m_d (today w)))
           = Some {| Body := Dumps stock_json;
                     ContentType := "application/json" |})
    ∧ (statusCode resp ≠ 200 →
       statusCode resp = 500
       ∧ ∃ e,
           body resp = Dumps (JObj [("message"%string, JStr "Error in Lambda");
                                    ("error"%string, JStr (str_exn e))])
           ∧ (http w weather_url = Raise e
              ∨ http w stock_url = Raise e
              ∨ planned (faults w) 0 = Some e
              ∨ planned (faults w) 1 = Some e)).
Proof.
  unfold lambda_handler, try_except, mbind, prog_bind, gets, fetch_json.
  cbv beta iota.
  destruct (http w weather_url) as [weather_json|e] eqn:Hweather.
  2:{ eexists _, _. split; [reflexivity|]. cbn [statusCode body].
      split; [split; [intros [=]|by intros [[? [=]] _]]|].
      split; [intros [=]|]. intros _. split; [reflexivity|].
      exists e. split; [reflexivity|]. by left. }
  destruct (http w stock_url) as [stock_json|e] eqn:Hstock.
  2:{ eexists _, _. split; [reflexivity|]. cbn [statusCode body].
      split; [split; [intros [=]|by intros (_ & [? [=]] & _)]|].
      split; [intros [=]|]. intros _. split; [reflexivity|].
      exists e. split; [reflexivity|]. right. by left. }
  rewrite put_object_planned.
  destruct (planned (faults w) 0) as [e|] eqn:Hput1.
  { eexists _, _. split; [reflexivity|]. cbn [statusCode body].
    split; [split; [intros [=]|by intros (_ & _ & [=] & _)]|].
    split; [intros [=]|]. intros _. split; [reflexivity|].
    exists e. split; [reflexivity|]. right. right. by left. }
  rewrite put_object_planned. cbn [faults].
  rewrite (planned_drop _ 1 0). cbn [Nat.add].
  destruct (planned (faults w) 1) as [e|] eqn:Hput2.
  { eexists _, _. split; [reflexivity|]. cbn [statusCode body].
    split; [split; [intros [=]|by intros (_ & _ & _ & [=])]|].
    split; [intros [=]|]. intros _. split; [reflexivity|].
    exists e. split; [reflexivity|]. right. right. by right. }
  eexists _, _. split; [reflexivity|]. cbn [statusCode body s3 today].
  split; [split; [|reflexivity]|].
  { intros _. split; [by eexists|]. split; [by eexists|]. done. }
  split; [|by intros []].
  intros _. exists weather_json, stock_json.
  split; [reflexivity|]. split; [reflexivity|]. split.
  - rewrite lookup_insert_ne, lookup_insert_eq; [reflexivity|].
    intros H. apply (weather_key_ne_sp500_key (Calendar.strftime_Y_m_d (today w))).
    congruence.
  - by rewrite lookup_insert_eq.
Qed.

End handler.

Lemma lambda_handler_never_raises_witness :
  ∃ resp w',
    Lambda.lambda_handler Lambda.JNull Lambda.JNull (lambda_world [])
    = (Ok resp, w')
    ∧ Lambda.statusCode resp = 200
    ∧ Lambda.s3 w' !! ("apan5450-stock"%string,
                       "raw/weather/weather_2020-02-29.json"%string)
      = Some {| Lambda.Body := Lambda.Dumps (Lambda.JStr "weather");
                Lambda.ContentType := "application/json" |}
    ∧ Lambda.s3 w' !! ("apan5450-stock"%string,
                       "raw/sp500/sp500_2020-02-29.json"%string)
      = Some {| Lambda.Body := Lambda.Dumps (Lambda.JStr "stock");
                Lambda.ContentType := "application/json" |}.
Proof.
  destruct (lambda_handler_never_raises Lambda.JNull Lambda.JNull
              (lambda_world []))
    as (resp & w' & Hrun & Hiff & Hstored & _).
  exists resp, w'. split; [exact Hrun|].
  assert (Lambda.statusCode resp = 200) as H200.
  { apply Hiff. split; [exists (Lambda.JStr "weather"); reflexivity|].
    split; [exists (Lambda.JStr "stock"); reflexivity|].
    split; reflexivity. }
  split; [exact H200|].
  destruct (Hstored H200) as (wj & sj & Hw & Hs & Hweather & Hstock).
  assert (wj = Lambda.JStr "weather") as -> by (vm_compute in Hw; congruence).
  assert (sj = Lambda.JStr "stock") as -> by (vm_compute in Hs; congruence).
  split; [exact Hweather|exact Hstock].
Defined.

Lemma lambda_handler_store_failure :
  ∃ resp w',
    Lambda.lambda_handler Lambda.JNull Lambda.JNull
      (lambda_world [None; Some (Exception "AccessDenied")])
    = (Ok resp, w')
    ∧ Lambda.statusCode resp = 500
    ∧ Lambda.body resp
      = Lambda.Dumps (Lambda.JObj
          [("message"%string, Lambda.JStr "Error in Lambda");
           ("error"%string, Lambda.JStr "AccessDenied")]).
Proof. eexists _, _. split; [vm_compute; reflexivity|]. split; reflexivity. Qed.

(** * etl/create_ultimate_dataset.py: the prepared stock frame *)

Section prepared_stock_frame.
Import Ultimate.

Lemma prepare_stock_sorted_rows (stock_data : list stock_row) :
  map stock (prepare_stock_data_with_metrics stock_data)
  = sort_values le_ticker_date (filter (λ r, has_labels r = true) stock_data).
Proof.
  transitivity (map (λ p : stock_row * fl * root, p.1.1)
                  (map (λ m, (stock m, Return m, Volatility_7 m))
                     (prepare_stock_data_with_metrics stock_data))).
  { by rewrite map_map. }
  rewrite prepare_stock_columns.
  rewrite <-(map_map fst fst), !fst_zip; [done|..].
  - rewrite length_transform. lia.
  - rewrite length_transform, !length_zip_with, !length_transform. lia.
Qed.

(** X1: [prepare_stock_data_with_metrics] keeps exactly the rows that carry
    sector, industry and company name, each once, and returns them in
    (ticker, date) order. *)
Theorem prepared_stock_rows_sorted (stock_data : list stock_row) :
  let out := prepare_stock_data_with_metrics stock_data in
  map stock out ≡ₚ filter (λ r, has_labels r = true) stock_data
  ∧ StronglySorted (λ r1 r2, le_ticker_date r1 r2 = true) (map stock out)
  ∧ Forall (λ m, has_labels (stock m) = true) out.
Proof.
  intros out. unfold out. rewrite prepare_stock_sorted_rows.
  split; [apply sort_values_perm|]. split.
  - apply sort_values_sorted.
    + apply le_ticker_date_total.
    + apply le_ticker_date_trans.
  - apply Forall_forall. intros m Hm.
    assert (stock m ∈ map stock (prepare_stock_data_with_metrics stock_data))
      as Hin by (apply list_elem_of_fmap; by exists m).
    rewrite prepare_stock_sorted_rows in Hin.
    apply elem_of_sort_values, list_elem_of_filter in Hin. by destruct Hin.
Qed.

Lemma pct_change_head (xs : list fl) (v : fl) :
  pct_change xs !! 0%nat = Some v → v = NaN.
Proof.
  destruct xs as [|x xs]; [done|].
  unfold pct_change, ffill, shift1. simpl. intros [= <-].
  by destruct (if isna x then NaN else x).
Qed.

Lemma returns_of_group (stock_data : list stock_row) (t : string) :
  map Return
    (get_group (λ m, ticker (stock m)) t
       (prepare_stock_data_with_metrics stock_data))
  = pct_change
      (map close
         (sort_values le_ticker_date
            (filter (λ r, has_labels r = true)
               (get_group ticker t stock_data)))).
Proof.
  transitivity (map (λ p : stock_row * fl * root, p.1.2)
                  (map (λ m, (stock m, Return m, Volatility_7 m))
                     (get_group (λ m, ticker (stock m)) t
                        (prepare_stock_data_with_metrics stock_data)))).
  { by rewrite map_map. }
  pose proof (prepare_stock_group stock_data t) as H. cbv zeta in H.
  rewrite H.
  rewrite <-(map_map fst snd), fst_zip, snd_zip; [done|..].
  - rewrite length_pct_change, length_map. lia.
  - rewrite length_rolling_std, length_zip_with, length_pct_change, length_map.
    lia.
Qed.

(** X2: the daily return of [prepare_stock_data_with_metrics] is missing on
    the first row of every ticker; where the ticker's close prices are numeric
    and nonzero it is missing on that row only. *)
Theorem first_return_of_ticker_missing (stock_data : list stock_row)
    (t : string) :
  let returns :=
    map Return
      (get_group (λ m, ticker (stock m)) t
         (prepare_stock_data_with_metrics stock_data)) in
  (∀ v, returns !! 0%nat = Some v → v = NaN)
  ∧ ((∀ r, r ∈ stock_data → ticker r = t → priced (close r)) →
     ∀ k v, returns !! k = Some v → (v = NaN ↔ k = 0%nat)).
Proof.
  intros returns. unfold returns. rewrite returns_of_group.
  split; [apply pct_change_head|].
  intros Hpriced k v.
  set (g := sort_values _ _).
  assert (Forall priced (map close g)) as Hg.
  { apply Forall_fmap, Forall_forall. intros r Hr. simpl.
    apply elem_of_sort_values, list_elem_of_filter in Hr as [_ Hr].
    apply list_elem_of_filter in Hr as [Ht Hr]. by apply Hpriced. }
  destruct (map close g) as [|x xs]; [done|].
  destruct (pct_change_priced x xs Hg) as (qs & -> & _).
  destruct k as [|k]; simpl.
  - intros [= <-]. done.
  - rewrite list_lookup_fmap. destruct (qs !! k); simpl; [|done].
    intros [= <-]. split; [done|lia].
Qed.

Lemma first_return_of_ticker_missing_witness :
  (∀ r, r ∈ stock_table_1 → ticker r = "AAA"%string → priced (close r))
  ∧ ∀ k v,
      map Return
        (get_group (λ m, ticker (stock m)) "AAA"%string
           (prepare_stock_data_with_metrics stock_table_1)) !! k = Some v →
      (v = NaN ↔ k = 0%nat).
Proof.
  assert (∀ r, r ∈ stock_table_1 → ticker r = "AAA"%string → priced (close r)) as H.
  { intros r Hr Ht. unfold stock_table_1, aaa_rows in Hr. simpl in Hr.
    repeat (apply elem_of_cons in Hr as [->|Hr]); try discriminate Ht;
      try (by eexists; split; [reflexivity|apply Qc_of_nonzero]).
    by apply elem_of_nil in Hr. }
  split; [exact H|].
  pose proof (first_return_of_ticker_missing stock_table_1 "AAA") as [_ Hrest].
  exact (Hrest H).
Defined.

(** A group-wise constant: every row gets the value of its group. *)
Lemma transform_replicate {A K B : Type} `{EqDecision K} (key : A → K)
    (h : list A → B) (dflt : B) (l : list A) :
  transform key (λ g, replicate (length g) (h g)) dflt l
  = map (λ x, h (get_group key (key x) l)) l.
Proof.
  unfold transform. apply list_eq. intros i.
  rewrite list_lookup_imap, list_lookup_fmap.
  destruct (l !! i) as [x|] eqn:Hx; [|done]. simpl. f_equal.
  rewrite lookup_replicate_2; [done|].
  rewrite <-(take_drop_middle l i x Hx) at 2.
  unfold get_group. rewrite filter_app, filter_cons_True by done.
  rewrite length_app. simpl. lia.
Qed.

Lemma stock_and_count_columns (l : list stock_row) (returns : list fl)
    (volatility : list root) (c : stock_row → nat) :
  length returns = length l → length volatility = length l →
  map (λ m, (stock m, num_stocks m))
    (zip_with (λ (p : stock_row * fl * root) n,
         {| stock := p.1.1;
            Return := p.1.2;
            price_range := fsub (high p.1.1) (low p.1.1);
            price_change := fsub (close p.1.1) (open p.1.1);
            price_change_pct :=
              fmul (fdiv (fsub (close p.1.1) (open p.1.1)) (open p.1.1))
                (Num (Qc_of 100));
            Volatility_7 := p.2;
            num_stocks := n |})
       (zip (zip l returns) volatility) (map c l))
  = map (λ r, (r, c r)) l.
Proof.
  revert returns volatility.
  induction l as [|r l IH]; intros [|ret rets] [|v vs] ??;
    simplify_eq/=; [done|].
  f_equal. by apply IH.
Qed.

Lemma num_stocks_column (stock_data : list stock_row) :
  let l := sort_values le_ticker_date
             (filter (λ r, has_labels r = true) stock_data) in
  map (λ m, (stock m, num_stocks m)) (prepare_stock_data_with_metrics stock_data)
  = map (λ r, (r, length (get_group date (date r) l))) l.
Proof.
  intros l. rewrite prepare_stock_rows. fold l.
  rewrite (transform_replicate date length).
  apply (stock_and_count_columns l _ _
           (λ r, length (get_group date (date r) l))).
  - by rewrite length_transform.
  - rewrite length_transform, length_zip_with, length_transform. lia.
Qed.

(** X3: [num_stocks] is the number of rows of the prepared frame on the date
    of the row, that is, of the input rows on that date that carry sector,
    industry and company name. *)
Theorem num_stocks_counts_labelled_rows (stock_data : list stock_row)
    (m : metrics_row) :
  m ∈ prepare_stock_data_with_metrics stock_data →
  num_stocks m
  = length (filter (λ r, has_labels r = true ∧ date r = date (stock m))
              stock_data)
  ∧ (1 ≤ num_stocks m)%nat.
Proof.
  intros Hm.
  assert ((stock m, num_stocks m)
          ∈ map (λ m, (stock m, num_stocks m))
              (prepare_stock_data_with_metrics stock_data)) as Hin
    by (apply list_elem_of_fmap; by exists m).
  rewrite num_stocks_column in Hin.
  apply list_elem_of_fmap in Hin as (r & [= Hr Hn] & Hin).
  rewrite Hn, Hr. clear Hn.
  assert (length (get_group date (date r)
                    (sort_values le_ticker_date
                       (filter (λ r, has_labels r = true) stock_data)))
          = length (filter (λ r', has_labels r' = true ∧ date r' = date r)
                      stock_data)) as ->.
  { unfold get_group. rewrite sort_values_perm.
    rewrite list_filter_filter. f_equal.
    apply list_filter_iff. intros r'. tauto. }
  split; [done|].
  apply elem_of_sort_values, list_elem_of_filter in Hin as [Hl Hin].
  assert (r ∈ filter (λ r', has_labels r' = true ∧ date r' = date r) stock_data)
    as Hmem by (by apply list_elem_of_filter).
  destruct (filter _ stock_data); [by apply elem_of_nil in Hmem|simpl; lia].
Qed.

Lemma num_stocks_counts_labelled_rows_witness :
  ∃ m, m ∈ prepare_stock_data_with_metrics stock_table_1
       ∧ date (stock m) = 0 ∧ num_stocks m = 2%nat.
Proof.
  assert (∃ m, prepare_stock_data_with_metrics stock_table_1 !! 0%nat = Some m
               ∧ date (stock m) = 0) as (m & Hm & Hd).
  { eexists. split; [vm_compute; reflexivity|reflexivity]. }
  exists m. assert (m ∈ prepare_stock_data_with_metrics stock_table_1) as Hin
    by (by eapply list_elem_of_lookup_2).
  split; [exact Hin|]. split; [exact Hd|].
  destruct (num_stocks_counts_labelled_rows stock_table_1 m Hin) as [-> _].
  rewrite Hd. vm_compute. reflexivity.
Defined.

End prepared_stock_frame.

(** * src/etl/create_final_dataset.py: the daily frames *)

Section daily_frames.
Import Final.

Lemma stock_metrics_rows (stock_data : list stock_row) :
  map stock (stock_metrics stock_data)
  = sort_values le_ticker_date (filter (λ r, has_labels r = true) stock_data).
Proof.
  transitivity (map fst (map (λ p, (stock p, daily_return p))
                           (stock_metrics stock_data))).
  { by rewrite map_map. }
  rewrite stock_metrics_columns, fst_zip; [done|].
  rewrite length_transform. lia.
Qed.

Lemma elem_of_stock_metrics (stock_data : list stock_row) (r : stock_row) :
  (∃ p, p ∈ stock_metrics stock_data ∧ stock p = r)
  ↔ r ∈ stock_data ∧ has_labels r = true.
Proof.
  transitivity (r ∈ map stock (stock_metrics stock_data)).
  { rewrite list_elem_of_fmap. split.
    - intros (p & Hp & <-). by exists p.
    - intros (p & -> & Hp). by exists p. }
  rewrite stock_metrics_rows, elem_of_sort_values, list_elem_of_filter.
  tauto.
Qed.

Section aggregate.
Context (label_of : stock_row → option string) (rows : list priced_row).

Let labelled : list (string * priced_row) :=
  omap (λ r, (λ s, (s, r)) <$> label_of (stock r)) rows.
Let key (p : string * priced_row) : Z * string := (date (stock p.2), p.1).

Lemma aggregate_daily_keys :
  map (λ d, (d_date d, label d)) (aggregate_daily label_of rows)
  = sort_values le_date_str (remove_dups (map key labelled)).
Proof.
  unfold aggregate_daily. fold labelled. rewrite !map_map.
  etrans; [|apply map_id]. apply map_ext. by intros [d s].
Qed.

Lemma aggregate_daily_counts :
  map num_stocks (aggregate_daily label_of rows)
  = map (λ k, length (get_group key k labelled))
      (sort_values le_date_str (remove_dups (map key labelled))).
Proof.
  unfold aggregate_daily. fold labelled. rewrite !map_map.
  apply map_ext. by intros [d s].
Qed.

Lemma elem_of_aggregate_daily_keys (d : Z) (s : string) :
  (d, s) ∈ map (λ d, (d_date d, label d)) (aggregate_daily label_of rows)
  ↔ ∃ r, r ∈ rows ∧ date (stock r) = d ∧ label_of (stock r) = Some s.
Proof.
  rewrite aggregate_daily_keys, elem_of_sort_values, elem_of_remove_dups.
  rewrite list_elem_of_fmap. unfold labelled. split.
  - intros ([s' r] & [= -> ->] & Hin).
    apply list_elem_of_omap in Hin as (r' & Hr' & Hl).
    destruct (label_of (stock r')) as [s''|] eqn:E; simplify_eq/=.
    by exists r.
  - intros (r & Hr & <- & Hl). exists (s, r). split; [done|].
    apply list_elem_of_omap. exists r. by rewrite Hl.
Qed.

Lemma aggregate_daily_keys_NoDup :
  NoDup (map (λ d, (d_date d, label d)) (aggregate_daily label_of rows)).
Proof.
  rewrite aggregate_daily_keys, sort_values_perm. apply NoDup_remove_dups.
Qed.

Lemma aggregate_daily_keys_sorted :
  StronglySorted (λ k1 k2, le_date_str k1 k2 = true)
    (map (λ d, (d_date d, label d)) (aggregate_daily label_of rows)).
Proof.
  rewrite aggregate_daily_keys. apply sort_values_sorted.
  - apply le_date_str_total.
  - apply le_date_str_trans.
Qed.
Lemma aggregate_daily_count_pos (d : daily_row) :
  d ∈ aggregate_daily label_of rows → (1 ≤ num_stocks d)%nat.
Proof.
  unfold aggregate_daily. fold labelled. rewrite map_map.
  intros (k & -> & Hk)%list_elem_of_fmap. simpl.
  apply elem_of_sort_values, elem_of_remove_dups, list_elem_of_fmap in Hk
    as (p & -> & Hp).
  assert (p ∈ get_group (λ p : string * priced_row, (date (stock p.2), p.1))
                (date (stock p.2), p.1) labelled) as Hin
    by (by apply list_elem_of_filter).
  destruct (get_group _ _ labelled); [by apply elem_of_nil in Hin|simpl; lia].
Qed.
End aggregate.

(** X4: [sector_daily] and [industry_daily] hold one row per (date, sector)
    and per (date, industry) pair, in ascending order of the pair; a pair is
    there exactly when some stock row with sector and industry carries it. *)
Theorem daily_frames_keyed_by_date_and_label (stock_data : list stock_row) :
  let keys (frame : list daily_row) := map (λ d, (d_date d, label d)) frame in
  let sector_daily := (prepare_stock_data stock_data).1 in
  let industry_daily := (prepare_stock_data stock_data).2 in
  (NoDup (keys sector_daily)
   ∧ StronglySorted (λ k1 k2, le_date_str k1 k2 = true) (keys sector_daily)
   ∧ ∀ d s, (d, s) ∈ keys sector_daily
            ↔ ∃ r, r ∈ stock_data ∧ has_labels r = true
                   ∧ date r = d ∧ sector r = Some s)
  ∧ (NoDup (keys industry_daily)
     ∧ StronglySorted (λ k1 k2, le_date_str k1 k2 = true) (keys industry_daily)
     ∧ ∀ d s, (d, s) ∈ keys industry_daily
              ↔ ∃ r, r ∈ stock_data ∧ has_labels r = true
                     ∧ date r = d ∧ industry r = Some s).
Proof.
  intros keys sector_daily industry_daily.
  unfold keys, sector_daily, industry_daily, prepare_stock_data. simpl.
  split; (split; [apply aggregate_daily_keys_NoDup|];
          split; [apply aggregate_daily_keys_sorted|]);
    intros d s; rewrite elem_of_aggregate_daily_keys; split.
  - intros (p & Hp & Hd & Hs). exists (stock p). split_and!; try done;
      apply (elem_of_stock_metrics stock_data); by exists p.
  - intros (r & Hr & Hl & Hd & Hs).
    destruct (proj2 (elem_of_stock_metrics stock_data r)) as (p & Hp & <-);
      [done|]. by exists p.
  - intros (p & Hp & Hd & Hs). exists (stock p). split_and!; try done;
      apply (elem_of_stock_metrics stock_data); by exists p.
  - intros (r & Hr & Hl & Hd & Hs).
    destruct (proj2 (elem_of_stock_metrics stock_data r)) as (p & Hp & <-);
      [done|]. by exists p.
Qed.

(** Every row belongs to the group of exactly one key. *)
Lemma sum_group_lengths_cons {A K : Type} `{EqDecision K} (key : A → K)
    (x : A) (l : list A) (ks : list K) :
  NoDup ks →
  sum_list (map (λ k, length (get_group key k (x :: l))) ks)
  = ((if bool_decide (key x ∈ ks) then 1 else 0)
     + sum_list (map (λ k, length (get_group key k l)) ks))%nat.
Proof.
  unfold get_group. induction 1 as [|k ks Hk Hks IH]; [done|].
  cbn [map sum_list_with id]. rewrite IH, filter_cons.
  destruct (decide (key x = k)) as [->|Hne].
  - rewrite (bool_decide_false (k ∈ ks)) by done.
    rewrite bool_decide_true by (by left). simpl. lia.
  - rewrite (bool_decide_ext (key x ∈ k :: ks) (key x ∈ ks)); [lia|].
    rewrite elem_of_cons. tauto.
Qed.

Lemma sum_group_lengths {A K : Type} `{EqDecision K} (key : A → K)
    (l : list A) (ks : list K) :
  NoDup ks → (∀ x, x ∈ l → key x ∈ ks) →
  sum_list (map (λ k, length (get_group key k l)) ks) = length l.
Proof.
  intros Hks. induction l as [|x l IH]; intros Hcover.
  - unfold get_group. simpl. clear. induction ks; simpl; auto.
  - rewrite sum_group_lengths_cons by done.
    rewrite IH by (intros y Hy; apply Hcover; by right).
    rewrite bool_decide_true by (apply Hcover; by left). done.
Qed.

Lemma aggregate_daily_total (label_of : stock_row → option string)
    (rows : list priced_row) :
  (∀ r, r ∈ rows → is_Some (label_of (stock r))) →
  sum_list (map num_stocks (aggregate_daily label_of rows)) = length rows.
Proof.
  intros Hall. rewrite aggregate_daily_counts.
  rewrite sum_group_lengths.
  - clear -Hall. induction rows as [|r rows IH]; [done|].
    cbn [omap list_omap].
    destruct (Hall r) as [s Hs]; [by left|]. rewrite Hs. simpl.
    f_equal. apply IH. intros r' Hr'. apply Hall. by right.
  - rewrite sort_values_perm. apply NoDup_remove_dups.
  - intros x Hx. apply elem_of_sort_values, elem_of_remove_dups.
    apply list_elem_of_fmap. by exists x.
Qed.

(** X5: every stock row that carries sector and industry is counted in
    exactly one row of [sector_daily] and in exactly one row of
    [industry_daily]: the counts [num_stocks_in_sector] add up to the number
    of these rows, and so do the counts [num_stocks_in_industry]; no row of
    either frame has a count of zero. *)
Theorem daily_counts_add_up (stock_data : list stock_row) :
  let labelled := filter (λ r, has_labels r = true) stock_data in
  let sector_daily := (prepare_stock_data stock_data).1 in
  let industry_daily := (prepare_stock_data stock_data).2 in
  sum_list (map num_stocks sector_daily) = length labelled
  ∧ sum_list (map num_stocks industry_daily) = length labelled
  ∧ Forall (λ d, 1 ≤ num_stocks d)%nat (sector_daily ++ industry_daily).
Proof.
  intros labelled sector_daily industry_daily.
  assert (length (stock_metrics stock_data) = length labelled) as Hlen.
  { rewrite <-(length_map stock), stock_metrics_rows. apply length_sort_values. }
  assert (∀ p, p ∈ stock_metrics stock_data → has_labels (stock p) = true)
    as Hlab.
  { intros p Hp. apply (elem_of_stock_metrics stock_data). by exists p. }
  unfold sector_daily, industry_daily, prepare_stock_data. simpl.
  split; [|split].
  - rewrite aggregate_daily_total; [done|].
    intros p Hp. specialize (Hlab p Hp). unfold has_labels in Hlab.
    apply andb_true_iff in Hlab as [H _]. by apply bool_decide_eq_true in H.
  - rewrite aggregate_daily_total; [done|].
    intros p Hp. specialize (Hlab p Hp). unfold has_labels in Hlab.
    apply andb_true_iff in Hlab as [_ H]. by apply bool_decide_eq_true in H.
  - apply Forall_app. split; apply Forall_forall; intros d Hd.
    + apply (aggregate_daily_count_pos sector _ d Hd).
    + apply (aggregate_daily_count_pos industry _ d Hd).
Qed.

End daily_frames.

(** * src/etl/create_final_dataset.py: the analysis frame, the merge and the
    statistics *)

Lemma ffill_from_isna (prev : fl) (xs : list fl) (k : nat) (y : fl) :
  ffill_from prev xs !! k = Some y →
  isna y = true
  ↔ isna prev = true
    ∧ ∀ j x, (j ≤ k)%nat → xs !! j = Some x → isna x = true.
Proof.
  revert prev k. induction xs as [|x xs IH]; intros prev k; [done|].
  destruct k as [|k]; simpl.
  - intros [= <-]. split.
    + destruct (isna x) eqn:Hx; [|by rewrite Hx].
      intros Hp. split; [done|]. intros [|j] x' Hj; [|lia].
      by intros [= <-].
    + intros [Hp Hall]. rewrite (Hall 0%nat x) by (done || lia). done.
  - intros Hy. rewrite (IH _ _ Hy). split.
    + intros [Hy0 Hall]. destruct (isna x) eqn:Hx.
      * split; [done|]. intros [|j] x' Hj; simpl.
        -- by intros [= <-].
        -- apply Hall. lia.
      * by rewrite Hx in Hy0.
    + intros [Hp Hall]. rewrite (Hall 0%nat x) by (done || lia).
      split; [done|]. intros j x' Hj Hx'. apply (Hall (S j)); [lia|done].
Qed.

Lemma ffill_from_keeps (prev : fl) (xs : list fl) (k : nat) (x : fl) :
  xs !! k = Some x → isna x = false → ffill_from prev xs !! k = Some x.
Proof.
  revert prev k. induction xs as [|x' xs IH]; intros prev [|k]; simpl; try done.
  - intros [= ->] ->. done.
  - apply IH.
Qed.

Section final_frames.
Import Final.

Lemma prepare_analysis_lookup (analysis_data : list analysis_row) (k : nat)
    (a : analysis_row) :
  prepare_analysis_data analysis_data !! k = Some a →
  ∃ a' dep,
    analysis_data !! k = Some a'
    ∧ ffill (map depression_index analysis_data) !! k = Some dep
    ∧ a_date a = a_date a'
    ∧ depression_index a = dep
    ∧ depression_word_count a = fillna (Num 0%Qc) (depression_word_count a')
    ∧ total_articles a = fillna (Num 0%Qc) (total_articles a')
    ∧ avg_depression_per_article a
      = fillna (Num 0%Qc) (avg_depression_per_article a').
Proof.
  unfold prepare_analysis_data. rewrite lookup_zip_with.
  destruct (analysis_data !! k) as [a'|]; [|done]. simpl.
  destruct (ffill _ !! k) as [dep|]; [|done]. simpl.
  intros [= <-]. by exists a', dep.
Qed.

Lemma fillna_notna (x : fl) : isna (fillna (Num 0%Qc) x) = false.
Proof. by destruct x. Qed.

(** X6: [prepare_analysis_data] keeps the rows and their dates; in its frame
    the word count, the article count and the average per article are never
    missing; the depression index of a row is the one read when it was
    present, and is missing exactly when it is missing on that row and on all
    rows before it. *)
Theorem analysis_gaps_filled (analysis_data : list analysis_row) :
  let out := prepare_analysis_data analysis_data in
  map a_date out = map a_date analysis_data
  ∧ Forall (λ a, isna (depression_word_count a) = false
                 ∧ isna (total_articles a) = false
                 ∧ isna (avg_depression_per_article a) = false) out
  ∧ ∀ k a a', out !! k = Some a → analysis_data !! k = Some a' →
      (isna (depression_index a') = false →
       depression_index a = depression_index a')
      ∧ (isna (depression_index a) = true
         ↔ ∀ j b, (j ≤ k)%nat → analysis_data !! j = Some b →
                  isna (depression_index b) = true).
Proof.
  intros out. unfold out. split; [|split].
  - apply list_eq. intros k. rewrite !list_lookup_fmap.
    destruct (prepare_analysis_data analysis_data !! k) as [a|] eqn:Ha.
    + apply prepare_analysis_lookup in Ha
        as (a' & dep & -> & _ & Hd & _). simpl. by rewrite Hd.
    + apply lookup_ge_None in Ha. unfold prepare_analysis_data in Ha.
      rewrite length_zip_with, length_ffill, length_map in Ha.
      rewrite lookup_ge_None_2; [done|lia].
  - apply Forall_forall. intros a Ha.
    apply list_elem_of_lookup in Ha as [k Ha].
    apply prepare_analysis_lookup in Ha
      as (a' & dep & _ & _ & _ & _ & -> & -> & ->).
    by rewrite !fillna_notna.
  - intros k a a' Ha Ha'.
    apply prepare_analysis_lookup in Ha
      as (a'' & dep & Ha'' & Hdep & _ & -> & _).
    assert (a'' = a') as -> by congruence. split.
    + intros Hna. unfold ffill in Hdep.
      rewrite (ffill_from_keeps NaN _ k (depression_index a')) in Hdep;
        [congruence| |done].
      by rewrite list_lookup_fmap, Ha'.
    + unfold ffill in Hdep. rewrite (ffill_from_isna _ _ _ _ Hdep). split.
      * intros [_ Hall] j b Hj Hb. apply (Hall j); [done|].
        by rewrite list_lookup_fmap, Hb.
      * intros Hall. split; [done|]. intros j x Hj Hx.
        rewrite list_lookup_fmap in Hx.
        destruct (analysis_data !! j) as [b|] eqn:Hb; [|done].
        simpl in Hx. injection Hx as <-. by apply (Hall j).
Qed.

(** X7: [create_final_datasets] pairs a daily row with an analysis row exactly
    when the two carry the same date: a date that one of the two frames lacks
    gives no row, and a date the analysis frame carries twice gives two. *)
Theorem final_rows_pair_equal_dates
    (sector_daily industry_daily : list daily_row)
    (analysis_data : list analysis_row) (d : daily_row) (a : analysis_row) :
  let finals := create_final_datasets sector_daily industry_daily analysis_data in
  ((∃ r, r ∈ finals.1 ∧ daily r = d ∧ analysis r = a)
   ↔ d ∈ sector_daily ∧ a ∈ analysis_data ∧ d_date d = a_date a)
  ∧ ((∃ r, r ∈ finals.2 ∧ daily r = d ∧ analysis r = a)
     ↔ d ∈ industry_daily ∧ a ∈ analysis_data ∧ d_date d = a_date a).
Proof.
  assert (∀ daily_rows,
            (∃ r, r ∈ merge_with_analysis daily_rows analysis_data
                  ∧ daily r = d ∧ analysis r = a)
            ↔ d ∈ daily_rows ∧ a ∈ analysis_data ∧ d_date d = a_date a) as H.
  { intros daily_rows. unfold merge_with_analysis. split.
    - intros (r & Hr & <- & <-).
      apply list_elem_of_fmap in Hr as ([d a] & -> & Hin).
      apply elem_of_merge_inner in Hin as (? & ? & ?). simpl in *. done.
    - intros (Hd & Ha & Heq). eexists. split.
      + apply list_elem_of_fmap. exists (d, a). split; [reflexivity|].
        by apply elem_of_merge_inner.
      + done. }
  intros finals. split; apply H.
Qed.

Lemma head_get_group {A K : Type} `{EqDecision K} (key : A → K) (k : K)
    (l : list A) :
  k ∈ map key l →
  ∃ pre r suf,
    l = pre ++ r :: suf ∧ key r = k ∧ Forall (λ x, key x ≠ k) pre
    ∧ head (get_group key k l) = Some r.
Proof.
  unfold get_group. induction l as [|x l IH]; [by intros ?%elem_of_nil|].
  simpl. rewrite filter_cons. destruct (decide (key x = k)) as [Hx|Hx].
  - intros _. by exists [], x, l.
  - intros [?|Hin]%elem_of_cons; [done|].
    destruct (IH Hin) as (pre & r & suf & -> & Hr & Hpre & Hhead).
    exists (x :: pre), r, suf. split_and!; try done. by constructor.
Qed.

(** X8: the summary statistics hold one row per sector (per industry) of the
    final frame, in ascending order of the name; the count
    [num_stocks_in_sector_first] of a row is the count of the first row of
    that sector in the final frame. *)
Theorem statistics_one_row_per_label (final : list final_row) :
  let stats := calculate_statistics final in
  NoDup (map s_label stats)
  ∧ StronglySorted (λ s1 s2, String.leb s1 s2 = true) (map s_label stats)
  ∧ (∀ s, s ∈ map s_label stats ↔ ∃ r, r ∈ final ∧ label (daily r) = s)
  ∧ ∀ st, st ∈ stats →
      ∃ pre r suf,
        final = pre ++ r :: suf
        ∧ label (daily r) = s_label st
        ∧ Forall (λ r', label (daily r') ≠ s_label st) pre
        ∧ num_stocks_first st = num_stocks (daily r).
Proof.
  intros stats.
  assert (map s_label stats
          = sort_values String.leb
              (remove_dups (map (λ r, label (daily r)) final))) as Hkeys.
  { unfold stats, calculate_statistics. rewrite map_map. simpl. apply map_id. }
  rewrite Hkeys. split_and!.
  - rewrite sort_values_perm. apply NoDup_remove_dups.
  - apply sort_values_sorted.
    + intros x y. apply String.leb_total.
    + apply string_leb_trans.
  - intros s. rewrite elem_of_sort_values, elem_of_remove_dups.
    rewrite list_elem_of_fmap. split.
    + intros (r & -> & Hr). by exists r.
    + intros (r & Hr & <-). by exists r.
  - intros st Hst. unfold stats, calculate_statistics in Hst.
    apply list_elem_of_fmap in Hst as (k & -> & Hk). simpl.
    rewrite elem_of_sort_values, elem_of_remove_dups in Hk.
    destruct (head_get_group (λ r, label (daily r)) k final Hk)
      as (pre & r & suf & Hfinal & Hr & Hpre & Hhead).
    exists pre, r, suf. split_and!; try done.
    destruct (get_group _ k final) as [|r0 g]; [done|].
    simpl in *. by injection Hhead as ->.
Qed.

End final_frames.

(** * src/etl/create_final_dataset.py: what a run reads and writes *)

Section final_run.
Import Final.

Lemma lookup_save_other (p : string) (sf inf : list final_row)
    (ss is_ : list stats_row) (fs : gmap string csv) :
  p ∉ final_output_paths →
  save_final_datasets sf inf ss is_ fs !! p = fs !! p.
Proof.
  intros Hp. unfold save_final_datasets, final_output_paths in *.
  rewrite !not_elem_of_cons in Hp. destruct Hp as (? & ? & ? & ? & _).
  by rewrite !lookup_insert_ne.
Qed.

(** X9: a run of [main] that succeeds writes the two final frames and the two
    statistics frames under [Data/final] and leaves every other file,
    the three inputs among them, as it was. *)
Theorem main_writes_the_four_outputs_only (fs fs' : gmap string csv) :
  main fs = Ok fs' →
  (∀ p, p ∉ final_output_paths → fs' !! p = fs !! p)
  ∧ ∃ sector_final industry_final sector_stats industry_stats,
      fs' !! "Data/final/sector_daily_analysis.csv"%string
      = Some (FinalCsv sector_final)
      ∧ fs' !! "Data/final/industry_daily_analysis.csv"%string
        = Some (FinalCsv industry_final)
      ∧ fs' !! "Data/final/sector_summary_statistics.csv"%string
        = Some (StatsCsv sector_stats)
      ∧ fs' !! "Data/final/industry_summary_statistics.csv"%string
        = Some (StatsCsv industry_stats)
      ∧ sector_stats = calculate_sector_statistics sector_final
      ∧ industry_stats = calculate_industry_statistics industry_final.
Proof.
  intros (s & a & sp & Hs & Ha & Hsp & Hstats & ->)%main_Ok. split.
  - intros p Hp. by apply lookup_save_other.
  - unfold final_outputs, save_final_datasets. do 4 eexists.
    split_and!; [..|reflexivity|reflexivity].
    + rewrite !lookup_insert_ne by done. by rewrite lookup_insert_eq.
    + rewrite !lookup_insert_ne by done. by rewrite lookup_insert_eq.
    + rewrite !lookup_insert_ne by done. by rewrite lookup_insert_eq.
    + by rewrite lookup_insert_eq.
Qed.

Lemma main_writes_the_four_outputs_only_witness :
  main exports_store = Ok final_store
  ∧ ∀ p, p ∉ final_output_paths → final_store !! p = exports_store !! p.
Proof.
  assert (main exports_store = Ok final_store) as H1.
  { apply main_Ok. exists stock_table_1, analysis_table, OtherCsv.
    split; [vm_compute; reflexivity|].
    split; [vm_compute; reflexivity|].
    split; [vm_compute; reflexivity|].
    split; [exact final_sector_stats_test|reflexivity]. }
  split; [exact H1|].
  pose proof (main_writes_the_four_outputs_only exports_store final_store H1)
    as H.
  destruct H as [Hother _]. exact Hother.
Defined.



End final_run.

(** * etl/create_ultimate_dataset.py: the merged frame *)

Section ultimate_frame.
Import Ultimate.

Lemma StronglySorted_map {A B : Type} (R : B → B → Prop) (f : A → B)
    (l : list A) :
  StronglySorted (λ x y, R (f x) (f y)) l → StronglySorted R (map f l).
Proof.
  induction 1 as [|x l Hl IH Hx]; simpl; constructor; [done|].
  by apply Forall_fmap.
Qed.

(** X11: the ultimate data set comes out in ascending (date, ticker) order,
    and it holds a row for a prepared stock row and an analysis row exactly
    when the two carry the same date. *)
Theorem ultimate_dataset_sorted_join (stock_data : list metrics_row)
    (analysis_data : list analysis_clean_row) :
  let ultimate := create_ultimate_dataset stock_data analysis_data in
  StronglySorted (λ k1 k2, le_date_str k1 k2 = true)
    (map (λ u, (u_date u, u_ticker u)) ultimate)
  ∧ ∀ d t, (d, t) ∈ map (λ u, (u_date u, u_ticker u)) ultimate
           ↔ ∃ m a, m ∈ stock_data ∧ a ∈ analysis_data
                    ∧ date (stock m) = d ∧ ticker (stock m) = t
                    ∧ c_date a = d.
Proof.
  intros ultimate. split.
  - unfold ultimate, create_ultimate_dataset. rewrite map_map.
    rewrite (map_ext _ (λ p : metrics_row * analysis_clean_row,
                          (date (stock p.1), ticker (stock p.1))))
      by (by intros [??]).
    apply (StronglySorted_map (λ k1 k2, le_date_str k1 k2 = true)
             (λ p : metrics_row * analysis_clean_row,
                (date (stock p.1), ticker (stock p.1)))).
    apply (sort_values_sorted
             (λ p1 p2 : metrics_row * analysis_clean_row,
                le_date_str (date (stock p1.1), ticker (stock p1.1))
                            (date (stock p2.1), ticker (stock p2.1)))).
    + intros p1 p2. apply le_date_str_total.
    + intros p1 p2 p3. apply le_date_str_trans.
  - intros d t. unfold ultimate. rewrite create_ultimate_keys.
    rewrite list_elem_of_fmap. split.
    + intros ([m a] & [= -> ->] & Hin).
      apply elem_of_merge_inner in Hin as (Hm & Ha & Hk). simpl in *.
      by exists m, a.
    + intros (m & a & Hm & Ha & <- & <- & Hk). exists (m, a).
      split; [done|]. by apply elem_of_merge_inner.
Qed.

End ultimate_frame.

(** * etl/04_load_to_rds.py: cleaning a frame *)

Section cleaning.
Import LoadToRds.
Context (repr_num : Qc → string) (to_datetime : column → result column).















End cleaning.


(** * etl/04_load_to_rds.py: the text of the schema *)

Section schema_text.
Import LoadToRds.
Context (repr_num : Qc → string).

Lemma foldr_max_le (n b : nat) (ns : list nat) :
  (foldr Nat.max n ns ≤ b)%nat ↔ (n ≤ b)%nat ∧ Forall (λ m, m ≤ b)%nat ns.
Proof.
  induction ns as [|m ns IH]; simpl.
  - split; [by intros ?|by intros [? _]].
  - rewrite Forall_cons, Nat.max_lub_iff, IH. tauto.
Qed.

Lemma foldr_max_ge (n m : nat) (ns : list nat) :
  m ∈ n :: ns → (m ≤ foldr Nat.max n ns)%nat.
Proof.
  intros [->|Hm]%elem_of_cons.
  - induction ns; simpl; lia.
  - induction ns as [|k ns IH]; [by apply elem_of_nil in Hm|].
    apply elem_of_cons in Hm as [->|Hm]; simpl; [lia|].
    specialize (IH Hm). lia.
Qed.

(** The type of a text column, by the longest [str] of its cells. *)
Lemma pg_type_object (vals : list obj) (lo hi : nat) :
  (∃ v, v ∈ vals ∧ lo < String.length (str_obj repr_num v))%nat →
  (∀ v, v ∈ vals → String.length (str_obj repr_num v) ≤ hi)%nat →
  ∃ longest,
    (lo < longest ≤ hi)%nat
    ∧ pg_type repr_num (ObjectColumn vals)
      = (if bool_decide (longest = 0)%nat then "TEXT"
         else if bool_decide (longest ≤ 50)%nat then "VARCHAR(100)"
         else if bool_decide (longest ≤ 255)%nat then "VARCHAR(500)"
         else "TEXT")%string.
Proof.
  intros (v & Hv & Hlo) Hhi. unfold pg_type. simpl.
  assert (String.length (str_obj repr_num v)
          ∈ map (λ v, String.length (str_obj repr_num v)) vals) as Hmem
    by (apply list_elem_of_fmap; by exists v).
  assert (Forall (λ m, m ≤ hi)%nat
            (map (λ v, String.length (str_obj repr_num v)) vals)) as Hall.
  { apply Forall_fmap, Forall_forall. intros x Hx. by apply Hhi. }
  destruct (map _ vals) as [|n ns]; [by apply elem_of_nil in Hmem|].
  pose proof (foldr_max_ge n _ ns Hmem) as Hge.
  assert (foldr Nat.max n ns ≤ hi)%nat as Hle.
  { apply foldr_max_le. by apply Forall_cons in Hall. }
  exists (foldr Nat.max n ns). split; [lia|done].
Qed.

(** X13: besides the numeric types, [create_table_schema] declares a datetime
    column TIMESTAMP and a boolean column BOOLEAN; a text column is declared
    VARCHAR(100) when the longest [str] of its cells has 1 to 50 characters,
    VARCHAR(500) when it has 51 to 255, and TEXT when the column has no rows
    or holds empty strings only. *)
Theorem create_table_schema_text_types (df : dataframe)
    (table_name col : string) (engine : unit) :
  let sql := create_table_schema repr_num df table_name engine in
  let longest_at_most (vals : list obj) (n : nat) :=
    ∀ v, v ∈ vals → (String.length (str_obj repr_num v) ≤ n)%nat in
  let some_longer_than (vals : list obj) (n : nat) :=
    ∃ v, v ∈ vals ∧ (n < String.length (str_obj repr_num v))%nat in
  (∀ vals, (col, DatetimeColumn vals) ∈ df → declares sql col "TIMESTAMP")
  ∧ (∀ vals, (col, BoolColumn vals) ∈ df → declares sql col "BOOLEAN")
  ∧ (∀ vals, (col, ObjectColumn vals) ∈ df →
       (longest_at_most vals 0%nat → declares sql col "TEXT")
       ∧ (some_longer_than vals 0%nat → longest_at_most vals 50%nat →
          declares sql col "VARCHAR(100)")
       ∧ (some_longer_than vals 50%nat → longest_at_most vals 255%nat →
          declares sql col "VARCHAR(500)")).
Proof.
  intros sql longest_at_most some_longer_than. unfold sql. split_and!.
  - intros vals Hin.
    by apply (create_table_schema_declares repr_num _ _ _ _ _ Hin).
  - intros vals Hin.
    by apply (create_table_schema_declares repr_num _ _ _ _ _ Hin).
  - intros vals Hin.
    pose proof (create_table_schema_declares repr_num _ table_name _ engine _ Hin)
      as Hd.
    split_and!.
    + intros H0.
      assert (pg_type repr_num (ObjectColumn vals) = "TEXT"%string) as <-;
        [|done].
      unfold pg_type. simpl.
      assert (Forall (λ m, m ≤ 0)%nat
                (map (λ v, String.length (str_obj repr_num v)) vals)) as Hall.
      { apply Forall_fmap, Forall_forall. intros x Hx. by apply H0. }
      destruct (map _ vals) as [|n ns]; [done|].
      rewrite bool_decide_true; [done|].
      apply Forall_cons in Hall as [? ?].
      assert (foldr Nat.max n ns ≤ 0)%nat; [by apply foldr_max_le|lia].
    + intros Hlo Hhi.
      destruct (pg_type_object vals 0%nat 50%nat Hlo Hhi) as (n & Hn & Hty).
      rewrite Hty in Hd. rewrite bool_decide_false in Hd by lia.
      by rewrite bool_decide_true in Hd by lia.
    + intros Hlo Hhi.
      destruct (pg_type_object vals 50%nat 255%nat Hlo Hhi) as (n & Hn & Hty).
      rewrite Hty in Hd. rewrite !bool_decide_false in Hd by lia.
      by rewrite bool_decide_true in Hd by lia.
Qed.

Lemma string_app_nil_r (s : string) : s +:+ EmptyString = s.
Proof. induction s as [|c s IH]; [done|]. by rewrite string_app_cons, IH. Qed.

(** The column lines of the statement, before the last comma is removed. *)
Lemma rstrip_column_lines (a : string) (df : dataframe) :
  df ≠ [] →
  rstrip [","%char; Ascii.ascii_of_nat 10]
    (a +:+ foldr (λ '(col, c) acc,
                    "    " +:+ col +:+ " " +:+ pg_type repr_num c +:+ ","
                      +:+ newline +:+ acc) EmptyString df)
  = a +:+ String.concat ("," +:+ newline)
            (map (λ '(col, c), column_line col (pg_type repr_num c)) df).
Proof.
  revert a. induction df as [|[col c] df IH]; intros a Hne; [done|].
  cbn [foldr map].
  assert (∀ acc, "    " +:+ col +:+ " " +:+ pg_type repr_num c +:+ ","
                   +:+ newline +:+ acc
                 = column_line col (pg_type repr_num c)
                     +:+ ("," +:+ newline) +:+ acc) as Hline.
  { intros acc. unfold column_line. by rewrite !string_app_assoc. }
  rewrite Hline. destruct df as [|[col' c'] df].
  - cbn [foldr map String.concat]. rewrite rstrip_app_keep.
    2:{ unfold column_line. do 3 apply ends_outside_app.
        apply pg_type_ends_outside. }
    assert (rstrip [","%char; Ascii.ascii_of_nat 10]
              (("," +:+ newline) +:+ EmptyString) = EmptyString) as ->
      by reflexivity.
    by rewrite string_app_nil_r.
  - rewrite <-!string_app_assoc. rewrite IH by done.
    cbn [map String.concat]. by rewrite !string_app_assoc.
Qed.

(** X14: the text of the statement.  For a frame with columns it is the
    header, one line per column in frame order, the lines separated by a
    comma and a line break with no comma after the last one, the closing
    parenthesis, and an index statement for each of [date], [sector] and
    [industry] that is a column; for a frame without columns the header is
    closed at once. *)
Theorem create_table_schema_text (df : dataframe) (table_name : string)
    (engine : unit) :
  let lines := map (λ '(col, c), column_line col (pg_type repr_num c)) df in
  let index_on (col : string) :=
    if bool_decide (col ∈ columns df) then create_index table_name col
    else EmptyString in
  create_table_schema repr_num df table_name engine
  = match df with
    | [] => "CREATE TABLE IF NOT EXISTS " +:+ table_name +:+ " (" +:+ newline
            +:+ ");"
    | _ :: _ =>
        ("CREATE TABLE IF NOT EXISTS " +:+ table_name +:+ " (" +:+ newline
         +:+ String.concat ("," +:+ newline) lines +:+ newline +:+ ");")
        +:+ index_on "date" +:+ index_on "sector" +:+ index_on "industry"
    end.
Proof.
  intros lines index_on. unfold create_table_schema.
  rewrite create_table_lines. destruct df as [|x df].
  - cbn [foldr columns map]. rewrite !bool_decide_false by set_solver.
    rewrite string_app_nil_r.
    assert ("CREATE TABLE IF NOT EXISTS " +:+ table_name +:+ " (" +:+ newline
            = ("CREATE TABLE IF NOT EXISTS " +:+ table_name)
                +:+ " (" +:+ newline) as -> by (by rewrite !string_app_assoc).
    rewrite rstrip_app_keep by reflexivity.
    assert (rstrip [","%char; Ascii.ascii_of_nat 10] newline = EmptyString)
      as -> by reflexivity.
    by rewrite string_app_nil_r, !string_app_assoc.
  - assert ((("CREATE TABLE IF NOT EXISTS " +:+ table_name +:+ " (" +:+ newline)
             +:+ foldr (λ '(col, c) acc,
                    "    " +:+ col +:+ " " +:+ pg_type repr_num c +:+ ","
                      +:+ newline +:+ acc) EmptyString (x :: df))
            = ("CREATE TABLE IF NOT EXISTS " +:+ table_name +:+ " (" +:+ newline)
               +:+ foldr (λ '(col, c) acc,
                    "    " +:+ col +:+ " " +:+ pg_type repr_num c +:+ ","
                      +:+ newline +:+ acc) EmptyString (x :: df)) as Hsame
      by reflexivity.
    rewrite rstrip_column_lines by done. fold lines.
    unfold index_on.
    repeat case_bool_decide;
      rewrite ?string_app_nil_r, ?string_app_assoc; reflexivity.
Qed.

End schema_text.

Lemma create_table_schema_text_types_witness :
  declares
    (LoadToRds.create_table_schema (λ _, "0"%string)
       [("name"%string,
         LoadToRds.ObjectColumn [LoadToRds.OStr "abc"; LoadToRds.ONone])]
       "labels" tt)
    "name" "VARCHAR(100)".
Proof.
  pose proof (create_table_schema_text_types (λ _, "0"%string)
    [("name"%string,
      LoadToRds.ObjectColumn [LoadToRds.OStr "abc"; LoadToRds.ONone])]
    "labels" "name" tt) as H.
  cbv zeta in H. destruct H as (_ & _ & H).
  destruct (H [LoadToRds.OStr "abc"; LoadToRds.ONone]) as (_ & Hshort & _).
  { constructor. }
  apply Hshort.
  - exists (LoadToRds.OStr "abc"). split; [constructor|]. simpl. lia.
  - intros v Hv.
    apply elem_of_cons in Hv as [->|Hv]; [simpl; lia|].
    apply elem_of_cons in Hv as [->|Hv]; [simpl; lia|].
    apply elem_of_nil in Hv. destruct Hv.
Defined.

(** * etl/04_load_to_rds.py: the tables an upload touches *)

Section upload_tables.
Import LoadToRds.
Context (repr_num : Qc → string) (to_datetime : column → result column).

(** X15: [drop_table_if_exists] never raises.  When the statement goes
    through the table is gone; when it fails the error is swallowed and the
    database is as before.  No other table and no file is touched. *)
Theorem drop_table_if_exists_swallows_errors (engine : unit)
    (table_name : string) (w : world) :
  ∃ w',
    drop_table_if_exists engine table_name w = (Ok tt, w')
    ∧ files w' = files w
    ∧ (∀ other, other ≠ table_name → tables w' !! other = tables w !! other)
    ∧ (planned (faults w) 0 = None → tables w' !! table_name = None)
    ∧ (∀ e, planned (faults w) 0 = Some e → tables w' = tables w).
Proof.
  destruct engine. rewrite drop_table_if_exists_planned.
  eexists. split; [reflexivity|]. cbn [files tables]. split_and!.
  - done.
  - intros other Hne. destruct (planned (faults w) 0); [done|].
    by rewrite lookup_delete_ne.
  - intros ->. by rewrite lookup_delete_eq.
  - by intros e ->.
Qed.

(** A step that leaves the table [other] alone. *)
Lemma other_bind {A B : Type} (other : string) (m : prog world A)
    (f : A → prog world B) :
  (∀ w, tables (m w).2 !! other = tables w !! other) →
  (∀ a w, tables (f a w).2 !! other = tables w !! other) →
  ∀ w, tables ((m ≫= f) w).2 !! other = tables w !! other.
Proof.
  intros Hm Hf w. unfold mbind, prog_bind.
  specialize (Hm w). destruct (m w) as [[a|e] w1]; simpl in *; [|done].
  by rewrite Hf.
Qed.

Lemma other_try_except {A : Type} (other : string) (m : prog world A)
    (h : exn → prog world A) :
  (∀ w, tables (m w).2 !! other = tables w !! other) →
  (∀ e w, tables (h e w).2 !! other = tables w !! other) →
  ∀ w, tables (try_except m h w).2 !! other = tables w !! other.
Proof.
  intros Hm Hh w. unfold try_except.
  specialize (Hm w). destruct (m w) as [[a|e] w1]; simpl in *; [done|].
  by rewrite Hh.
Qed.

Lemma other_to_sql (df : dataframe) (table_name other : string)
    (mode : if_exists_mode) (w : world) :
  other ≠ table_name →
  tables (to_sql df table_name tt mode w).2 !! other = tables w !! other.
Proof.
  intros Hne. revert w. unfold to_sql.
  apply other_bind; [intros w; by rewrite db_call_planned|].
  intros _. apply other_bind; [done|].
  assert (∀ d w, tables (modify (set_tables <[table_name:=d]>) w).2 !! other
                 = tables w !! other) as Hins.
  { intros d w. simpl. by rewrite lookup_insert_ne. }
  intros [t|] w; [|apply Hins]. destruct mode; [done|apply Hins|].
  revert w. apply other_bind; [done|]. intros t' w. apply Hins.
Qed.

(** X16: an upload touches no table but its own, and no file. *)
Theorem upload_touches_its_table_only (df : dataframe)
    (table_name other : string) (engine : unit) (mode : if_exists_mode)
    (w : world) :
  other ≠ table_name →
  let w' :=
    (upload_dataframe_to_rds repr_num to_datetime df table_name engine mode
       w).2 in
  tables w' !! other = tables w !! other ∧ files w' = files w.
Proof.
  intros Hne w'. unfold w'. clear w'. destruct engine.
  split; [|apply files_upload].
  revert w. unfold upload_dataframe_to_rds.
  apply other_try_except; [|done].
  apply other_bind; [done|]. intros dfc w.
  case_bool_decide; [done|]. revert w.
  apply other_bind.
  { destruct mode; try done. intros w.
    rewrite drop_table_if_exists_planned. simpl.
    destruct (planned (faults w) 0); [done|]. by rewrite lookup_delete_ne. }
  intros _. apply other_bind; [intros w; by apply other_to_sql|].
  intros _. apply other_bind; [|done].
  intros w. by rewrite select_count_planned.
Qed.

End upload_tables.

Lemma drop_table_if_exists_swallows_errors_witness :
  ∃ w',
    LoadToRds.drop_table_if_exists tt "prices"
      {| LoadToRds.files := ∅;
         LoadToRds.tables := {[ "prices"%string := schema_frame ]};
         LoadToRds.faults := [Some (Exception "OperationalError")] |}
    = (Ok tt, w')
    ∧ LoadToRds.tables w' = {[ "prices"%string := schema_frame ]}.
Proof.
  destruct (drop_table_if_exists_swallows_errors tt "prices"
              {| LoadToRds.files := ∅;
                 LoadToRds.tables := {[ "prices"%string := schema_frame ]};
                 LoadToRds.faults := [Some (Exception "OperationalError")] |})
    as (w' & Hrun & _ & _ & _ & Hfail).
  exists w'. split; [exact Hrun|].
  apply (Hfail (Exception "OperationalError")). reflexivity.
Defined.

Lemma upload_touches_its_table_only_witness :
  "volumes"%string ≠ "prices"%string
  ∧ LoadToRds.tables
      (LoadToRds.upload_dataframe_to_rds (λ _, "0"%string) Ok schema_frame
         "prices" tt LoadToRds.IfExistsReplace
         {| LoadToRds.files := ∅;
            LoadToRds.tables := {[ "volumes"%string := schema_frame ]};
            LoadToRds.faults := [] |}).2 !! "volumes"%string
    = Some schema_frame.
Proof.
  split; [done|].
  pose proof (upload_touches_its_table_only (λ _, "0"%string) Ok schema_frame
                "prices" "volumes" tt LoadToRds.IfExistsReplace
                {| LoadToRds.files := ∅;
                   LoadToRds.tables := {[ "volumes"%string := schema_frame ]};
                   LoadToRds.faults := [] |}) as H.
  destruct H as [H _]; [done|]. rewrite H. reflexivity.
Defined.

(** * etl/04_load_to_rds.py: the status of a run *)

Section upload_run.
Import LoadToRds.
Context (repr_num : Qc → string) (to_datetime : column → result column).

Lemma upload_all_files_no_engine (w : world) (e : exn) :
  planned (faults w) 0 = Some e →
  upload_all_files repr_num to_datetime w
  = (Raise e, {| files := files w; tables := tables w;
                 faults := drop 1 (faults w) |}).
Proof.
  intros Hengine.
  unfold upload_all_files, create_db_engine, try_except, mbind, prog_bind.
  by rewrite db_call_planned, Hengine.
Qed.

Lemma all_true (results : gmap string bool) (table : string) (b : bool) :
  size (filter (λ kv : string * bool, kv.2 = true) results) = size results →
  results !! table = Some b → b = true.
Proof.
  intros Hsize Hb.
  assert (filter (λ kv : string * bool, kv.2 = true) results = results) as Hall.
  { apply map_subseteq_size_eq; [apply map_filter_subseteq|lia]. }
  rewrite <-Hall in Hb. by apply map_lookup_filter_Some in Hb as [_ ?].
Qed.

(** X17: [main] never raises; it returns a status.  The status is [False]
    when the engine cannot be made, and then no table has been touched; it is
    [True] only if every file of the mapping is on disk and readable. *)
Theorem main_returns_status (w : world) :
  ∃ b w',
    main repr_num to_datetime w = (Ok b, w')
    ∧ (∀ e, planned (faults w) 0 = Some e →
            b = false ∧ tables w' = tables w)
    ∧ (b = true →
       ∀ file table, (file, table) ∈ FILE_TABLE_MAPPING →
         ∃ df, files w !! file = Some (Ok df)).
Proof.
  unfold main, try_except. unfold mbind at 1. unfold prog_bind at 1.
  destruct (planned (faults w) 0) as [e|] eqn:Hengine.
  { rewrite (upload_all_files_no_engine w e Hengine).
    eexists _, _. split; [reflexivity|]. split; [|done].
    intros e' _. done. }
  destruct (upload_all_files_loop repr_num to_datetime w)
    as (results & w1 & Hrun & Hdom & _ & Hread).
  rewrite Hengine in Hrun. rewrite Hrun.
  unfold mbind, prog_bind.
  destruct (verify_uploads w1) as [[[]|e] w2].
  - eexists _, _. split; [reflexivity|]. split; [done|].
    intros Hb%bool_decide_eq_true file table Hmem.
    apply (Hread file table Hmem).
    destruct (proj2 (Hdom table)) as [b Hlookup].
    { apply list_elem_of_fmap. by exists (file, table). }
    rewrite Hlookup. f_equal. by eapply all_true.
  - eexists _, _. split; [reflexivity|]. split; [done|]. done.
Qed.

End upload_run.

Lemma main_returns_status_witness :
  ∃ w',
    LoadToRds.main (λ _, "0"%string) Ok upload_world = (Ok false, w').
Proof.
  destruct (main_returns_status (λ _, "0"%string) Ok upload_world)
    as (b & w' & Hrun & _ & Htrue).
  destruct b; [|by exists w'].
  destruct (Htrue eq_refl "Data/final/merged_time_series_data.csv"%string
              "merged_time_series_data"%string) as [df Hdf].
  - unfold LoadToRds.FILE_TABLE_MAPPING. do 5 right. left.
  - vm_compute in Hdf. discriminate Hdf.
Defined.

(** * Lambda/lambda_function.py: what the handler leaves in the bucket *)

Section handler_store.
Import Lambda.

(** A run, by what the services did: the response, and the bucket it
    leaves. *)
Lemma lambda_handler_run (event context : json) (w : world) :
  let date_str := Calendar.strftime_Y_m_d (today w) in
  let stored (key : string) (j : json) (m : gmap (string * string) s3_object) :=
    <[(BUCKET_NAME w, key) :=
        {| Body := Dumps j; ContentType := "application/json" |}]> m in
  let done_ :=
    {| statusCode := 200;
       body := Dumps (JObj
         [("message"%string, JStr "Weather and stock data stored successfully");
          ("date"%string, JStr date_str)]) |} in
  let failed (e : exn) :=
    {| statusCode := 500;
       body := Dumps (JObj [("message"%string, JStr "Error in Lambda");
                            ("error"%string, JStr (str_exn e))]) |} in
  ∃ w',
    today w' = today w
    ∧ env_bucket_name w' = env_bucket_name w
    ∧ http w' = http w
    ∧ match http w weather_url, http w stock_url with
      | Ok weather_json, Ok stock_json =>
          match planned (faults w) 0, planned (faults w) 1 with
          | None, None =>
              lambda_handler event context w = (Ok done_, w')
              ∧ s3 w' = stored (sp500_key date_str) stock_json
                          (stored (weather_key date_str) weather_json (s3 w))
          | None, Some e =>
              lambda_handler event context w = (Ok (failed e), w')
              ∧ s3 w' = stored (weather_key date_str) weather_json (s3 w)
          | Some e, _ =>
              lambda_handler event context w = (Ok (failed e), w')
              ∧ s3 w' = s3 w
          end
      | Raise e, _ | Ok _, Raise e =>
          lambda_handler event context w = (Ok (failed e), w') ∧ s3 w' = s3 w
      end.
Proof.
  intros date_str stored done_ failed.
  unfold done_, failed, stored, date_str. clear.
  unfold lambda_handler, try_except, mbind, prog_bind, gets, fetch_json.
  cbv beta iota.
  assert (∀ (r : result response * world) (m : gmap (string * string) s3_object),
            today r.2 = today w → env_bucket_name r.2 = env_bucket_name w →
            http r.2 = http w → s3 r.2 = m →
            ∃ w', today w' = today w
                  ∧ env_bucket_name w' = env_bucket_name w
                  ∧ http w' = http w
                  ∧ r = (r.1, w') ∧ s3 w' = m) as Hpack.
  { intros [r w'] m ????. by exists w'. }
  destruct (http w weather_url) as [weather_json|e]; [|by apply Hpack].
  destruct (http w stock_url) as [stock_json|e]; [|by apply Hpack].
  rewrite put_object_planned.
  destruct (planned (faults w) 0) as [e|]; [by apply Hpack|].
  rewrite put_object_planned. cbn [faults].
  rewrite (planned_drop _ 1 0). cbn [Nat.add].
  destruct (planned (faults w) 1) as [e|]; by apply Hpack.
Qed.

Lemma lambda_handler_store (event context : json) (w : world) :
  let date_str := Calendar.strftime_Y_m_d (today w) in
  let stored (key : string) (j : json) (m : gmap (string * string) s3_object) :=
    <[(BUCKET_NAME w, key) :=
        {| Body := Dumps j; ContentType := "application/json" |}]> m in
  s3 (lambda_handler event context w).2
  = match http w weather_url, http w stock_url with
    | Ok weather_json, Ok stock_json =>
        match planned (faults w) 0, planned (faults w) 1 with
        | None, None =>
            stored (sp500_key date_str) stock_json
              (stored (weather_key date_str) weather_json (s3 w))
        | None, Some _ => stored (weather_key date_str) weather_json (s3 w)
        | Some _, _ => s3 w
        end
    | _, _ => s3 w
    end.
Proof.
  intros date_str stored.
  destruct (lambda_handler_run event context w) as (w' & _ & _ & _ & H).
  fold date_str in H. unfold stored.
  destruct (http w weather_url); [|by destruct H as [-> H]].
  destruct (http w stock_url); [|by destruct H as [-> H]].
  destruct (planned (faults w) 0); [by destruct H as [-> H]|].
  destruct (planned (faults w) 1); by destruct H as [-> H].
Qed.

(** X18: the handler writes to no key but the two of the day.  When a fetch
    or the first write fails the bucket is left as it was; when the second
    write fails the weather document has been stored all the same. *)
Theorem lambda_handler_partial_write (event context : json) (w : world) :
  let date_str := Calendar.strftime_Y_m_d (today w) in
  let w' := (lambda_handler event context w).2 in
  (∀ bucket key,
     (bucket, key) ≠ (BUCKET_NAME w, weather_key date_str) →
     (bucket, key) ≠ (BUCKET_NAME w, sp500_key date_str) →
     s3 w' !! (bucket, key) = s3 w !! (bucket, key))
  ∧ (∀ e, http w weather_url = Raise e ∨ http w stock_url = Raise e
          ∨ planned (faults w) 0 = Some e →
          s3 w' = s3 w)
  ∧ (∀ weather_json stock_json e,
       http w weather_url = Ok weather_json →
       http w stock_url = Ok stock_json →
       planned (faults w) 0 = None →
       planned (faults w) 1 = Some e →
       s3 w' !! (BUCKET_NAME w, weather_key date_str)
       = Some {| Body := Dumps weather_json;
                 ContentType := "application/json" |}
       ∧ s3 w' !! (BUCKET_NAME w, sp500_key date_str)
         = s3 w !! (BUCKET_NAME w, sp500_key date_str)).
Proof.
  intros date_str w'.
  pose proof (lambda_handler_store event context w) as Hs3.
  cbv zeta in Hs3. fold w' in Hs3. fold date_str in Hs3. split_and!.
  - intros bucket key H1 H2. rewrite Hs3.
    destruct (http w weather_url); [|done].
    destruct (http w stock_url); [|done].
    destruct (planned (faults w) 0); [done|].
    destruct (planned (faults w) 1).
    + by rewrite lookup_insert_ne.
    + by rewrite !lookup_insert_ne.
  - intros e H. rewrite Hs3.
    destruct (http w weather_url) as [wj|]; [|done].
    destruct (http w stock_url) as [sj|]; [|done].
    destruct H as [?|[?|H]]; [done|done|]. by rewrite H.
  - intros wj sj e Hw Hs H0 H1. rewrite Hs3, Hw, Hs, H0, H1. split.
    + by rewrite lookup_insert_eq.
    + rewrite lookup_insert_ne; [done|].
      intros H. apply (weather_key_ne_sp500_key date_str). congruence.
Qed.

(** X19: running the handler again on the same day, the services answering
    as before and the bucket accepting the writes, leaves the bucket as the
    first run left it: the two objects are overwritten in place. *)
Theorem lambda_handler_rerun_same_day (event context event' context' : json)
    (w w2 : world) (resp : response) (w1 : world) :
  lambda_handler event context w = (Ok resp, w1) →
  statusCode resp = 200 →
  today w2 = today w → env_bucket_name w2 = env_bucket_name w →
  http w2 weather_url = http w weather_url →
  http w2 stock_url = http w stock_url →
  s3 w2 = s3 w1 →
  planned (faults w2) 0 = None → planned (faults w2) 1 = None →
  ∃ w3, lambda_handler event' context' w2 = (Ok resp, w3) ∧ s3 w3 = s3 w1.
Proof.
  intros Hrun Hok Htoday Henv Hweather Hstock Hs3 H0 H1.
  destruct (lambda_handler_run event context w) as (w1' & _ & _ & _ & Hfirst).
  destruct (lambda_handler_run event' context' w2)
    as (w3 & _ & _ & _ & Hsecond).
  unfold BUCKET_NAME in *.
  rewrite Htoday, Henv, Hweather, Hstock, H0, H1 in Hsecond.
  rewrite Hrun in Hfirst.
  destruct (http w weather_url) as [wj|e];
    [|destruct Hfirst as [[= -> _] _]; by cbn in Hok].
  destruct (http w stock_url) as [sj|e];
    [|destruct Hfirst as [[= -> _] _]; by cbn in Hok].
  destruct (planned (faults w) 0) as [e|];
    [destruct Hfirst as [[= -> _] _]; by cbn in Hok|].
  destruct (planned (faults w) 1) as [e|];
    [destruct Hfirst as [[= -> _] _]; by cbn in Hok|].
  destruct Hfirst as [[= -> <-] Hs1]. destruct Hsecond as [Hrun2 Hs2].
  exists w3. split; [exact Hrun2|].
  rewrite Hs2, Hs3, Hs1.
  apply map_eq. intros k.
  destruct (decide (k = (default "apan5450-stock" (env_bucket_name w),
                         sp500_key (Calendar.strftime_Y_m_d (today w)))))
    as [->|Hk2]; [by rewrite !lookup_insert_eq|].
  rewrite (lookup_insert_ne _ _ k) by done.
  destruct (decide (k = (default "apan5450-stock" (env_bucket_name w),
                         weather_key (Calendar.strftime_Y_m_d (today w)))))
    as [->|Hk1].
  - rewrite lookup_insert_eq. rewrite lookup_insert_ne by done.
    by rewrite lookup_insert_eq.
  - by rewrite !lookup_insert_ne.
Qed.

End handler_store.

Lemma lambda_handler_partial_write_witness :
  let w := lambda_world [None; Some (Exception "AccessDenied")] in
  let w' := (Lambda.lambda_handler Lambda.JNull Lambda.JNull w).2 in
  Lambda.s3 w' !! ("apan5450-stock"%string,
                    "raw/weather/weather_2020-02-29.json"%string)
  = Some {| Lambda.Body := Lambda.Dumps (Lambda.JStr "weather");
            Lambda.ContentType := "application/json" |}
  ∧ Lambda.s3 w' !! ("apan5450-stock"%string,
                      "raw/sp500/sp500_2020-02-29.json"%string) = None.
Proof.
  intros w w'.
  pose proof (lambda_handler_partial_write Lambda.JNull Lambda.JNull w)
    as (_ & _ & H).
  exact (H (Lambda.JStr "weather") (Lambda.JStr "stock")
           (Exception "AccessDenied") eq_refl eq_refl eq_refl eq_refl).
Defined.

Lemma lambda_handler_rerun_same_day_witness :
  ∃ resp w1 w3,
    Lambda.lambda_handler Lambda.JNull Lambda.JNull (lambda_world [])
    = (Ok resp, w1)
    ∧ Lambda.lambda_handler Lambda.JNull Lambda.JNull
        {| Lambda.today := 18321;
           Lambda.env_bucket_name := None;
           Lambda.http := Lambda.http (lambda_world []);
           Lambda.s3 := Lambda.s3 w1;
           Lambda.faults := [] |} = (Ok resp, w3)
    ∧ Lambda.s3 w3 = Lambda.s3 w1.
Proof.
  destruct (lambda_handler_run Lambda.JNull Lambda.JNull (lambda_world []))
    as (w1 & _ & _ & _ & H).
  assert (Lambda.http (lambda_world []) Lambda.weather_url
          = Ok (Lambda.JStr "weather")) as Hweather by (vm_compute; reflexivity).
  assert (Lambda.http (lambda_world []) Lambda.stock_url
          = Ok (Lambda.JStr "stock")) as Hstock by (vm_compute; reflexivity).
  rewrite Hweather, Hstock in H. cbn [lambda_world Lambda.faults planned] in H.
  destruct H as [Hrun _].
  eexists _, w1. 
  destruct (lambda_handler_rerun_same_day Lambda.JNull Lambda.JNull
              Lambda.JNull Lambda.JNull (lambda_world [])
              {| Lambda.today := 18321;
                 Lambda.env_bucket_name := None;
                 Lambda.http := Lambda.http (lambda_world []);
                 Lambda.s3 := Lambda.s3 w1;
                 Lambda.faults := [] |} _ w1 Hrun)
    as (w3 & Hagain & Hsame); try reflexivity.
  exists w3. split; [exact Hrun|]. split; [exact Hagain|exact Hsame].
Defined.

(** * etl/create_ultimate_dataset.py: a run of the script *)

Section ultimate_run.
Import Ultimate.

Lemma nunique_pos {K : Type} `{EqDecision K} (x : K) (l : list K) :
  (1 ≤ nunique (x :: l))%nat.
Proof.
  unfold nunique.
  assert (x ∈ remove_dups (x :: l)) as H
    by (apply elem_of_remove_dups; by left).
  destruct (remove_dups (x :: l)); [by apply elem_of_nil in H|simpl; lia].
Qed.

Lemma generate_dataset_summary_empty (ultimate_data : list ultimate_row) :
  generate_dataset_summary ultimate_data
  = match ultimate_data with
    | [] => Raise (Exception "division by zero")
    | _ :: _ => Ok tt
    end.
Proof.
  unfold generate_dataset_summary. destruct ultimate_data as [|u l]; [done|].
  rewrite bool_decide_false; [done|].
  pose proof (nunique_pos (u_ticker u) (map u_ticker l)).
  pose proof (nunique_pos (u_date u) (map u_date l)).
  simpl map. nia.
Qed.

(** X20: a run of [main] on the three input files writes the ultimate data
    set and, as the sample, its first 1000 rows (all of them when there are
    fewer), and touches no other file.  When the data set is empty (no stock
    row with labels falls on a date of the analysis table) both files have
    been written when the summary raises [ZeroDivisionError], which [main]
    raises again.  When an input file is absent [main] raises before
    anything is written. *)
Theorem ultimate_main_outcomes (fs : gmap string csv)
    (stock_data : list stock_row) (analysis_data : list analysis_row)
    (time_series_data : time_series) :
  let ultimate_data :=
    create_ultimate_dataset (prepare_stock_data_with_metrics stock_data)
      (prepare_analysis_data analysis_data time_series_data) in
  (fs !! "Data/exports/stock_data_wiki.csv"%string
   = Some (StockCsv stock_data) →
   fs !! "Data/exports/merged_analysis_data.csv"%string
   = Some (AnalysisCsv analysis_data) →
   fs !! "Data/final/merged_time_series_data.csv"%string
   = Some (TimeSeriesCsv time_series_data) →
   main fs
   = (match ultimate_data with
      | [] => Raise (Exception "division by zero")
      | _ :: _ => Ok tt
      end,
      <["Data/final/ultimate_dataset_sample.csv"%string :=
          UltimateCsv (take 1000 ultimate_data)]>
        (<["Data/final/ultimate_stock_analysis_dataset.csv"%string :=
             UltimateCsv ultimate_data]> fs)))
  ∧ (fs !! "Data/exports/stock_data_wiki.csv"%string = None
     ∨ fs !! "Data/exports/merged_analysis_data.csv"%string = None
     ∨ fs !! "Data/final/merged_time_series_data.csv"%string = None →
     ∃ e, main fs = (Raise e, fs)).
Proof.
  intros ultimate_data. split.
  - intros Hs Ha Hts.
    unfold main, try_except, load_all_source_data, read_csv, mbind, prog_bind.
    rewrite Hs, Ha, Hts. cbv beta iota.
    unfold lift, stock_frame, analysis_frame, time_series_frame.
    cbv beta iota. fold ultimate_data.
    unfold save_ultimate_dataset, mbind, prog_bind, modify, mret, prog_ret.
    cbv beta iota zeta. rewrite generate_dataset_summary_empty.
    fold ultimate_data. clearbody ultimate_data. by destruct ultimate_data.
  - unfold main, try_except, load_all_source_data, read_csv, mbind, prog_bind.
    intros [H|[H|H]].
    + rewrite H. by eexists.
    + destruct (fs !! "Data/exports/stock_data_wiki.csv"%string);
        [|by eexists].
      rewrite H. by eexists.
    + destruct (fs !! "Data/exports/stock_data_wiki.csv"%string);
        [|by eexists].
      destruct (fs !! "Data/exports/merged_analysis_data.csv"%string);
        [|by eexists].
      rewrite H. by eexists.
Qed.

End ultimate_run.

Lemma ultimate_main_outcomes_witness :
  ∃ fs',
    Ultimate.main
      {[ "Data/exports/stock_data_wiki.csv"%string :=
           Ultimate.StockCsv [other_row "AAB" 5 7];
         "Data/exports/merged_analysis_data.csv"%string :=
           Ultimate.AnalysisCsv analysis_table;
         "Data/final/merged_time_series_data.csv"%string :=
           Ultimate.TimeSeriesCsv no_time_series ]}
    = (Raise (Exception "division by zero"), fs')
    ∧ fs' !! "Data/final/ultimate_stock_analysis_dataset.csv"%string
      = Some (Ultimate.UltimateCsv []).
Proof.
  pose proof (ultimate_main_outcomes
    {[ "Data/exports/stock_data_wiki.csv"%string :=
         Ultimate.StockCsv [other_row "AAB" 5 7];
       "Data/exports/merged_analysis_data.csv"%string :=
         Ultimate.AnalysisCsv analysis_table;
       "Data/final/merged_time_series_data.csv"%string :=
         Ultimate.TimeSeriesCsv no_time_series ]}
    [other_row "AAB" 5 7] analysis_table no_time_series) as [H _].
  eexists. split.
  - rewrite H; [|vm_compute; reflexivity..].
    assert (Ultimate.create_ultimate_dataset
              (Ultimate.prepare_stock_data_with_metrics [other_row "AAB" 5 7])
              (Ultimate.prepare_analysis_data analysis_table no_time_series)
            = []) as -> by (vm_compute; reflexivity).
    reflexivity.
  - vm_compute. reflexivity.
Defined.

(** * etl/create_ultimate_dataset.py: where the category comes from *)

Lemma elem_of_merge_left {A B K : Type} `{EqDecision K} (kl : A → K)
    (kr : B → K) (l : list A) (r : list B) (p : A * option B) :
  p ∈ merge_left kl kr l r →
  p.1 ∈ l
  ∧ ((∃ b, p.2 = Some b ∧ b ∈ r ∧ kr b = kl p.1)
     ∨ (p.2 = None ∧ ∀ b, b ∈ r → kr b ≠ kl p.1)).
Proof.
  unfold merge_left. rewrite list_elem_of_In, in_flat_map.
  intros (a & Ha & Hp). apply list_elem_of_In in Ha, Hp.
  destruct (filter (λ b, kr b = kl a) r) as [|b ms] eqn:Hms.
  - apply list_elem_of_singleton in Hp as ->. split; [done|]. right.
    split; [done|]. intros b Hb Hk.
    assert (b ∈ filter (λ b, kr b = kl a) r) as Hin
      by (by apply list_elem_of_filter).
    rewrite Hms in Hin. by apply elem_of_nil in Hin.
  - apply list_elem_of_fmap in Hp as (b' & -> & Hb'). split; [done|]. left.
    exists b'. rewrite <-Hms in Hb'.
    apply list_elem_of_filter in Hb' as [? ?]. done.
Qed.

Section analysis_category.
Import Ultimate.

Lemma prepare_analysis_elem (analysis_data : list analysis_row)
    (time_series_data : time_series) (a : analysis_clean_row) :
  a ∈ prepare_analysis_data analysis_data time_series_data →
  ∃ an cat,
    (an, cat)
    ∈ (if ts_has_category time_series_data
       then map (λ '(a, m), (a, m ≫= ts_category))
              (merge_left a_date ts_date analysis_data
                 (ts_rows time_series_data))
       else map (λ a, (a, None)) analysis_data)
    ∧ c_date a = a_date an
    ∧ depression_index_category a
      = (if ts_has_category time_series_data then cat
         else cut_depression (c_depression_index a)).
Proof.
  unfold prepare_analysis_data.
  set (joined := if ts_has_category time_series_data then _ else _).
  intros [k Hk]%list_elem_of_lookup. rewrite lookup_zip_with in Hk.
  destruct (joined !! k) as [[an cat]|] eqn:Hj; [|done]. simpl in Hk.
  destruct (ffill _ !! k) as [dep|]; [|done]. simpl in Hk.
  injection Hk as <-. exists an, cat. split; [|done].
  by eapply list_elem_of_lookup_2.
Qed.

(** X21: in the analysis frame of the ultimate script the category of the
    depression index is cut from the filled index only when the time series
    has no category column.  When it has the column, the category of a row
    is the one the time series carries on its date, and is missing when the
    time series has no row on that date. *)
Theorem analysis_category_source (analysis_data : list analysis_row)
    (time_series_data : time_series) (a : analysis_clean_row) :
  a ∈ prepare_analysis_data analysis_data time_series_data →
  (ts_has_category time_series_data = false →
   depression_index_category a = cut_depression (c_depression_index a))
  ∧ (ts_has_category time_series_data = true →
     (∃ r, r ∈ ts_rows time_series_data ∧ ts_date r = c_date a
           ∧ depression_index_category a = ts_category r)
     ∨ (depression_index_category a = None
        ∧ ∀ r, r ∈ ts_rows time_series_data → ts_date r ≠ c_date a)).
Proof.
  intros (an & cat & Hin & Hdate & Hcat)%prepare_analysis_elem. split.
  - intros Hts. by rewrite Hts in Hcat.
  - intros Hts. rewrite Hts in Hin, Hcat. rewrite Hcat, Hdate.
    apply list_elem_of_fmap in Hin as ([an' m] & [= -> ->] & Hin).
    apply elem_of_merge_left in Hin as [_ [(r & Hm & Hr & Hk)|[Hm Hnone]]];
      simpl in *; subst m.
    + left. by exists r.
    + right. done.
Qed.

Lemma analysis_category_source_witness :
  ∃ a, a ∈ prepare_analysis_data analysis_table no_time_series
       ∧ depression_index_category a = Some "Medium"%string.
Proof.
  assert (∃ a, prepare_analysis_data analysis_table no_time_series !! 0%nat
               = Some a
               ∧ cut_depression (c_depression_index a) = Some "Medium"%string)
    as (a & Ha & Hcut).
  { eexists. split; [reflexivity|]. vm_compute. reflexivity. }
  exists a.
  assert (a ∈ prepare_analysis_data analysis_table no_time_series) as Hin
    by (by eapply list_elem_of_lookup_2).
  split; [exact Hin|].
  destruct (analysis_category_source analysis_table no_time_series a Hin)
    as [Hcat _].
  rewrite (Hcat eq_refl). exact Hcut.
Defined.

End analysis_category.

(** * etl/04_load_to_rds.py: uploads that do not reach the database *)

Section upload_skipped.
Import LoadToRds.
Context (repr_num : Qc → string) (to_datetime : column → result column).

(** X22: when the cleaning raises, or leaves no row, the upload returns
    [False] without a call to the database: the table of that name, if there
    is one, is not dropped, and the world is as it was. *)
Theorem upload_skipped_leaves_database (df : dataframe) (table_name : string)
    (engine : unit) (mode : if_exists_mode) (w : world) :
  (∃ e, clean_dataframe_for_upload repr_num to_datetime df table_name
        = Raise e)
  ∨ (∃ df_clean,
       clean_dataframe_for_upload repr_num to_datetime df table_name
       = Ok df_clean
       ∧ len df_clean = 0%nat) →
  upload_dataframe_to_rds repr_num to_datetime df table_name engine mode w
  = (Ok false, w).
Proof.
  destruct engine. intros [[e He]|(dfc & Hc & Hlen)].
  - by apply (upload_clean_raises _ _ _ _ _ _ e).
  - by apply (upload_empty _ _ _ dfc).
Qed.

End upload_skipped.

Lemma upload_skipped_leaves_database_witness :
  let w := {| LoadToRds.files := ∅;
              LoadToRds.tables := {[ "prices"%string := schema_frame ]};
              LoadToRds.faults := [] |} in
  LoadToRds.upload_dataframe_to_rds (λ _, "0"%string) Ok
    [("close"%string, LoadToRds.FloatColumn LoadToRds.float64 [])] "prices" tt
    LoadToRds.IfExistsReplace w
  = (Ok false, w).
Proof.
  intros w.
  apply (upload_skipped_leaves_database (λ _, "0"%string) Ok).
  right. eexists. split; [reflexivity|]. vm_compute. reflexivity.
Defined.
